(** * Download engine of the container-image download tool

    A shallow embedding of the backend download service
    ([DownloadService], the routes of /api/downloads and the manifest
    resolution against a registry) together with the properties that the
    design document states about it.

    JavaScript values are modelled as follows.
    - Byte buffers and strings are [string] (a list of 8-bit characters).
    - Byte counts, sizes and timestamps are [Z].  The numbers of the code
      are doubles: its additions are the exact ones as long as the
      operands and the result are integers of at most 2^53 in absolute
      value.  A theorem that states the arithmetic value of a sum of
      sizes sent by a registry assumes that range ([exact_sizes]).
    - The progress percentage is an exact rational [Q]: the only
      operations applied to it are a quotient, a product by 100 and
      [Math.min], and [Math.min] is exact on doubles, so the clamp does
      not depend on rounding.  Sizes and byte counts being numbers, no NaN
      reaches it.
    - An optional or dynamically added field is an [option].
    - A [Map] is a [gmap].  Task objects are shared and mutated in place
      (by the map, by the running downloads and by the replies), so they
      live in a store of objects and the maps hold references.

    Node runs one callback at a time: the service is a transition system
    whose steps are the requests of the clients and the completions that
    wake a suspended call of [executeDownload].  The registry, the disk
    and the clock are inputs of the steps; delays are not measured, a
    timer fires when its step comes. *)

From Stdlib Require Import ZArith QArith Qminmax Ascii.
From stdpp Require Import gmap strings list fin_maps pretty.

Open Scope Z_scope.

(** ** JavaScript helpers *)

(** Truthiness of a string: the empty string is falsy. *)
Definition truthy_str (s : string) : bool :=
  match s with EmptyString => false | String _ _ => true end.

(** [o || d] for an optional string. *)
Definition str_or (o : option string) (d : string) : string :=
  match o with
  | Some s => if truthy_str s then s else d
  | None => d
  end.

(** [o || 0] for an optional number. *)
Definition num_or0 (o : option Z) : Z :=
  match o with Some n => n | None => 0 end.

(** [a || b] for numbers: zero is falsy. *)
Definition num_or (a b : Z) : Z := if a =? 0 then b else a.

(** [s.includes(c)] for a one-character needle. *)
Fixpoint includes_char (c : ascii) (s : string) : bool :=
  match s with
  | EmptyString => false
  | String x r => if Ascii.eqb x c then true else includes_char c r
  end.

(** [digest.replace(/[:/]/g, '_')]. *)
Fixpoint safe_digest (s : string) : string :=
  match s with
  | EmptyString => EmptyString
  | String x r =>
      String (if Ascii.eqb x ":" || Ascii.eqb x "/" then "_"%char else x)
             (safe_digest r)
  end.

(** [path.join(a, b)] with the POSIX separator, for a normalised path [a]
    and a plain segment [b] (not empty, without separator, neither "." nor
    ".."): nothing is left to normalise and the result is [a], a
    separator and [b].  The segments that the service joins are fixed
    names, task ids and safe digests; outside this domain [path.join]
    also drops empty and "." segments and resolves "..", which is not
    modelled, so a theorem that tells paths apart assumes plain
    segments ([plain_digest]). *)
Definition path_join (a b : string) : string := a +:+ "/" +:+ b.

(** A digest written as the registries write it ("sha256:" and
    hexadecimal digits): not empty, made of letters, digits and colons.
    Its safe form is then a plain segment of a path. *)
Definition digest_char (c : ascii) : bool :=
  let n := nat_of_ascii c in
  ((48 <=? n) && (n <=? 58) || (65 <=? n) && (n <=? 90)
   || (97 <=? n) && (n <=? 122))%nat.

Fixpoint all_chars (f : ascii → bool) (s : string) : bool :=
  match s with
  | EmptyString => true
  | String c r => f c && all_chars f r
  end.

Definition plain_digest (d : string) : bool :=
  truthy_str d && all_chars digest_char d.

(** ** SHA-256 (FIPS 180-4)

    The reference function [createHash('sha256')] of the platform, used to
    state what a verified blob file is. *)
Module Sha256.

Definition w32 (x : Z) : Z := x mod 2 ^ 32.
Definition add32 (x y : Z) : Z := w32 (x + y).
Definition rotr (n x : Z) : Z :=
  Z.lor (Z.shiftr x n) (w32 (Z.shiftl x (32 - n))).
Definition Ch (x y z : Z) : Z :=
  Z.lxor (Z.land x y) (Z.land (w32 (Z.lnot x)) z).
Definition Maj (x y z : Z) : Z :=
  Z.lxor (Z.lxor (Z.land x y) (Z.land x z)) (Z.land y z).
Definition Sigma0 (x : Z) : Z := Z.lxor (Z.lxor (rotr 2 x) (rotr 13 x)) (rotr 22 x).
Definition Sigma1 (x : Z) : Z := Z.lxor (Z.lxor (rotr 6 x) (rotr 11 x)) (rotr 25 x).
Definition sigma0 (x : Z) : Z := Z.lxor (Z.lxor (rotr 7 x) (rotr 18 x)) (Z.shiftr x 3).
Definition sigma1 (x : Z) : Z := Z.lxor (Z.lxor (rotr 17 x) (rotr 19 x)) (Z.shiftr x 10).

(** The constants of the algorithm are the first 32 bits of the fractional
    parts of the cube roots ([K]) and of the square roots ([H0]) of the
    first primes. *)
Definition is_prime (n : Z) : bool :=
  forallb (λ d, negb (n mod d =? 0)) (seqZ 2 (n - 2)).

Definition primes_upto (n : Z) : list Z :=
  List.filter is_prime (seqZ 2 (n - 1)).

(** The integer cube root below 2 ^ [k], one bit at a time. *)
Fixpoint cube_root_bits (k : nat) (n acc : Z) : Z :=
  match k with
  | O => acc
  | S k' =>
      let c := acc + 2 ^ Z.of_nat k' in
      cube_root_bits k' n (if c * c * c <=? n then c else acc)
  end.

Definition frac_cube_root (p : Z) : Z := w32 (cube_root_bits 40 (p * 2 ^ 96) 0).
Definition frac_square_root (p : Z) : Z := w32 (Z.sqrt (p * 2 ^ 64)).

Definition K : list Z :=
  Eval vm_compute in frac_cube_root <$> primes_upto 311.

Definition H0 : list Z :=
  Eval vm_compute in frac_square_root <$> primes_upto 19.

Fixpoint bytes_of (s : string) : list Z :=
  match s with
  | EmptyString => []
  | String c r => Z.of_N (N_of_ascii c) :: bytes_of r
  end.

(** Big-endian bytes of [x], [n] of them. *)
Fixpoint be_bytes (n : nat) (x : Z) : list Z :=
  match n with
  | O => []
  | S k => Z.shiftr x (8 * Z.of_nat k) mod 256 :: be_bytes k x
  end.

Definition pad (m : list Z) : list Z :=
  let len := Z.of_nat (length m) in
  let zeros := Z.to_nat ((55 - len) mod 64) in
  m ++ [0x80] ++ replicate zeros 0 ++ be_bytes 8 (8 * len).

Definition be_word (bs : list Z) : Z :=
  foldl (λ acc b, acc * 256 + b) 0 bs.

(** Cut a list in pieces of [n] elements ([fuel] bounds the number of
    pieces). *)
Fixpoint pieces {A} (fuel n : nat) (l : list A) : list (list A) :=
  match fuel, l with
  | _, [] => []
  | O, _ => []
  | S f, _ => take n l :: pieces f n (drop n l)
  end.

Definition words_of_block (b : list Z) : list Z :=
  be_word <$> pieces 16 4 b.

(** The message schedule: [n] more words after the ones in [w]. *)
Fixpoint schedule (n : nat) (w : list Z) : list Z :=
  match n with
  | O => w
  | S k =>
      let t := length w in
      let at_ i := default 0 (w !! (t - i)%nat) in
      schedule k
        (w ++ [add32 (add32 (sigma1 (at_ 2%nat)) (at_ 7%nat))
                     (add32 (sigma0 (at_ 15%nat)) (at_ 16%nat))])
  end.

Record regs := Regs { ra : Z; rb : Z; rc : Z; rd : Z; re : Z; rf : Z; rg : Z; rh : Z }.

Definition round (r : regs) (kw : Z * Z) : regs :=
  let t1 := add32 (add32 (add32 (rh r) (Sigma1 (re r)))
                         (add32 (Ch (re r) (rf r) (rg r)) kw.1)) kw.2 in
  let t2 := add32 (Sigma0 (ra r)) (Maj (ra r) (rb r) (rc r)) in
  Regs (add32 t1 t2) (ra r) (rb r) (rc r) (add32 (rd r) t1) (re r) (rf r) (rg r).

Definition regs_of (h : list Z) : regs :=
  match h with
  | [a; b; c; d; e; f; g; i] => Regs a b c d e f g i
  | _ => Regs 0 0 0 0 0 0 0 0
  end.

Definition list_of (r : regs) : list Z :=
  [ra r; rb r; rc r; rd r; re r; rf r; rg r; rh r].

Definition compress (h : list Z) (block : list Z) : list Z :=
  let w := schedule 48 (words_of_block block) in
  let r := foldl round (regs_of h) (zip K w) in
  zip_with add32 h (list_of r).

Definition hex_digit (d : Z) : ascii :=
  ascii_of_N (Z.to_N (if d <? 10 then 48 + d else 87 + d)).

Definition hex_byte (b : Z) : string :=
  String (hex_digit (b / 16)) (String (hex_digit (b mod 16)) EmptyString).

Definition hex_word (w : Z) : string :=
  foldr (λ b acc, hex_byte b +:+ acc) EmptyString (be_bytes 4 w).

(** The digest of a byte string, as lower-case hexadecimal. *)
Definition hexdigest (s : string) : string :=
  let m := pad (bytes_of s) in
  let blocks := pieces (length m) 64 m in
  foldr (λ w acc, hex_word w +:+ acc) EmptyString (foldl compress H0 blocks).

End Sha256.

(** The content digest of a blob, in the registry's notation. *)
Definition content_digest (bytes : string) : string :=
  "sha256:" +:+ Sha256.hexdigest bytes.

(** ** Errors and results of asynchronous calls *)

(** What an awaited call can throw. *)
Inductive JsError :=
| AxiosHttp (status : Z)       (* a response with a status outside 2xx *)
| AxiosNetwork (msg : string)  (* connection failure, timeout, truncated read *)
| AxiosCanceled                (* the request's signal was aborted *)
| FsError (msg : string)       (* a failed file-system call *)
| TypeError (msg : string)
| PlainError (msg : string).   (* [new Error(msg)] *)

(** [error.message]. *)
Definition error_message (e : JsError) : string :=
  match e with
  | AxiosHttp c => "Request failed with status code " +:+ pretty c
  | AxiosNetwork m => m
  | AxiosCanceled => "canceled"
  | FsError m => m
  | TypeError m => m
  | PlainError m => m
  end.

Inductive Result (A : Type) :=
| Ok (a : A)
| Err (e : JsError).
Arguments Ok {A} a.
Arguments Err {A} e.

#[global] Instance Result_ret : MRet Result := λ A a, Ok a.
#[global] Instance Result_bind : MBind Result := λ A B f m,
  match m with
  | Ok a => f a
  | Err e => Err e
  end.

(** ** Registry documents *)

Record Platform := { architecture : option string; os : option string }.

(** An entry of a manifest list or OCI index. *)
Record ManifestEntry := {
  platform : option Platform;
  entry_digest : option string
}.

Record Layer := { layer_digest : string; layer_size : option Z }.

Record ConfigRef := { config_digest : option string; config_size : option Z }.

(** The data of a manifest response, as axios parsed it: a manifest list
    when [manifests] is an array, a single manifest otherwise.  The
    service reads the three fields below and otherwise only prints the
    document: [doc_json] is the text that [JSON.stringify(doc, null, 2)]
    renders. *)
Record ManifestDoc := {
  manifests : option (list ManifestEntry);
  config : option ConfigRef;
  layers : option (list Layer);
  doc_json : string
}.

Record ManifestInfo := {
  info_manifest : ManifestDoc;
  (* the parsed data of the config response ([configResp.data], or the
     empty object), held as the text that [JSON.stringify(config, null, 2)]
     renders: the service does nothing else with it *)
  info_config : string;
  info_layers : list Layer
}.

Inductive Auth :=
| Bearer (token : string)
| Basic (username password : string).

(** The registry as seen at one instant: what each request is answered. *)
Record Registry := {
  (* GET https://auth.docker.io/token?service=registry.docker.io&scope=<scope>:
     [resp.data?.token] *)
  token_endpoint : string → Result (option string);
  (* GET https://<host>/v2/<repo>/manifests/<reference> with the given
     Authorization and Accept headers *)
  manifest_endpoint : string → string → string → option Auth → string → Result ManifestDoc;
  (* GET https://<host>/v2/<repo>/blobs/<digest>, non-streaming:
     [configResp.data], the body as axios parsed it, held as the text
     that [JSON.stringify(data, null, 2)] renders (see [info_config]) *)
  blob_endpoint : string → string → string → option Auth → Result string
}.

Definition accept_list : string := "application/vnd.docker.distribution.manifest.list.v2+json".
Definition accept_v2 : string := "application/vnd.docker.distribution.manifest.v2+json".
Definition docker_host : string := "registry-1.docker.io".

(** [normalizeDockerRepo]. *)
Definition normalizeDockerRepo (name : string) : string :=
  if includes_char "/" name then name else "library/" +:+ name.

(** [getDockerToken]. *)
Definition getDockerToken (net : Registry) (repoPath : string) : Result string :=
  resp ← token_endpoint net ("repository:" +:+ repoPath +:+ ":pull");
  mret (str_or resp "").

(** [x.platform?.architecture === 'amd64']. *)
Definition is_amd64 (x : ManifestEntry) : bool :=
  match platform x with
  | Some p => bool_decide (architecture p = Some "amd64")
  | None => false
  end.

(** [manifests.find(x => x.platform?.architecture === 'amd64') || manifests[0]]. *)
Definition select_entry (ms : list ManifestEntry) : option ManifestEntry :=
  match List.find is_amd64 ms with
  | Some m => Some m
  | None => head ms
  end.

(** The digest chosen in a manifest list: [m?.digest]. *)
Definition select_digest (ms : list ManifestEntry) : option string :=
  m ← select_entry ms; entry_digest m.

(** The body shared by [getDockerManifestInfo] and [getGenericManifestInfo]:
    the two differ in the host and the Authorization header only. *)
Definition manifest_info (net : Registry) (host repoPath tag : string)
    (auth : option Auth) : Result ManifestInfo :=
  listResp ← manifest_endpoint net host repoPath tag auth accept_list;
  let digest :=
    match manifests listResp with
    | Some ms => select_digest ms
    | None => None
    end in
  manifestResp ← manifest_endpoint net host repoPath (str_or digest tag) auth accept_v2;
  let configDigest := c ← config manifestResp; config_digest c in
  cfg ← (if truthy_str (str_or configDigest "")
         then blob_endpoint net host repoPath (str_or configDigest "") auth
         else Ok "{}");
  mret {| info_manifest := manifestResp;
          info_config := cfg;
          info_layers := default [] (layers manifestResp) |}.

Definition getDockerManifestInfo (net : Registry) (repoPath tag token : string)
    : Result ManifestInfo :=
  manifest_info net docker_host repoPath tag (Some (Bearer token)).

Definition getGenericManifestInfo (net : Registry) (host repoPath tag : string)
    (basicAuth : option Auth) : Result ManifestInfo :=
  manifest_info net host repoPath tag basicAuth.

(** [getBasicAuthHeader]: no header unless both parts are non-empty. *)
Definition getBasicAuthHeader (username password : option string) : option Auth :=
  if truthy_str (str_or username "") && truthy_str (str_or password "")
  then Some (Basic (str_or username "") (str_or password ""))
  else None.

(** [layers.reduce((sum, l) => sum + (l.size || 0), 0)], for integer
    sizes.  The additions are those of doubles: they are the exact ones
    written here when the sizes are in the range of [exact_sizes], and
    round to the nearest double beyond it. *)
Definition layers_total (ls : list Layer) : Z :=
  foldl (λ sum l, sum + num_or0 (layer_size l)) 0 ls.

(** The range in which the additions of [layers_total] do not round: no
    size is negative and the sizes add up to at most 2^53, so every
    partial sum is an integer between 0 and 2^53. *)
Definition exact_sizes (ls : list Layer) : Prop :=
  Forall (λ l, 0 ≤ num_or0 (layer_size l)) ls
  ∧ foldr (λ l acc, num_or0 (layer_size l) + acc) 0 ls ≤ 2 ^ 53.

(** *** The platform selection of the design document

    Written after the document's words, to be compared with
    [select_digest]: among the entries of a list, an entry matching the
    requested platform exactly (operating system and architecture), else
    an entry of the same architecture on any operating system, else the
    first entry. *)
Definition platform_exact (want : Platform) (x : ManifestEntry) : bool :=
  match platform x with
  | Some p => bool_decide (architecture p = architecture want ∧ os p = os want)
  | None => false
  end.

Definition platform_same_arch (want : Platform) (x : ManifestEntry) : bool :=
  match platform x with
  | Some p => bool_decide (architecture p = architecture want)
  | None => false
  end.

Definition select_platform_spec (want : Platform) (ms : list ManifestEntry)
    : option string :=
  m ← (match List.find (platform_exact want) ms with
       | Some m => Some m
       | None =>
           match List.find (platform_same_arch want) ms with
           | Some m => Some m
           | None => head ms
           end
       end);
  entry_digest m.

(** The default platform of a task. *)
Definition linux_amd64 : Platform :=
  {| architecture := Some "amd64"; os := Some "linux" |}.

(** ** Tasks *)

Inductive DownloadStatus :=
| Pending | Downloading | Paused | Completed | Error | Cancelled.

#[global] Instance DownloadStatus_eq_dec : EqDecision DownloadStatus.
Proof. solve_decision. Defined.

(** The task record.  [error], [checksum], [downloadedSize] and
    [retryCount] are absent from a fresh task ([None] is [undefined]). *)
Record DownloadTask := mkTask {
  id : string;
  imageName : string;
  tag : string;
  source : string;
  status : DownloadStatus;
  progress : Q;
  speed : Z;
  totalBytes : Z;
  downloadedBytes : Z;
  targetPath : string;
  createdAt : Z;
  updatedAt : Z;
  checksum : option string;
  error : option string;
  downloadedSize : option Z;
  retryCount : option Z
}.

(** Assignments to one field of a task object. *)
Definition set_status (v : DownloadStatus) (t : DownloadTask) : DownloadTask :=
  mkTask (id t) (imageName t) (tag t) (source t) v (progress t) (speed t)
         (totalBytes t) (downloadedBytes t) (targetPath t) (createdAt t)
         (updatedAt t) (checksum t) (error t) (downloadedSize t) (retryCount t).
Definition set_progress (v : Q) (t : DownloadTask) : DownloadTask :=
  mkTask (id t) (imageName t) (tag t) (source t) (status t) v (speed t)
         (totalBytes t) (downloadedBytes t) (targetPath t) (createdAt t)
         (updatedAt t) (checksum t) (error t) (downloadedSize t) (retryCount t).
Definition set_speed (v : Z) (t : DownloadTask) : DownloadTask :=
  mkTask (id t) (imageName t) (tag t) (source t) (status t) (progress t) v
         (totalBytes t) (downloadedBytes t) (targetPath t) (createdAt t)
         (updatedAt t) (checksum t) (error t) (downloadedSize t) (retryCount t).
Definition set_totalBytes (v : Z) (t : DownloadTask) : DownloadTask :=
  mkTask (id t) (imageName t) (tag t) (source t) (status t) (progress t) (speed t)
         v (downloadedBytes t) (targetPath t) (createdAt t)
         (updatedAt t) (checksum t) (error t) (downloadedSize t) (retryCount t).
Definition set_downloadedBytes (v : Z) (t : DownloadTask) : DownloadTask :=
  mkTask (id t) (imageName t) (tag t) (source t) (status t) (progress t) (speed t)
         (totalBytes t) v (targetPath t) (createdAt t)
         (updatedAt t) (checksum t) (error t) (downloadedSize t) (retryCount t).
Definition set_updatedAt (v : Z) (t : DownloadTask) : DownloadTask :=
  mkTask (id t) (imageName t) (tag t) (source t) (status t) (progress t) (speed t)
         (totalBytes t) (downloadedBytes t) (targetPath t) (createdAt t)
         v (checksum t) (error t) (downloadedSize t) (retryCount t).
Definition set_error (v : option string) (t : DownloadTask) : DownloadTask :=
  mkTask (id t) (imageName t) (tag t) (source t) (status t) (progress t) (speed t)
         (totalBytes t) (downloadedBytes t) (targetPath t) (createdAt t)
         (updatedAt t) (checksum t) v (downloadedSize t) (retryCount t).
Definition set_downloadedSize (v : option Z) (t : DownloadTask) : DownloadTask :=
  mkTask (id t) (imageName t) (tag t) (source t) (status t) (progress t) (speed t)
         (totalBytes t) (downloadedBytes t) (targetPath t) (createdAt t)
         (updatedAt t) (checksum t) (error t) v (retryCount t).
Definition set_retryCount (v : option Z) (t : DownloadTask) : DownloadTask :=
  mkTask (id t) (imageName t) (tag t) (source t) (status t) (progress t) (speed t)
         (totalBytes t) (downloadedBytes t) (targetPath t) (createdAt t)
         (updatedAt t) (checksum t) (error t) (downloadedSize t) v.

(** ** The download service *)

(** The events of the service's [EventEmitter]; an event carries the task
    as its listeners read it when it is emitted. *)
Inductive EventName :=
| taskCreated | taskUpdated | downloadComplete | downloadError
| downloadProgress | taskPaused | taskCancelled.

#[global] Instance EventName_eq_dec : EqDecision EventName.
Proof. solve_decision. Defined.

Record Event := { ev_name : EventName; ev_task : DownloadTask }.

(** Where a running [executeDownload] is suspended.  Consecutive awaits
    between which the call neither reads nor writes the service are one
    point. *)
Inductive PC :=
| AwaitManifest
    (* the token, manifest-list, manifest and config requests *)
| AwaitMkdir (info : ManifestInfo)
    (* [fs.mkdir(blobsDir)] *)
| AwaitToken (info : ManifestInfo) (layer : Layer) (rest : list Layer)
    (* [getDockerToken] before a layer *)
| AwaitBlob (info : ManifestInfo) (layer : Layer) (rest : list Layer)
            (controller : nat) (outPath : string)
    (* the blob request, issued with the controller's signal *)
| Streaming (info : ManifestInfo) (layer : Layer) (rest : list Layer)
            (controller : nat) (outPath : string) (downloaded : Z)
            (task : option nat)
    (* the body is being piped to the file; [task] is what
       [activeTasks.get(taskId)] gave when the response arrived *)
| AwaitWrite (info : ManifestInfo)
    (* writing manifest.json and config.json *)
| AwaitDelay
    (* the retry delay *)
| Finished.

(** A call of [executeDownload]: the task id it was given, the task object
    it read at its start and where it stands. *)
Record Proc := { p_taskId : string; p_task : nat; p_pc : PC }.

Record Env := {
  ALIYUN_REGISTRY_HOST : option string;
  ALIYUN_USERNAME : option string;
  ALIYUN_PASSWORD : option string
}.

Record Service := mkService {
  objects : gmap nat DownloadTask;       (* the task objects, by reference *)
  activeTasks : gmap string nat;
  aborted : gset nat;                    (* the aborted [AbortController]s *)
  taskControllers : gmap string nat;
  fresh : nat;                           (* next reference *)
  procs : list Proc;                     (* the calls of executeDownload *)
  emitted : list Event;                  (* oldest first *)
  files : gmap string string;            (* the disk *)
  env : Env;
  crashed : bool                         (* an uncaught exception ended the process *)
}.

Definition retryAttempts : Z := 3.
Definition retryDelay : Z := 5000.
(* './downloads', as [path.join] renders it *)
Definition downloadsRoot : string := "downloads".

Definition with_objects (v : gmap nat DownloadTask) (s : Service) : Service :=
  mkService v (activeTasks s) (aborted s) (taskControllers s) (fresh s)
            (procs s) (emitted s) (files s) (env s) (crashed s).
Definition with_activeTasks (v : gmap string nat) (s : Service) : Service :=
  mkService (objects s) v (aborted s) (taskControllers s) (fresh s)
            (procs s) (emitted s) (files s) (env s) (crashed s).
Definition with_aborted (v : gset nat) (s : Service) : Service :=
  mkService (objects s) (activeTasks s) v (taskControllers s) (fresh s)
            (procs s) (emitted s) (files s) (env s) (crashed s).
Definition with_taskControllers (v : gmap string nat) (s : Service) : Service :=
  mkService (objects s) (activeTasks s) (aborted s) v (fresh s)
            (procs s) (emitted s) (files s) (env s) (crashed s).
Definition with_fresh (v : nat) (s : Service) : Service :=
  mkService (objects s) (activeTasks s) (aborted s) (taskControllers s) v
            (procs s) (emitted s) (files s) (env s) (crashed s).
Definition with_procs (v : list Proc) (s : Service) : Service :=
  mkService (objects s) (activeTasks s) (aborted s) (taskControllers s) (fresh s)
            v (emitted s) (files s) (env s) (crashed s).
Definition with_emitted (v : list Event) (s : Service) : Service :=
  mkService (objects s) (activeTasks s) (aborted s) (taskControllers s) (fresh s)
            (procs s) v (files s) (env s) (crashed s).
Definition with_files (v : gmap string string) (s : Service) : Service :=
  mkService (objects s) (activeTasks s) (aborted s) (taskControllers s) (fresh s)
            (procs s) (emitted s) v (env s) (crashed s).
Definition with_crashed (v : bool) (s : Service) : Service :=
  mkService (objects s) (activeTasks s) (aborted s) (taskControllers s) (fresh s)
            (procs s) (emitted s) (files s) (env s) v.

(** The service after its constructor. *)
Definition new_service (e : Env) : Service :=
  mkService ∅ ∅ ∅ ∅ 0%nat [] [] ∅ e false.

(** [this.activeTasks.get(taskId)], read through the reference. *)
Definition getTask (taskId : string) (s : Service) : option DownloadTask :=
  r ← activeTasks s !! taskId; objects s !! r.

(** A write to fields of the object behind [r]. *)
Definition mutate (r : nat) (f : DownloadTask → DownloadTask) (s : Service) : Service :=
  with_objects (alter f r (objects s)) s.

(** [this.emit(name, task)]. *)
Definition emit (name : EventName) (r : nat) (s : Service) : Service :=
  match objects s !! r with
  | Some t => with_emitted (emitted s ++ [{| ev_name := name; ev_task := t |}]) s
  | None => s
  end.

(** The writes of [updateTaskStatus] to the task; the additional data is
    always an [error] message. *)
Definition status_update (now : Z) (st : DownloadStatus)
    (additionalData : option string) (t : DownloadTask) : DownloadTask :=
  let t := set_updatedAt now (set_status st t) in
  match additionalData with
  | Some msg => set_error (Some msg) t
  | None => t
  end.

(** [updateTaskStatus]. *)
Definition updateTaskStatus (now : Z) (taskId : string) (st : DownloadStatus)
    (additionalData : option string) (s : Service) : Service :=
  match activeTasks s !! taskId with
  | None => s
  | Some r =>
      let s := mutate r (status_update now st additionalData) s in
      let s := with_activeTasks (<[taskId := r]> (activeTasks s)) s in
      let s := emit taskUpdated r s in
      match st with
      | Completed => emit downloadComplete r s
      | Error => emit downloadError r s
      | _ => s
      end
  end.

(** The writes of [updateTaskProgress] to the task. *)
Definition progress_update (now : Z) (p : Q) (size : Z) (spd : Z)
    (t : DownloadTask) : DownloadTask :=
  set_updatedAt now (set_speed spd
    (set_downloadedSize (Some size) (set_progress (Qmin p 100) t))).

(** [updateTaskProgress]. *)
Definition updateTaskProgress (now : Z) (taskId : string) (p : Q)
    (size : Z) (spd : Z) (s : Service) : Service :=
  match activeTasks s !! taskId with
  | None => s
  | Some r =>
      let s := mutate r (progress_update now p size spd) s in
      let s := with_activeTasks (<[taskId := r]> (activeTasks s)) s in
      emit downloadProgress r s
  end.

(** *** executeDownload *)

Definition is_dockerhub (t : DownloadTask) : bool := bool_decide (source t = "dockerhub").
Definition is_aliyun (t : DownloadTask) : bool := bool_decide (source t = "aliyun").

Definition unsupported_source (t : DownloadTask) : JsError :=
  PlainError ("暂不支持的镜像源: " +:+ source t).

(** The manifest resolution at the head of [executeDownload], against the
    registry as it answers. *)
Definition resolve (net : Registry) (e : Env) (task : DownloadTask)
    : Result ManifestInfo :=
  if is_dockerhub task then
    let repo := normalizeDockerRepo (imageName task) in
    token ← getDockerToken net repo;
    getDockerManifestInfo net repo (tag task) token
  else if is_aliyun task then
    let host := str_or (ALIYUN_REGISTRY_HOST e) "registry.cn-hangzhou.aliyuncs.com" in
    let basic := getBasicAuthHeader (ALIYUN_USERNAME e) (ALIYUN_PASSWORD e) in
    getGenericManifestInfo net host (imageName task) (tag task) basic
  else Err (unsupported_source task).

(** The [catch] block: the task is marked in error, and the download is
    attempted again after a delay while attempts remain.  [r] is the task
    object the call read at its start. *)
Definition on_catch (now : Z) (taskId : string) (r : nat) (e : JsError)
    (s : Service) : Service * PC :=
  let s := updateTaskStatus now taskId Error (Some (error_message e)) s in
  match objects s !! r with
  | Some task =>
      let count := num_or0 (retryCount task) in
      if count <? retryAttempts
      then (mutate r (set_retryCount (Some (count + 1))) s, AwaitDelay)
      else (s, Finished)
  | None => (s, Finished)
  end.

(** The start of [executeDownload], up to its first await; [None] when
    the task is unknown and the call returns at once. *)
Definition executeDownload (now : Z) (taskId : string) (s : Service)
    : Service * option Proc :=
  match activeTasks s !! taskId with
  | None => (s, None)
  | Some r =>
      let s := updateTaskStatus now taskId Downloading None s in
      match objects s !! r with
      | Some task =>
          if is_dockerhub task || is_aliyun task
          then (s, Some {| p_taskId := taskId; p_task := r; p_pc := AwaitManifest |})
          else
            let '(s, pc) := on_catch now taskId r (unsupported_source task) s in
            (s, Some {| p_taskId := taskId; p_task := r; p_pc := pc |})
      | None => (s, None)
      end
  end.

(** A call of [executeDownload] that the caller does not await. *)
Definition spawn (now : Z) (taskId : string) (s : Service) : Service :=
  match executeDownload now taskId s with
  | (s, Some p) => with_procs (procs s ++ [p]) s
  | (s, None) => s
  end.

(** The file of a layer under the task's directory:
    [path.join(blobsDir, layer.digest.replace(/[:/]/g, '_'))]. *)
Definition layer_path (target : string) (layer : Layer) : string :=
  path_join (path_join target "blobs") (safe_digest (layer_digest layer)).

(** The start of [downloadDockerBlob] and [downloadGenericBlob]: a new
    controller is registered for the task and the request is issued. *)
Definition start_blob (taskId : string) (task : DownloadTask)
    (info : ManifestInfo) (layer : Layer) (rest : list Layer) (s : Service)
    : Service * PC :=
  let c := fresh s in
  let s := with_fresh (S c) s in
  let s := with_taskControllers (<[taskId := c]> (taskControllers s)) s in
  (s, AwaitBlob info layer rest c (layer_path (targetPath task) layer)).

(** The head of the layer loop, and what follows the loop. *)
Fixpoint next_layer (taskId : string) (r : nat) (info : ManifestInfo)
    (ls : list Layer) (s : Service) : Service * PC :=
  match ls with
  | [] => (s, AwaitWrite info)
  | layer :: rest =>
      match objects s !! r with
      | Some task =>
          if is_dockerhub task then (s, AwaitToken info layer rest)
          else if is_aliyun task then start_blob taskId task info layer rest s
          else next_layer taskId r info rest s
      | None => (s, Finished)
      end
  end.

(** The ['data'] handler of a blob stream, then the pipe's write. *)
Definition on_data (now : Z) (taskId : string) (layer : Layer)
    (outPath : string) (task : option nat) (chunk : string) (s : Service)
    : Service :=
  match task ≫= (objects s !!.) with
  | None => with_crashed true s
  | Some t =>
      let len := Z.of_nat (String.length chunk) in
      let total := num_or (totalBytes t) (num_or0 (layer_size layer)) in
      let newDownloaded := downloadedBytes t + len in
      let p := if total =? 0 then progress t
               else (inject_Z newDownloaded / inject_Z total * 100)%Q in
      let s := updateTaskProgress now taskId p newDownloaded 0 s in
      with_files (<[outPath := default "" (files s !! outPath) +:+ chunk]> (files s)) s
  end.

(** [verifyFile]: a log line. *)
Definition verifyFile (task : DownloadTask) (s : Service) : Service := s.

(** What wakes a suspended call. *)
Inductive Completion :=
| Resolved (net : Registry)
| MkdirDone (r : Result unit)
| TokenDone (net : Registry)
| BlobResponse (r : Result unit)
| Chunk (chunk : string)
| StreamEnd
| StreamError (e : JsError)
| WriteDone (manifest_json config_json : Result unit)
| Timer.

Definition at_pc (p : Proc) (sp : Service * PC) : Service * Proc :=
  (sp.1, {| p_taskId := p_taskId p; p_task := p_task p; p_pc := sp.2 |}).

(** The continuation of a call of [executeDownload] from where it is
    suspended; a completion that the call is not waiting for is ignored. *)
Definition continue (now : Z) (p : Proc) (c : Completion) (s : Service)
    : Service * Proc :=
  let taskId := p_taskId p in
  let r := p_task p in
  let fail e := at_pc p (on_catch now taskId r e s) in
  match p_pc p, c with
  | AwaitManifest, Resolved net =>
      match objects s !! r with
      | Some task =>
          match resolve net (env s) task with
          | Ok manifestInfo =>
              let totalBytes := layers_total (info_layers manifestInfo) in
              let s := mutate r (set_totalBytes totalBytes) s in
              let s := with_activeTasks (<[taskId := r]> (activeTasks s)) s in
              at_pc p (s, AwaitMkdir manifestInfo)
          | Err e => fail e
          end
      | None => (s, p)
      end
  | AwaitMkdir info, MkdirDone (Ok _) =>
      at_pc p (next_layer taskId r info (info_layers info) s)
  | AwaitMkdir info, MkdirDone (Err e) => fail e
  | AwaitToken info layer rest, TokenDone net =>
      match objects s !! r with
      | Some task =>
          match getDockerToken net (normalizeDockerRepo (imageName task)) with
          | Ok _ => at_pc p (start_blob taskId task info layer rest s)
          | Err e => fail e
          end
      | None => (s, p)
      end
  | AwaitBlob info layer rest ctl outPath, BlobResponse resp =>
      if bool_decide (ctl ∈ aborted s) then fail AxiosCanceled
      else
        match resp with
        | Ok _ =>
            let s' := with_files (<[outPath := ""]> (files s)) s in
            at_pc p (s', Streaming info layer rest ctl outPath 0
                                   (activeTasks s !! taskId))
        | Err e => fail e
        end
  | Streaming info layer rest ctl outPath downloaded task, Chunk chunk =>
      if bool_decide (ctl ∈ aborted s) then (s, p)
      else
        at_pc p (on_data now taskId layer outPath task chunk s,
                 Streaming info layer rest ctl outPath
                           (downloaded + Z.of_nat (String.length chunk)) task)
  | Streaming info layer rest ctl outPath downloaded task, StreamEnd =>
      if bool_decide (ctl ∈ aborted s) then (s, p)
      else
        match activeTasks s !! taskId with
        | Some t =>
            let s := mutate t (λ x, set_downloadedBytes (downloadedBytes x + downloaded) x) s in
            let s := with_activeTasks (<[taskId := t]> (activeTasks s)) s in
            let s := with_taskControllers (delete taskId (taskControllers s)) s in
            at_pc p (next_layer taskId r info rest s)
        | None =>
            fail (TypeError "Cannot read properties of undefined (reading 'downloadedBytes')")
        end
  | Streaming _ _ _ _ _ _ _, StreamError e => fail e
  | AwaitWrite info, WriteDone (Err e) _ => fail e
  | AwaitWrite info, WriteDone (Ok _) w2 =>
      match objects s !! r with
      | Some task =>
          let s1 := with_files (<[path_join (targetPath task) "manifest.json"
                                   := doc_json (info_manifest info)]> (files s)) s in
          match w2 with
          | Err e => at_pc p (on_catch now taskId r e s1)
          | Ok _ =>
              let s2 := with_files (<[path_join (targetPath task) "config.json"
                                       := info_config info]> (files s1)) s1 in
              let s3 := verifyFile task s2 in
              at_pc p (updateTaskStatus now taskId Completed None s3, Finished)
          end
      | None => (s, p)
      end
  | AwaitDelay, Timer =>
      match executeDownload now taskId s with
      | (s, Some p') => (s, p')
      | (s, None) => at_pc p (s, Finished)
      end
  | _, _ => (s, p)
  end.

(** *** The control verbs of the service *)

(** [path.join(this.downloadsRoot, 'tasks', taskId)]. *)
Definition taskDir (taskId : string) : string :=
  path_join (path_join downloadsRoot "tasks") taskId.

(** [startDownload]: [now] is the clock, [mkdir] the outcome of creating
    the task directory.  The result is the task object. *)
Definition startDownload (now : Z) (mkdir : Result unit)
    (image tg src : string) (target : option string) (s : Service)
    : Service * Result nat :=
  let taskId := pretty now in
  match mkdir with
  | Err e => (s, Err e)
  | Ok _ =>
      let r := fresh s in
      let task :=
        mkTask taskId image tg src Pending 0 0 0 0
               (str_or target (taskDir taskId)) now now None None None None in
      let s := with_fresh (S r) s in
      let s := with_objects (<[r := task]> (objects s)) s in
      let s := with_activeTasks (<[taskId := r]> (activeTasks s)) s in
      let s := emit taskCreated r s in
      (spawn now taskId s, Ok r)
  end.

(** [controller.abort(); this.taskControllers.delete(taskId)] when the task
    has a controller. *)
Definition abort_controller (taskId : string) (s : Service) : Service :=
  match taskControllers s !! taskId with
  | Some c =>
      with_taskControllers (delete taskId (taskControllers s))
        (with_aborted ({[c]} ∪ aborted s) s)
  | None => s
  end.

Definition pauseDownload (now : Z) (taskId : string) (s : Service) : Service :=
  let s := abort_controller taskId s in
  match activeTasks s !! taskId with
  | Some r =>
      match objects s !! r with
      | Some task =>
          if bool_decide (status task = Downloading) then
            let s := mutate r (λ t, set_updatedAt now (set_status Paused t)) s in
            let s := with_activeTasks (<[taskId := r]> (activeTasks s)) s in
            emit taskPaused r s
          else s
      | None => s
      end
  | None => s
  end.

Definition resumeDownload (now : Z) (taskId : string) (s : Service) : Service :=
  match getTask taskId s with
  | Some task =>
      if bool_decide (status task = Paused) then spawn now taskId s else s
  | None => s
  end.

Definition cancelDownload (now : Z) (taskId : string) (s : Service) : Service :=
  let s := abort_controller taskId s in
  match activeTasks s !! taskId with
  | Some r =>
      let s := mutate r (λ t, set_updatedAt now (set_status Cancelled t)) s in
      let s := with_activeTasks (delete taskId (activeTasks s)) s in
      emit taskCancelled r s
  | None => s
  end.

(** The writes of [retryDownload] to the task. *)
Definition retry_reset (now : Z) (t : DownloadTask) : DownloadTask :=
  set_updatedAt now (set_retryCount (Some 0)
    (set_downloadedSize (Some 0) (set_speed 0
      (set_progress 0 (set_status Pending t))))).

Definition retryDownload (now : Z) (taskId : string) (s : Service) : Service :=
  match activeTasks s !! taskId with
  | Some r =>
      let s := mutate r (retry_reset now) s in
      spawn now taskId s
  | None => s
  end.

(** Whether [cleanupCompletedTasks] keeps the entry of the object [r]. *)
Definition kept (s : Service) (r : nat) : bool :=
  match objects s !! r with
  | Some task =>
      negb (bool_decide (status task = Completed) || bool_decide (status task = Cancelled))
  | None => true
  end.

Definition cleanupCompletedTasks (s : Service) : Service :=
  with_activeTasks (filter (λ kv, Is_true (kept s kv.2)) (activeTasks s)) s.

(** ** The routes of /api/downloads *)

Record Response := {
  code : Z;
  data : option DownloadTask;     (* the task as serialised in the reply *)
  message : option string
}.

Definition reply (c : Z) (d : option DownloadTask) (m : option string) : Response :=
  {| code := c; data := d; message := m |}.

Definition not_found : Response := reply 404 None (Some "Download task not found").

Record CreateBody := {
  body_imageName : option string;
  body_tag : option string;
  body_source : option string;
  body_targetPath : option string
}.

(** POST /api/downloads *)
Definition route_create (now : Z) (mkdir : Result unit) (b : CreateBody)
    (s : Service) : Service * Response :=
  if negb (truthy_str (str_or (body_imageName b) ""))
     || negb (truthy_str (str_or (body_tag b) ""))
     || negb (truthy_str (str_or (body_source b) ""))
  then (s, reply 400 None (Some "Missing required fields: imageName, tag, source"))
  else
    match startDownload now mkdir (str_or (body_imageName b) "")
            (str_or (body_tag b) "") (str_or (body_source b) "")
            (body_targetPath b) s with
    | (s, Ok r) => (s, reply 200 (objects s !! r) None)
    | (s, Err _) => (s, reply 500 None (Some "Failed to create download task"))
    end.

(** GET /api/downloads/:taskId *)
Definition route_get (taskId : string) (s : Service) : Service * Response :=
  match getTask taskId s with
  | Some task => (s, reply 200 (Some task) None)
  | None => (s, not_found)
  end.

(** POST /api/downloads/:taskId/pause *)
Definition route_pause (now : Z) (taskId : string) (s : Service)
    : Service * Response :=
  match getTask taskId s with
  | None => (s, not_found)
  | Some task =>
      if bool_decide (status task ≠ Downloading)
      then (s, reply 400 None (Some "Task is not in downloading status"))
      else
        let s := pauseDownload now taskId s in
        (s, reply 200 (getTask taskId s) None)
  end.

(** POST /api/downloads/:taskId/resume *)
Definition route_resume (now : Z) (taskId : string) (s : Service)
    : Service * Response :=
  match getTask taskId s with
  | None => (s, not_found)
  | Some task =>
      if bool_decide (status task ≠ Paused)
      then (s, reply 400 None (Some "Task is not in paused status"))
      else
        let s := resumeDownload now taskId s in
        (s, reply 200 (getTask taskId s) None)
  end.

(** POST /api/downloads/:taskId/cancel *)
Definition route_cancel (now : Z) (taskId : string) (s : Service)
    : Service * Response :=
  match getTask taskId s with
  | None => (s, not_found)
  | Some task =>
      if bool_decide (status task = Completed)
      then (s, reply 400 None (Some "Cannot cancel completed task"))
      else
        let s := cancelDownload now taskId s in
        (s, reply 200 (getTask taskId s) None)
  end.

(** DELETE /api/downloads/:taskId *)
Definition route_delete (taskId : string) (s : Service) : Service * Response :=
  match getTask taskId s with
  | None => (s, not_found)
  | Some task =>
      if bool_decide (status task = Downloading)
      then (s, reply 400 None (Some "Cannot delete downloading task"))
      else
        (cleanupCompletedTasks s,
         reply 200 None (Some "Download task deleted successfully"))
  end.

(** ** The service as a transition system

    Node runs one callback at a time, so the service advances by atomic
    steps: a request of a client, a direct call of [retryDownload], or the
    completion that wakes the call of [executeDownload] numbered [pid]. *)

Inductive Request :=
| Create (mkdir : Result unit) (b : CreateBody)
| Get (taskId : string)
| Pause (taskId : string)
| Resume (taskId : string)
| Cancel (taskId : string)
| Delete (taskId : string).

Inductive Input :=
| Http (req : Request)
| RetryCall (taskId : string)
| Wake (pid : nat) (c : Completion).

Definition route (now : Z) (req : Request) (s : Service) : Service * Response :=
  match req with
  | Create mkdir b => route_create now mkdir b s
  | Get taskId => route_get taskId s
  | Pause taskId => route_pause now taskId s
  | Resume taskId => route_resume now taskId s
  | Cancel taskId => route_cancel now taskId s
  | Delete taskId => route_delete taskId s
  end.

(** One step at clock [now]; the reply is present for a request. *)
Definition step (now : Z) (i : Input) (s : Service) : Service * option Response :=
  if crashed s then (s, None)
  else
    match i with
    | Http req => let '(s, resp) := route now req s in (s, Some resp)
    | RetryCall taskId => (retryDownload now taskId s, None)
    | Wake pid c =>
        match procs s !! pid with
        | Some p =>
            let '(s, p') := continue now p c s in
            (with_procs (<[pid := p']> (procs s)) s, None)
        | None => (s, None)
        end
    end.

(** A run: the inputs in order, each with its clock; the final state and
    the replies, oldest first. *)
Fixpoint run (tr : list (Z * Input)) (s : Service) : Service * list Response :=
  match tr with
  | [] => (s, [])
  | (now, i) :: tr =>
      let '(s, resp) := step now i s in
      let '(s', resps) := run tr s in
      (s', option_list resp ++ resps)
  end.

(** The progress events emitted so far, as [(task id, progress)]. *)
Definition progress_events (s : Service) : list (string * Q) :=
  omap (λ ev, if bool_decide (ev_name ev = downloadProgress)
              then Some (id (ev_task ev), progress (ev_task ev)) else None)
       (emitted s).

(** The ids of the tasks for which the step from [s] to [s'] emitted a
    progress event. *)
Definition progress_emitted (s s' : Service) : list string :=
  fst <$> drop (length (progress_events s)) (progress_events s').

(** Whether a run keeps silent about paused tasks: [held] are the tasks
    whose pause was answered 200 and for which no resume was requested
    since; no step may emit a progress event for one of them. *)
Fixpoint pause_honoured (held : gset string) (tr : list (Z * Input))
    (s : Service) : bool :=
  match tr with
  | [] => true
  | (now, i) :: tr =>
      let '(s', resp) := step now i s in
      let held' :=
        match i, resp with
        | Http (Pause taskId), Some r =>
            if code r =? 200 then {[taskId]} ∪ held else held
        | Http (Resume taskId), _ => held ∖ {[taskId]}
        | _, _ => held
        end in
      forallb (λ taskId, negb (bool_decide (taskId ∈ held))) (progress_emitted s s')
      && pause_honoured held' tr s'
  end.

(** *** The total size of the design document

    Written after the document's words, to be compared with what
    [executeDownload] stores: the size of the config blob plus the sizes
    of the layers of the selected manifest. *)
Definition total_bytes_spec (doc : ManifestDoc) : Z :=
  num_or0 (c ← config doc; config_size c)
  + foldr (λ l acc, num_or0 (layer_size l) + acc) 0 (default [] (layers doc)).

(** ** Predicates on the states of the service *)

Definition bounded (t : DownloadTask) : Prop := (progress t <= 100)%Q.

(** Every task object and every task carried by an emitted event has a
    progress of at most 100. *)
Definition progress_bounded (s : Service) : Prop :=
  map_Forall (λ _ t, bounded t) (objects s)
  ∧ Forall (λ ev, bounded (ev_task ev)) (emitted s).

(** The bytes of a stream: its chunks, in order. *)
Definition concat_chunks (cs : list string) : string :=
  foldr String.append "" cs.

(** The call [pid], downloading a Docker Hub task into [target], is
    streaming [layer], with the layers [rest] still to come: [d] bytes
    were counted and the file of the layer holds [content]. *)
Definition streaming_layer (pid : nat) (taskId : string) (r : nat)
    (info : ManifestInfo) (layer : Layer) (rest : list Layer) (ctl : nat)
    (target : string) (d : Z) (content : string) (s : Service) : Prop :=
  crashed s = false
  ∧ procs s !! pid
    = Some {| p_taskId := taskId; p_task := r;
              p_pc := Streaming info layer rest ctl (layer_path target layer)
                                d (Some r) |}
  ∧ (ctl ∉ aborted s)
  ∧ activeTasks s !! taskId = Some r
  ∧ (∃ t : DownloadTask,
       objects s !! r = Some t ∧ targetPath t = target ∧ source t = "dockerhub")
  ∧ files s !! layer_path target layer = Some content.

(** Where the layer loop stands after a layer of a Docker Hub task. *)
Definition after_layer_pc (info : ManifestInfo) (rest : list Layer) : PC :=
  match rest with
  | [] => AwaitWrite info
  | l :: rest' => AwaitToken info l rest'
  end.

(** The call [pid] has left [layer] behind, its file holding [content], and
    stands at the next layer or, after the last one, at the two writes. *)
Definition after_layer (pid : nat) (taskId : string) (r : nat)
    (info : ManifestInfo) (layer : Layer) (rest : list Layer)
    (target : string) (content : string) (s : Service) : Prop :=
  crashed s = false
  ∧ procs s !! pid
    = Some {| p_taskId := taskId; p_task := r; p_pc := after_layer_pc info rest |}
  ∧ activeTasks s !! taskId = Some r
  ∧ (∃ t : DownloadTask,
       objects s !! r = Some t ∧ targetPath t = target ∧ source t = "dockerhub")
  ∧ files s !! layer_path target layer = Some content.

(** ** Scenarios *)

Module Scenario.

Definition env0 : Env :=
  {| ALIYUN_REGISTRY_HOST := None; ALIYUN_USERNAME := None; ALIYUN_PASSWORD := None |}.

(** A layer announced with the digest of the empty blob. *)
Definition layerA : Layer :=
  {| layer_digest := "sha256:e3b0c44298fc1c149afbf4c8996fb92427ae41e4649b934ca495991b7852b855";
     layer_size := Some 3 |}.

(** A word between double quotes, and lines joined by line feeds. *)
Definition quoted (w : string) : string :=
  String "034" w +:+ String "034" "".

Definition text (lines : list string) : string :=
  String.concat (String "010" "") lines.

(** The manifest of the image as [JSON.stringify(doc, null, 2)] prints it. *)
Definition manifestA_json : string :=
  text [ "{";
         "  " +:+ quoted "config" +:+ ": {";
         "    " +:+ quoted "digest" +:+ ": " +:+ quoted "sha256:cfg" +:+ ",";
         "    " +:+ quoted "size" +:+ ": 5";
         "  },";
         "  " +:+ quoted "layers" +:+ ": [";
         "    {";
         "      " +:+ quoted "digest" +:+ ": "
           +:+ quoted "sha256:e3b0c44298fc1c149afbf4c8996fb92427ae41e4649b934ca495991b7852b855"
           +:+ ",";
         "      " +:+ quoted "size" +:+ ": 3";
         "    }";
         "  ]";
         "}" ].

Definition manifestA : ManifestDoc :=
  {| manifests := None;
     config := Some {| config_digest := Some "sha256:cfg"; config_size := Some 5 |};
     layers := Some [layerA];
     doc_json := manifestA_json |}.

(** The config of the image, the object with the one field [os], as
    [JSON.stringify(config, null, 2)] prints it. *)
Definition configA : string :=
  text [ "{"; "  " +:+ quoted "os" +:+ ": " +:+ quoted "linux"; "}" ].

(** A registry that serves [manifestA] for every reference. *)
Definition registryA : Registry :=
  {| token_endpoint := λ _, Ok (Some "tok");
     manifest_endpoint := λ _ _ _ _ _, Ok manifestA;
     blob_endpoint := λ _ _ _ _, Ok configA |}.

(** A registry that knows no manifest. *)
Definition registry404 : Registry :=
  {| token_endpoint := λ _, Ok (Some "tok");
     manifest_endpoint := λ _ _ _ _ _, Err (AxiosHttp 404);
     blob_endpoint := λ _ _ _ _, Err (AxiosHttp 404) |}.

Definition body (src : string) : CreateBody :=
  {| body_imageName := Some "nginx"; body_tag := Some "latest";
     body_source := Some src; body_targetPath := None |}.

Definition blobA : string :=
  "downloads/tasks/1000/blobs/sha256_e3b0c44298fc1c149afbf4c8996fb92427ae41e4649b934ca495991b7852b855".

(** nginx:latest from Docker Hub, up to the first bytes of its layer. *)
Definition first_bytes (t0 : Z) (pid : nat) : list (Z * Input) :=
  [ (t0 + 1, Wake pid (Resolved registryA));
    (t0 + 2, Wake pid (MkdirDone (Ok ())));
    (t0 + 3, Wake pid (TokenDone registryA));
    (t0 + 4, Wake pid (BlobResponse (Ok ())));
    (t0 + 5, Wake pid (Chunk "ab")) ].

(** The whole download: the layer's stream delivers "ab" then "c". *)
Definition happy : list (Z * Input) :=
  (1000, Http (Create (Ok ()) (body "dockerhub")))
  :: first_bytes 1000 0
  ++ [ (1006, Wake 0 (Chunk "c"));
       (1007, Wake 0 StreamEnd);
       (1008, Wake 0 (WriteDone (Ok ()) (Ok ()))) ].

(** A pause while the layer is streaming; the aborted stream then fails,
    the retry delay elapses and the download runs again.  No resume is
    requested. *)
Definition pause_then_retry : list (Z * Input) :=
  (1000, Http (Create (Ok ()) (body "dockerhub")))
  :: first_bytes 1000 0
  ++ [ (1006, Http (Pause "1000"));
       (1007, Wake 0 (StreamError AxiosCanceled));
       (6007, Wake 0 Timer) ]
  ++ first_bytes 6007 0.

(** A pause while the manifest is being resolved. *)
Definition pause_while_resolving : list (Z * Input) :=
  [ (1000, Http (Create (Ok ()) (body "dockerhub")));
    (1001, Http (Pause "1000")) ]
  ++ first_bytes 1001 0.

(** The manifest of the task is not found. *)
Definition not_found_once : list (Z * Input) :=
  [ (1000, Http (Create (Ok ()) (body "dockerhub")));
    (1001, Wake 0 (Resolved registry404)) ].

(** A completed task "1000" and a task "2000" whose manifest is not found
    on any of its four attempts. *)
Definition one_done_one_failed : list (Z * Input) :=
  happy
  ++ [ (2000, Http (Create (Ok ()) (body "dockerhub")));
       (2001, Wake 1 (Resolved registry404));
       (7001, Wake 1 Timer); (7002, Wake 1 (Resolved registry404));
       (12002, Wake 1 Timer); (12003, Wake 1 (Resolved registry404));
       (17003, Wake 1 Timer); (17004, Wake 1 (Resolved registry404)) ].

(** A manifest list whose first amd64 entry is not a Linux image. *)
Definition windows_first : list ManifestEntry :=
  [ {| platform := Some {| architecture := Some "amd64"; os := Some "windows" |};
       entry_digest := Some "sha256:win" |};
    {| platform := Some {| architecture := Some "amd64"; os := Some "linux" |};
       entry_digest := Some "sha256:lin" |} ].

End Scenario.

(** ** The tasks that the service makes

    A task object starts as the record that [startDownload] builds and is
    changed only by the writes below: those of [updateTaskStatus] (also
    the pause and the cancel, which write a status and a date),
    [updateTaskProgress] (the speed it is given is always 0),
    [retryDownload], the [catch] block, the resolution and the end of a
    blob. *)
Inductive made : DownloadTask → Prop :=
| made_new now image tg src target :
    made (mkTask (pretty now) image tg src Pending 0 0 0 0 target now now
                 None None None None)
| made_status now st d t :
    made t → made (status_update now st d t)
| made_progress now p size t :
    made t → made (progress_update now p size 0 t)
| made_retry now t :
    made t → made (retry_reset now t)
| made_attempt t :
    made t → num_or0 (retryCount t) < retryAttempts →
    made (set_retryCount (Some (num_or0 (retryCount t) + 1)) t)
| made_total v t :
    made t → made (set_totalBytes v t)
| made_bytes d t :
    made t → made (set_downloadedBytes (downloadedBytes t + d) t).

(** What the name of an event says about the task it carries. *)
Definition event_fits (ev : Event) : Prop :=
  match ev_name ev with
  | taskCreated => status (ev_task ev) = Pending
  | taskUpdated => True
  | downloadComplete => status (ev_task ev) = Completed
  | downloadError => status (ev_task ev) = Error ∧ is_Some (error (ev_task ev))
  | downloadProgress => is_Some (downloadedSize (ev_task ev))
  | taskPaused => status (ev_task ev) = Paused
  | taskCancelled => status (ev_task ev) = Cancelled
  end.

(** The object that a call of [executeDownload] holds exists and is the
    task the call was given. *)
Definition proc_fits (s : Service) (p : Proc) : Prop :=
  ∃ t, objects s !! p_task p = Some t ∧ id t = p_taskId p.

(** The shape of the states of the service: the objects are made by the
    service and lie below the next reference; every key of [activeTasks]
    names an object whose [id] is the key; so do the running calls; the
    events carry tasks made by the service that fit their names. *)
Definition consistent (s : Service) : Prop :=
  (∀ r t, objects s !! r = Some t → made t ∧ (r < fresh s)%nat)
  ∧ (∀ k r, activeTasks s !! k = Some r →
            ∃ t, objects s !! r = Some t ∧ id t = k)
  ∧ Forall (proc_fits s) (procs s)
  ∧ Forall (λ ev, made (ev_task ev) ∧ event_fits ev) (emitted s).

(** [consistent], with calls of [executeDownload] that are being run. *)
Definition sound (l : list Proc) (s : Service) : Prop :=
  consistent s ∧ Forall (proc_fits s) l.

(** ** The listeners of index.ts

    The server subscribes to three events of the service and turns the
    task of each into the message that is broadcast.  [Math.floor] of the
    quotient is the division of [Z]; the two agree as long as the byte
    counts are below 2^53. *)
Inductive WebSocketEvent :=
| download_progress (taskId : string) (progress : Q)
                    (speed remainingTime downloadedBytes totalBytes : Z)
| download_complete (taskId filePath checksum : string)
| download_error (taskId error : string).

Definition on_event (ev : Event) : option WebSocketEvent :=
  let task := ev_task ev in
  match ev_name ev with
  | downloadProgress =>
      Some (download_progress (id task) (progress task) (speed task)
              (Z.max 0 ((totalBytes task - downloadedBytes task)
                        / num_or (speed task) 1))
              (downloadedBytes task) (totalBytes task))
  | downloadComplete =>
      Some (download_complete (id task) (targetPath task)
              (str_or (checksum task) ""))
  | downloadError =>
      Some (download_error (id task) (str_or (error task) "unknown"))
  | _ => None
  end.

(** The messages broadcast so far, oldest first. *)
Definition broadcasts (s : Service) : list WebSocketEvent :=
  omap on_event (emitted s).

(** ** Requests that start a download *)

(** A body that POST /api/downloads accepts, for a source that
    [executeDownload] supports. *)
Definition supported_body (b : CreateBody) : bool :=
  truthy_str (str_or (body_imageName b) "")
  && truthy_str (str_or (body_tag b) "")
  && (bool_decide (str_or (body_source b) "" = "dockerhub")
      || bool_decide (str_or (body_source b) "" = "aliyun")).

(** The task that [startDownload] builds for a body at clock [now]. *)
Definition new_task (now : Z) (b : CreateBody) : DownloadTask :=
  mkTask (pretty now) (str_or (body_imageName b) "") (str_or (body_tag b) "")
         (str_or (body_source b) "") Pending 0 0 0 0
         (str_or (body_targetPath b) (taskDir (pretty now)))
         now now None None None None.

(** ** The image service *)

(** imageService's own [normalizeDockerRepo]: the empty name stays
    empty. *)
Definition normalizeRepoName (name : string) : string :=
  if negb (truthy_str name) then ""
  else if includes_char "/" name then name else "library/" +:+ name.

(** [getDockerHubImageSize]: the sum of the layer sizes of the manifest
    selected as in [getDockerManifestInfo], and 0 whenever a request fails
    or no token is given. *)
Definition getDockerHubImageSize (net : Registry) (repoName tag : string) : Z :=
  let repoPath := normalizeRepoName repoName in
  let attempt : Result Z :=
    tokenResp ← token_endpoint net ("repository:" +:+ repoPath +:+ ":pull");
    let token := str_or tokenResp "" in
    if negb (truthy_str token) then mret 0
    else
      let auth := Some (Bearer token) in
      let size_of (reference : string) : Result Z :=
        manifestResp ← manifest_endpoint net docker_host repoPath reference
                                         auth accept_v2;
        mret (layers_total (default [] (layers manifestResp))) in
      listResp ← manifest_endpoint net docker_host repoPath tag auth accept_list;
      match manifests listResp with
      | Some (m :: ms) =>
          match select_digest (m :: ms) with
          | Some digest =>
              if truthy_str digest then size_of digest else size_of tag
          | None => size_of tag
          end
      | _ => size_of tag
      end in
  match attempt with
  | Ok n => n
  | Err _ => 0
  end.

(** ** The routes of /api/images

    Express tries the routes of a router in the order of their
    registration and runs the handler of the first whose path matches;
    none of the handlers here passes the request on.  A literal path
    matches without regard to case, a parameter matches any one
    segment. *)
Inductive PathPattern :=
| Literal (segment : string)
| Param (name : string).

Inductive ImagesHandler := SearchHandler | PopularHandler | DetailsHandler | SizeHandler.

Definition lower_char (c : ascii) : ascii :=
  let n := nat_of_ascii c in
  if (65 <=? n)%nat && (n <=? 90)%nat then ascii_of_nat (n + 32) else c.

Fixpoint lower (s : string) : string :=
  match s with
  | EmptyString => EmptyString
  | String c r => String (lower_char c) (lower r)
  end.

Definition path_matches (p : PathPattern) (segment : string) : bool :=
  match p with
  | Literal l => bool_decide (lower segment = lower l)
  | Param _ => truthy_str segment && negb (includes_char "/" segment)
  end.

(** The GET routes of the images router, in the order of the file. *)
Definition images_routes : list (PathPattern * ImagesHandler) :=
  [ (Literal "search", SearchHandler);
    (Literal "popular", PopularHandler);
    (Param "name", DetailsHandler);
    (Literal "size", SizeHandler) ].

Definition dispatch {H} (routes : list (PathPattern * H)) (segment : string)
    : option H :=
  snd <$> List.find (λ r, path_matches r.1 segment) routes.

(** ** The broadcasts of socketService

    A connected socket is in the rooms it joined.  [io.to(room).emit]
    delivers to the sockets in the room, [io.emit] to every socket. *)
Record Socket := { socket_id : nat; rooms : gset string }.

Definition message_task (m : WebSocketEvent) : string :=
  match m with
  | download_progress taskId _ _ _ _ _ => taskId
  | download_complete taskId _ _ => taskId
  | download_error taskId _ => taskId
  end.

(** The deliveries of one emit: [(socket, message)]. *)
Definition emit_to (targets : list Socket) (m : WebSocketEvent)
    : list (nat * WebSocketEvent) :=
  (λ k, (socket_id k, m)) <$> targets.

(** [broadcastDownloadProgress], [broadcastDownloadComplete] and
    [broadcastDownloadError]: the three have the same body. *)
Definition broadcast (io : list Socket) (m : WebSocketEvent)
    : list (nat * WebSocketEvent) :=
  let roomId := "download:" +:+ message_task m in
  emit_to (filter (λ k, roomId ∈ rooms k) io) m ++ emit_to io m.

(** What a socket has received of a list of deliveries. *)
Definition received (k : nat) (ds : list (nat * WebSocketEvent))
    : list WebSocketEvent :=
  snd <$> filter (λ d, d.1 = k) ds.

(** ** A whole download *)

(** What identifies a task, and the total that the resolution found. *)
Definition same_image (t t' : DownloadTask) : Prop :=
  id t' = id t ∧ imageName t' = imageName t ∧ tag t' = tag t
  ∧ source t' = source t ∧ targetPath t' = targetPath t
  ∧ totalBytes t' = totalBytes t.

(** The call [pid] of a Docker Hub task stands at the head of the layer
    loop with the layers [ls] to go; the aborted controllers are old
    ones. *)
Definition at_layers (pid : nat) (taskId : string) (r : nat)
    (info : ManifestInfo) (ls : list Layer) (s : Service) : Prop :=
  crashed s = false
  ∧ procs s !! pid
    = Some {| p_taskId := taskId; p_task := r; p_pc := after_layer_pc info ls |}
  ∧ activeTasks s !! taskId = Some r
  ∧ (∀ c, c ∈ aborted s → (c < fresh s)%nat).

(** The stream of one layer as the call sees it: the clocks of the token
    and of the blob response, the chunks with their clocks, the clock of
    the end. *)
Record LayerStream := {
  at_token : Z;
  at_response : Z;
  stream_chunks : list (Z * string);
  at_end : Z
}.

Definition stream_bytes (x : LayerStream) : Z :=
  Z.of_nat (String.length (concat_chunks ((stream_chunks x).*2))).

(** The completions of one layer whose requests succeed. *)
Definition layer_trace (pid : nat) (net : Registry) (x : LayerStream)
    : list (Z * Input) :=
  [ (at_token x, Wake pid (TokenDone net));
    (at_response x, Wake pid (BlobResponse (Ok ()))) ]
  ++ ((λ c, (c.1, Wake pid (Chunk c.2))) <$> stream_chunks x)
  ++ [ (at_end x, Wake pid StreamEnd) ].

(** The completions of a download, from the creation of the blobs
    directory to the two writes, when nothing fails. *)
Definition download_trace (pid : nat) (net : Registry) (at_mkdir : Z)
    (streams : list LayerStream) (at_write : Z) : list (Z * Input) :=
  (at_mkdir, Wake pid (MkdirDone (Ok ())))
  :: (streams ≫= layer_trace pid net)
  ++ [ (at_write, Wake pid (WriteDone (Ok ()) (Ok ()))) ].

(** ** Further scenarios *)

Module Cases.

Definition infoA : ManifestInfo :=
  {| info_manifest := Scenario.manifestA; info_config := Scenario.configA;
     info_layers := [Scenario.layerA] |}.

(** The task "1000" of the scenarios, before its first chunk. *)
Definition task (st : DownloadStatus) (total updated : Z) : DownloadTask :=
  mkTask "1000" "nginx" "latest" "dockerhub" st 0 0 total 0
         "downloads/tasks/1000" 1000 updated None None None None.

Definition nginx : Z * Input :=
  (1000, Http (Create (Ok ()) (Scenario.body "dockerhub"))).

(** The manifest is resolved. *)
Definition after_resolution : Service :=
  (run (firstn 2 Scenario.happy) (new_service Scenario.env0)).1.

(** The blob request of the layer was answered. *)
Definition in_stream : Service :=
  (run (firstn 5 Scenario.happy) (new_service Scenario.env0)).1.

(** The stream of the layer has ended. *)
Definition before_writes : Service :=
  (run (firstn 8 Scenario.happy) (new_service Scenario.env0)).1.

(** A cancel, and a pause, while the manifest is being resolved. *)
Definition cancelled_early : Service :=
  (run [nginx; (1001, Http (Cancel "1000"))] (new_service Scenario.env0)).1.

Definition paused_early : Service :=
  (run [nginx; (1001, Http (Pause "1000"))] (new_service Scenario.env0)).1.

(** A cancel while the token of the layer is awaited; the token then
    arrives and the blob is requested. *)
Definition cancelled_before_blob : Service :=
  (run [ nginx;
         (1001, Wake 0 (Resolved Scenario.registryA));
         (1002, Wake 0 (MkdirDone (Ok ())));
         (1003, Http (Cancel "1000"));
         (1004, Wake 0 (TokenDone Scenario.registryA)) ]
       (new_service Scenario.env0)).1.

(** A pause while the blob of the layer is requested. *)
Definition paused_before_response : Service :=
  (run (firstn 4 Scenario.happy ++ [(1005, Http (Pause "1000"))])
       (new_service Scenario.env0)).1.

(** Two clients, the first in the room of task "1000". *)
Definition clients : list Socket :=
  [ {| socket_id := 1; rooms := {["download:1000"]} |};
    {| socket_id := 2; rooms := ∅ |} ].

End Cases.

(** ** The image search

    The search of the image service, over what the registries' search
    endpoints answer.  [toLowerCase], [localeCompare], [Array.prototype.sort]
    and [formatBytes] (floating-point) are left to the platform; the clock
    is read once. *)

Record ImageInfo := {
  img_name : string;
  img_tag : string;
  img_size : string;
  img_sizeBytes : Z;
  img_source : string;
  img_updatedAt : string;
  img_description : string;
  img_architecture : string;
  img_digest : string
}.

(** An item of a search answer; a missing field is [None]. *)
Record RawItem := {
  raw_slug : option string;
  raw_name : option string;
  raw_repo_name : option string;
  raw_updated_at : option string;
  raw_updatedAt : option string;
  raw_last_updated : option string;
  raw_last_modified : option string;
  raw_short_description : option string;
  raw_description : option string
}.

(** The search endpoints: Docker Hub's content search by [q], [page] and
    [page_size], answering [summaries] and [results]; its v2 search
    answering [results]; Quay's search answering [repositories].  A field
    that is not an array is [None]. *)
Record Hub := {
  content_search : string → Z → Z
                   → Result (option (list RawItem) * option (list RawItem));
  v2_search : string → Z → Z → Result (option (list RawItem));
  quay_search : string → Result (option (list RawItem))
}.

(** [s.startsWith(p)] and [s.includes(needle)]. *)
Fixpoint starts_with (p s : string) : bool :=
  match p, s with
  | EmptyString, _ => true
  | String a p', String b s' => Ascii.eqb a b && starts_with p' s'
  | String _ _, EmptyString => false
  end.

Fixpoint includes (needle s : string) : bool :=
  starts_with needle s
  || match s with
     | EmptyString => false
     | String _ s' => includes needle s'
     end.

(** [l.slice(start, end)]. *)
Definition js_slice {A} (start final : Z) (l : list A) : list A :=
  let len := Z.of_nat (length l) in
  let relative i := if i <? 0 then Z.max (len + i) 0 else Z.min i len in
  let k := relative start in
  take (Z.to_nat (relative final - k)) (drop (Z.to_nat k) l).

(** [IMAGE_SOURCES[source]?.priority || 999]. *)
Definition source_priority (source : string) : Z :=
  if bool_decide (source = "dockerhub") then 1
  else if bool_decide (source = "quay") then 2
  else if bool_decide (source = "ghcr") then 3
  else 999.

(** An element of the result of a search: an image, or what the lookup
    [fallbackMap[lc]] found in [Object.prototype], of which only the
    [name], if it has one, is read. *)
Inductive Entry :=
| Image (i : ImageInfo)
| Inherited (name : option string).

Definition entry_name (e : Entry) : option string :=
  match e with
  | Image i => Some (img_name i)
  | Inherited name => name
  end.

Definition entry_tag (e : Entry) : option string :=
  match e with
  | Image i => Some (img_tag i)
  | Inherited _ => None
  end.

(** The functions that every object inherits, apart from [constructor];
    the [name] of each is its key. *)
Definition inherited_functions : list string :=
  [ "__defineGetter__"; "__defineSetter__"; "hasOwnProperty";
    "__lookupGetter__"; "__lookupSetter__"; "isPrototypeOf";
    "propertyIsEnumerable"; "toString"; "valueOf"; "toLocaleString" ].

Record SearchData := {
  images : list Entry;
  total : nat;
  page : Z;
  pageSize : Z
}.

Section ImageSearch.

Variable toLowerCase : string → string.
Variable localeCompare : string → string → Z.
Variable array_sort : (ImageInfo → ImageInfo → Z) → list ImageInfo → list ImageInfo.
Variable formatBytes : Z → string.
Variable now : string.
Variable hub : Hub.
Variable net : Registry.

(** [r.name && r.name.toLowerCase().includes(query.toLowerCase())]. *)
Definition name_matches (query : string) (r : ImageInfo) : bool :=
  truthy_str (img_name r)
  && includes (toLowerCase query) (toLowerCase (img_name r)).

Definition content_item (item : RawItem) : ImageInfo :=
  {| img_name := str_or (raw_slug item) (str_or (raw_name item) "");
     img_tag := "";
     img_size := "Unknown";
     img_sizeBytes := 0;
     img_source := "dockerhub";
     img_updatedAt := str_or (raw_updated_at item) (str_or (raw_updatedAt item) now);
     img_description :=
       str_or (raw_short_description item) (str_or (raw_description item) "");
     img_architecture := "amd64";
     img_digest := str_or (raw_slug item) (str_or (raw_name item) "") |}.

Definition v2_item (repo : RawItem) : ImageInfo :=
  {| img_name :=
       str_or (raw_repo_name repo) (str_or (raw_name repo) (str_or (raw_slug repo) ""));
     img_tag := "";
     img_size := "Unknown";
     img_sizeBytes := 0;
     img_source := "dockerhub";
     img_updatedAt := str_or (raw_last_updated repo) now;
     img_description :=
       str_or (raw_short_description repo) (str_or (raw_description repo) "");
     img_architecture := "amd64";
     img_digest := str_or (raw_repo_name repo) (str_or (raw_name repo) "") |}.

Definition quay_item (repo : RawItem) : ImageInfo :=
  {| img_name := str_or (raw_name repo) "";
     img_tag := "";
     img_size := "Unknown";
     img_sizeBytes := 0;
     img_source := "quay";
     img_updatedAt := str_or (raw_last_modified repo) now;
     img_description := str_or (raw_description repo) "";
     img_architecture := "amd64";
     img_digest := str_or (raw_name repo) "" |}.

(** The size of an image, filled in when the registry gives one. *)
Definition with_size (img : ImageInfo) : ImageInfo :=
  let bytes := getDockerHubImageSize net (img_name img) "latest" in
  if 0 <? bytes then
    {| img_name := img_name img; img_tag := img_tag img;
       img_size := formatBytes bytes; img_sizeBytes := bytes;
       img_source := img_source img; img_updatedAt := img_updatedAt img;
       img_description := img_description img;
       img_architecture := img_architecture img; img_digest := img_digest img |}
  else img.

(** [searchDockerHub]: the content search, the v2 search when it gives
    nothing, then the sizes of the first [pageSize] results; no result
    when a search request fails. *)
Definition searchDockerHub (query : string) (page pageSize : Z) : list ImageInfo :=
  let attempt : Result (list ImageInfo) :=
    contentRes ← content_search hub query page pageSize;
    let contentItems :=
      match contentRes.1, contentRes.2 with
      | Some summaries, _ => summaries
      | None, Some results => results
      | None, None => []
      end in
    let mapped := List.filter (name_matches query) (content_item <$> contentItems) in
    mapped ←
      (if bool_decide (mapped = []) then
         response ← v2_search hub query page pageSize;
         mret (List.filter (name_matches query) (v2_item <$> default [] response))
       else mret mapped);
    let limit := Z.to_nat (Z.min pageSize (Z.of_nat (length mapped))) in
    mret ((with_size <$> take limit mapped) ++ drop limit mapped) in
  match attempt with
  | Ok mapped => mapped
  | Err _ => []
  end.

(** [searchQuay]. *)
Definition searchQuay (query : string) : list ImageInfo :=
  match quay_search hub query with
  | Ok repos => List.filter (name_matches query) (quay_item <$> default [] repos)
  | Err _ => []
  end.

(** The filter that keeps the first result of every [source:name]. *)
Fixpoint first_of_each (seen : gset string) (l : list ImageInfo) : list ImageInfo :=
  match l with
  | [] => []
  | item :: l =>
      let key := img_source item +:+ ":" +:+ img_name item in
      if bool_decide (key ∈ seen) then first_of_each seen l
      else item :: first_of_each ({[key]} ∪ seen) l
  end.

(** The comparator of the sort: exact matches, then official images, then
    the priority of the source, then the name. *)
Definition by_relevance (lcQuery : string) (a b : ImageInfo) : Z :=
  let exact x := if bool_decide (toLowerCase (img_name x) = lcQuery) then 1 else 0 in
  let official x := if starts_with "library/" (img_name x) then 1 else 0 in
  if negb (exact a =? exact b) then exact b - exact a
  else if negb (official a =? official b) then official b - official a
  else if negb (source_priority (img_source a) =? source_priority (img_source b))
  then source_priority (img_source a) - source_priority (img_source b)
  else localeCompare (img_name a) (img_name b).

Definition official_image (name description digest : string) : ImageInfo :=
  {| img_name := name; img_tag := ""; img_size := "Unknown"; img_sizeBytes := 0;
     img_source := "dockerhub"; img_updatedAt := now;
     img_description := description; img_architecture := "amd64";
     img_digest := digest |}.

(** [fallbackMap[lc]]: the two entries of the literal, and what an
    object inherits. *)
Definition fallbackMap (lc : string) : option Entry :=
  if bool_decide (lc = "nginx")
  then Some (Image (official_image "library/nginx" "Official nginx image" "nginx"))
  else if bool_decide (lc = "redis")
  then Some (Image (official_image "library/redis" "Official Redis image" "redis"))
  else if bool_decide (lc = "constructor") then Some (Inherited (Some "Object"))
  else if bool_decide (lc = "__proto__") then Some (Inherited None)
  else if bool_decide (lc ∈ inherited_functions) then Some (Inherited (Some lc))
  else None.

(** The results of the sources after the name filter, the removal of
    duplicates, the sort and the filters of the request. *)
Definition filtered_results (query : string) (source architecture tag : option string)
    (page pageSize : Z) : list ImageInfo :=
  let sources :=
    if truthy_str (str_or source "") then [str_or source ""]
    else ["dockerhub"; "quay"; "ghcr"] in
  let allResults :=
    sources ≫= λ src,
      if bool_decide (src = "dockerhub") then searchDockerHub query page pageSize
      else if bool_decide (src = "quay") then searchQuay query
      else [] in
  let lcQuery := toLowerCase query in
  let allResults :=
    List.filter (λ img, includes lcQuery (toLowerCase (img_name img))) allResults in
  let allResults := first_of_each ∅ allResults in
  let allResults := array_sort (by_relevance lcQuery) allResults in
  let filteredResults :=
    if truthy_str (str_or architecture "")
    then List.filter (λ img, negb (truthy_str (img_architecture img))
                             || bool_decide (img_architecture img = str_or architecture ""))
                     allResults
    else allResults in
  if truthy_str (str_or tag "") && negb (bool_decide (str_or tag "" = "latest"))
  then List.filter (λ img, bool_decide (img_tag img = str_or tag "")) filteredResults
  else filteredResults.

(** [searchImages]. *)
Definition searchImages (query : string) (source architecture tag : option string)
    (page pageSize : Z) : SearchData :=
  let filteredResults :=
    Image <$> filtered_results query source architecture tag page pageSize in
  let filteredResults :=
    if (length filteredResults <? 3)%nat then
      match fallbackMap (toLowerCase query) with
      | Some entry =>
          if existsb (λ r, bool_decide (entry_name r = entry_name entry)) filteredResults
          then filteredResults
          else entry :: filteredResults
      | None => filteredResults
      end
    else filteredResults in
  let startIndex := (page - 1) * pageSize in
  let endIndex := startIndex + pageSize in
  {| images := js_slice startIndex endIndex filteredResults;
     total := length filteredResults;
     page := page;
     pageSize := pageSize |}.

(** [getImageDetails]. *)
Definition getImageDetails (name tag source : string) : option Entry :=
  List.find (λ img, bool_decide (entry_name img = Some name)
                    && bool_decide (entry_tag img = Some tag))
            (images (searchImages name (Some source) None (Some tag) 1 1)).

(** GET /api/images/:name: the status of the reply. *)
Definition route_details (name : string) (tag source : option string) : Z :=
  match getImageDetails name (default "latest" tag) (default "dockerhub" source) with
  | Some _ => 200
  | None => 404
  end.

End ImageSearch.

(** What the sources give every image they find: the empty tag and the
    architecture amd64. *)
Definition plain (img : ImageInfo) : Prop :=
  img_tag img = "" ∧ img_architecture img = "amd64".

(** The search endpoints of Docker Hub answer a request with at most
    [page_size] items. *)
Definition honours_page_size (hub : Hub) : Prop :=
  (∀ q p n r, 0 ≤ n → content_search hub q p n = Ok r →
     Z.of_nat (length (default [] r.1)) ≤ n ∧ Z.of_nat (length (default [] r.2)) ≤ n)
  ∧ (∀ q p n r, 0 ≤ n → v2_search hub q p n = Ok r →
       Z.of_nat (length (default [] r)) ≤ n).

(** A stable sort by a comparator, as an instance of
    [Array.prototype.sort]. *)
Fixpoint insert_sorted {A} (cmp : A → A → Z) (x : A) (l : list A) : list A :=
  match l with
  | [] => [x]
  | y :: l' => if cmp x y <? 0 then x :: l else y :: insert_sorted cmp x l'
  end.

Definition insertion_sort {A} (cmp : A → A → Z) (l : list A) : list A :=
  foldr (insert_sorted cmp) [] l.

(** Strings compared byte by byte, as an instance of [localeCompare]. *)
Fixpoint compare_bytes (a b : string) : Z :=
  match a, b with
  | EmptyString, EmptyString => 0
  | EmptyString, String _ _ => -1
  | String _ _, EmptyString => 1
  | String x a', String y b' =>
      if Ascii.eqb x y then compare_bytes a' b'
      else Z.of_nat (nat_of_ascii x) - Z.of_nat (nat_of_ascii y)
  end.

Module Searches.

Definition item (name : string) : RawItem :=
  {| raw_slug := None; raw_name := Some name; raw_repo_name := None;
     raw_updated_at := None; raw_updatedAt := None; raw_last_updated := None;
     raw_last_modified := None; raw_short_description := None;
     raw_description := None |}.

(** Docker Hub's content search knows two images and answers with the
    first [page_size] of them; the other searches find nothing. *)
Definition hubA : Hub :=
  {| content_search := λ _ _ n,
       Ok (Some (take (Z.to_nat n) [item "nginx"; item "bitnami/nginx"]), None);
     v2_search := λ _ _ _, Ok None;
     quay_search := λ _, Ok None |}.

(** A hub whose content search finds the image named as the query. *)
Definition hubQ : Hub :=
  {| content_search := λ q _ n, Ok (Some (take (Z.to_nat n) [item q]), None);
     v2_search := λ _ _ _, Ok None;
     quay_search := λ _, Ok None |}.

(** A hub whose searches find nothing. *)
Definition hub0 : Hub :=
  {| content_search := λ _ _ _, Ok (None, None);
     v2_search := λ _ _ _, Ok None;
     quay_search := λ _, Ok None |}.

Definition format (n : Z) : string := pretty n +:+ " B".

Definition search (hub : Hub) :=
  searchImages lower compare_bytes insertion_sort format "2024-01-01T00:00:00.000Z"
               hub Scenario.registryA.

Definition details (hub : Hub) :=
  route_details lower compare_bytes insertion_sort format "2024-01-01T00:00:00.000Z"
                hub Scenario.registryA.

End Searches.

(** * Properties *)

(** ** SHA-256 on the standard test vectors *)

Example sha256_constants :
  length Sha256.K = 64%nat ∧ length Sha256.H0 = 8%nat
  ∧ head Sha256.K = Some 0x428a2f98 ∧ last Sha256.K = Some 0xc67178f2
  ∧ head Sha256.H0 = Some 0x6a09e667 ∧ last Sha256.H0 = Some 0x5be0cd19.
Proof. vm_compute. repeat split; reflexivity. Qed.

Example sha256_empty :
  content_digest "" =
  "sha256:e3b0c44298fc1c149afbf4c8996fb92427ae41e4649b934ca495991b7852b855".
Proof. vm_compute. reflexivity. Qed.


(** ** Basic facts about the service's primitives *)

Lemma emit_objects n r s : objects (emit n r s) = objects s.
Proof. unfold emit. by case_match. Qed.

Lemma emit_activeTasks n r s : activeTasks (emit n r s) = activeTasks s.
Proof. unfold emit. by case_match. Qed.

Lemma emit_procs n r s : procs (emit n r s) = procs s.
Proof. unfold emit. by case_match. Qed.

Lemma emit_aborted n r s : aborted (emit n r s) = aborted s.
Proof. unfold emit. by case_match. Qed.

Lemma emit_files n r s : files (emit n r s) = files s.
Proof. unfold emit. by case_match. Qed.

Lemma emit_crashed n r s : crashed (emit n r s) = crashed s.
Proof. unfold emit. by case_match. Qed.

Lemma emit_taskControllers n r s : taskControllers (emit n r s) = taskControllers s.
Proof. unfold emit. by case_match. Qed.

Lemma emit_fresh n r s : fresh (emit n r s) = fresh s.
Proof. unfold emit. by case_match. Qed.

Lemma emit_env n r s : env (emit n r s) = env s.
Proof. unfold emit. by case_match. Qed.

Create Rewrite HintDb frame.
#[local] Hint Rewrite emit_objects emit_activeTasks emit_procs emit_aborted
  emit_files emit_crashed emit_taskControllers emit_fresh emit_env : frame.

(** What [updateTaskStatus] and [updateTaskProgress] leave alone: every
    component but the objects and the emitted events. *)
Ltac frame_of f :=
  unfold f; repeat case_match; simpl; autorewrite with frame; simpl;
  autorewrite with frame; simpl; try done.

Lemma updateTaskStatus_objects now taskId st d s :
  objects (updateTaskStatus now taskId st d s)
  = match activeTasks s !! taskId with
    | Some r => alter (status_update now st d) r (objects s)
    | None => objects s
    end.
Proof. frame_of updateTaskStatus. Qed.

Lemma updateTaskStatus_activeTasks now taskId st d s :
  activeTasks (updateTaskStatus now taskId st d s) = activeTasks s.
Proof. frame_of updateTaskStatus; by rewrite insert_id. Qed.

Lemma updateTaskStatus_procs now taskId st d s :
  procs (updateTaskStatus now taskId st d s) = procs s.
Proof. frame_of updateTaskStatus. Qed.

Lemma updateTaskStatus_aborted now taskId st d s :
  aborted (updateTaskStatus now taskId st d s) = aborted s.
Proof. frame_of updateTaskStatus. Qed.

Lemma updateTaskStatus_files now taskId st d s :
  files (updateTaskStatus now taskId st d s) = files s.
Proof. frame_of updateTaskStatus. Qed.

Lemma updateTaskStatus_crashed now taskId st d s :
  crashed (updateTaskStatus now taskId st d s) = crashed s.
Proof. frame_of updateTaskStatus. Qed.

Lemma updateTaskStatus_fresh now taskId st d s :
  fresh (updateTaskStatus now taskId st d s) = fresh s.
Proof. frame_of updateTaskStatus. Qed.

Lemma updateTaskProgress_objects now taskId p size spd s :
  objects (updateTaskProgress now taskId p size spd s)
  = match activeTasks s !! taskId with
    | Some r => alter (progress_update now p size spd) r (objects s)
    | None => objects s
    end.
Proof. frame_of updateTaskProgress. Qed.

Lemma updateTaskProgress_activeTasks now taskId p size spd s :
  activeTasks (updateTaskProgress now taskId p size spd s) = activeTasks s.
Proof. frame_of updateTaskProgress; by rewrite insert_id. Qed.

Lemma updateTaskProgress_procs now taskId p size spd s :
  procs (updateTaskProgress now taskId p size spd s) = procs s.
Proof. frame_of updateTaskProgress. Qed.

Lemma updateTaskProgress_aborted now taskId p size spd s :
  aborted (updateTaskProgress now taskId p size spd s) = aborted s.
Proof. frame_of updateTaskProgress. Qed.

Lemma updateTaskProgress_files now taskId p size spd s :
  files (updateTaskProgress now taskId p size spd s) = files s.
Proof. frame_of updateTaskProgress. Qed.

Lemma updateTaskProgress_crashed now taskId p size spd s :
  crashed (updateTaskProgress now taskId p size spd s) = crashed s.
Proof. frame_of updateTaskProgress. Qed.

#[local] Hint Rewrite updateTaskStatus_activeTasks updateTaskStatus_procs
  updateTaskStatus_aborted updateTaskStatus_files updateTaskStatus_crashed
  updateTaskStatus_fresh
  updateTaskProgress_activeTasks updateTaskProgress_procs
  updateTaskProgress_aborted updateTaskProgress_files
  updateTaskProgress_crashed : frame.

(** The task of an id after [updateTaskStatus]. *)
Lemma getTask_updateTaskStatus now taskId st d s :
  getTask taskId (updateTaskStatus now taskId st d s)
  = status_update now st d <$> getTask taskId s.
Proof.
  unfold getTask. rewrite updateTaskStatus_activeTasks, updateTaskStatus_objects.
  destruct (activeTasks s !! taskId) as [r|]; simpl; [|done].
  by rewrite lookup_alter_eq.
Qed.


Lemma run_app tr1 tr2 s :
  (run (tr1 ++ tr2) s).1 = (run tr2 (run tr1 s).1).1.
Proof.
  revert s. induction tr1 as [|[now i] tr1 IH]; intros s; simpl; [done|].
  destruct (step now i s) as [s1 resp]. specialize (IH s1).
  destruct (run (tr1 ++ tr2) s1), (run tr1 s1). done.
Qed.

(** ** Starting a download and catching its failure *)

(** What the [catch] block leaves in the object [r] the call holds. *)
Lemma on_catch_object now taskId r e s t :
  objects s !! r = Some t →
  ∃ t', objects (updateTaskStatus now taskId Error (Some (error_message e)) s) !! r = Some t'
        ∧ retryCount t' = retryCount t
        ∧ (activeTasks s !! taskId = Some r →
           t' = status_update now Error (Some (error_message e)) t).
Proof.
  intros Ht. rewrite updateTaskStatus_objects.
  destruct (activeTasks s !! taskId) as [r0|] eqn:Hr0.
  - rewrite lookup_alter. case_decide as Hrr.
    + subst r0. rewrite Ht. eexists; split; [reflexivity|]. split; [reflexivity|]. by intros _.
    + eexists; split; [exact Ht|]. split; [reflexivity|]. intros [= ?]; done.
  - eexists; split; [exact Ht|]. split; [reflexivity|]. done.
Qed.

(** The task of the call after the [catch] block, when the id still names
    the object the call holds. *)
Lemma on_catch_getTask now taskId r e s t :
  activeTasks s !! taskId = Some r →
  objects s !! r = Some t →
  let t' := status_update now Error (Some (error_message e)) t in
  let count := num_or0 (retryCount t) in
  activeTasks (on_catch now taskId r e s).1 !! taskId = Some r
  ∧ objects (on_catch now taskId r e s).1 !! r
    = Some (if count <? retryAttempts then set_retryCount (Some (count + 1)) t' else t')
  ∧ (on_catch now taskId r e s).2
    = (if count <? retryAttempts then AwaitDelay else Finished).
Proof.
  intros Hact Ht t' count. unfold on_catch.
  destruct (on_catch_object now taskId r e s t Ht) as (t'' & Ht'' & Hcount & Hst).
  rewrite (Hst Hact) in Ht''. rewrite Ht''. cbv beta iota.
  change (retryCount (status_update now Error (Some (error_message e)) t))
    with (retryCount t).
  fold count. destruct (count <? retryAttempts); simpl.
  - rewrite updateTaskStatus_activeTasks, lookup_alter_eq, Ht''. done.
  - rewrite updateTaskStatus_activeTasks, Ht''. done.
Qed.

Lemma executeDownload_supported now taskId r t s :
  activeTasks s !! taskId = Some r →
  objects s !! r = Some t →
  is_dockerhub t || is_aliyun t = true →
  executeDownload now taskId s
  = (updateTaskStatus now taskId Downloading None s,
     Some {| p_taskId := taskId; p_task := r; p_pc := AwaitManifest |}).
Proof.
  intros Hact Ht Hsrc. unfold executeDownload.
  rewrite Hact, updateTaskStatus_objects, Hact, lookup_alter_eq, Ht.
  cbn [fmap option_fmap option_map].
  change (is_dockerhub (status_update now Downloading None t)) with (is_dockerhub t).
  change (is_aliyun (status_update now Downloading None t)) with (is_aliyun t).
  by rewrite Hsrc.
Qed.

Lemma executeDownload_unsupported now taskId r t s :
  activeTasks s !! taskId = Some r →
  objects s !! r = Some t →
  is_dockerhub t || is_aliyun t = false →
  executeDownload now taskId s
  = let sp := on_catch now taskId r (unsupported_source t)
                (updateTaskStatus now taskId Downloading None s) in
    (sp.1, Some {| p_taskId := taskId; p_task := r; p_pc := sp.2 |}).
Proof.
  intros Hact Ht Hsrc. unfold executeDownload.
  rewrite Hact, updateTaskStatus_objects, Hact, lookup_alter_eq, Ht.
  cbn [fmap option_fmap option_map].
  change (is_dockerhub (status_update now Downloading None t)) with (is_dockerhub t).
  change (is_aliyun (status_update now Downloading None t)) with (is_aliyun t).
  rewrite Hsrc.
  change (unsupported_source (status_update now Downloading None t))
    with (unsupported_source t).
  by destruct (on_catch _ _ _ _ _).
Qed.

(** ** C1: what a completed blob file holds *)

Lemma append_assoc (a b c : string) : (a +:+ b) +:+ c = a +:+ (b +:+ c).
Proof.
  induction a as [|x a IH]; [done|].
  change (String x ((a +:+ b) +:+ c) = String x (a +:+ (b +:+ c))). by f_equal.
Qed.

Lemma append_empty_r (a : string) : a +:+ "" = a.
Proof.
  induction a as [|x a IH]; [done|].
  change (String x (a +:+ "") = String x a). by f_equal.
Qed.


Section OneLayer.

Variables (pid : nat) (taskId : string) (r : nat) (info : ManifestInfo)
          (layer : Layer) (rest : list Layer) (ctl : nat) (target : string).

Let streaming := streaming_layer pid taskId r info layer rest ctl target.
Let left_behind := after_layer pid taskId r info layer rest target.

(** A chunk is counted and appended to the file. *)
Lemma streaming_chunk now d content chunk s :
  streaming d content s →
  streaming (d + Z.of_nat (String.length chunk)) (content +:+ chunk)
            (step now (Wake pid (Chunk chunk)) s).1.
Proof.
  intros (Hlive & Hp & Hctl & Hact & (t & Ht & Htarget & Hsrc) & Hfile).
  assert (Hlen : (pid < length (procs s))%nat) by (by eapply lookup_lt_Some).
  unfold step. rewrite Hlive, Hp. unfold continue; simpl.
  rewrite bool_decide_eq_false_2 by done. simpl.
  unfold on_data; simpl. rewrite Ht.
  set (s1 := updateTaskProgress _ _ _ _ _ s).
  assert (files s1 = files s) as Hf by (subst s1; by autorewrite with frame).
  repeat split; simpl.
  - subst s1. by autorewrite with frame.
  - rewrite list_lookup_insert_eq; [done|]. subst s1. by autorewrite with frame.
  - subst s1. by autorewrite with frame.
  - subst s1. by autorewrite with frame.
  - subst s1. rewrite updateTaskProgress_objects, Hact, lookup_alter_eq, Ht. simpl.
    eexists; split; [reflexivity|]. done.
  - rewrite lookup_insert_eq, Hf, Hfile. done.
Qed.


(** The clean end of the stream leaves the file as it is and moves the
    call on: nothing is read back from the file. *)
Lemma streaming_end now d content s :
  streaming d content s →
  left_behind content (step now (Wake pid StreamEnd) s).1.
Proof.
  intros (Hlive & Hp & Hctl & Hact & (t & Ht & Htarget & Hsrc) & Hfile).
  assert (Hlen : (pid < length (procs s))%nat) by (by eapply lookup_lt_Some).
  assert (Hobj : alter (λ x, set_downloadedBytes (downloadedBytes x + d) x) r (objects s) !! r
                 = Some (set_downloadedBytes (downloadedBytes t + d) t))
    by (by rewrite lookup_alter_eq, Ht).
  unfold step. rewrite Hlive, Hp. unfold continue; simpl.
  rewrite bool_decide_eq_false_2 by done. rewrite Hact. simpl.
  assert (Hnext : ∀ s0, objects s0 !! r = Some (set_downloadedBytes (downloadedBytes t + d) t) →
            next_layer taskId r info rest s0 = (s0, after_layer_pc info rest)).
  { intros s0 H0. destruct rest as [|l rest']; simpl; [done|].
    rewrite H0. unfold is_dockerhub. simpl. by rewrite Hsrc. }
  rewrite Hnext by done. simpl.
  repeat split; simpl; try done.
  - by rewrite list_lookup_insert_eq.
  - apply lookup_insert_eq.
  - rewrite Hobj. eexists; split; [reflexivity|done].
Qed.



End OneLayer.



(** ** C2: the total size of a task *)

Lemma layers_total_from (ls : list Layer) (acc : Z) :
  foldl (λ sum l, sum + num_or0 (layer_size l)) acc ls
  = acc + foldr (λ l acc, num_or0 (layer_size l) + acc) 0 ls.
Proof.
  revert acc. induction ls as [|l ls IH]; intros acc; simpl; [lia|].
  rewrite IH. lia.
Qed.

Lemma layers_total_sum (ls : list Layer) :
  layers_total ls = foldr (λ l acc, num_or0 (layer_size l) + acc) 0 ls.
Proof. unfold layers_total. rewrite layers_total_from. lia. Qed.

Lemma manifest_info_layers net host repo tg auth info :
  manifest_info net host repo tg auth = Ok info →
  info_layers info = default [] (layers (info_manifest info)).
Proof.
  unfold manifest_info, mbind, Result_bind, mret, Result_ret.
  repeat case_match; intros [= <-]; reflexivity.
Qed.

Lemma resolve_layers net e t info :
  resolve net e t = Ok info →
  info_layers info = default [] (layers (info_manifest info)).
Proof.
  unfold resolve, getDockerManifestInfo, getGenericManifestInfo, mbind, Result_bind.
  repeat case_match; try discriminate; apply manifest_info_layers.
Qed.

(** C2, counterexample: the manifest announces a config blob of 5 bytes and
    one layer of 3 bytes; after the resolution the task's total is 3, and
    the document's formula gives 8. *)
Lemma total_bytes_without_config :
  let s := (run (firstn 2 Scenario.happy) (new_service Scenario.env0)).1 in
  totalBytes <$> getTask "1000" s = Some 3
  ∧ total_bytes_spec Scenario.manifestA = 8
  ∧ totalBytes <$> getTask "1000" s ≠ Some (total_bytes_spec Scenario.manifestA).
Proof. vm_compute. split; [reflexivity|]. split; [reflexivity|discriminate]. Qed.

(** C2, amended: when the resolution of a task succeeds and the sizes of
    the layers of the selected manifest are in the range where the
    additions of doubles are exact (the sizes are integers, none is
    negative and they add up to at most 2^53, a layer without size
    counting for 0), the task's [totalBytes] becomes the sum of these
    sizes; the size of the config blob is not part of it. *)
Theorem total_bytes_is_layer_sum (now : Z) (pid : nat) (p : Proc)
    (net : Registry) (info : ManifestInfo) (t : DownloadTask) (s : Service) :
  crashed s = false →
  procs s !! pid = Some p →
  p_pc p = AwaitManifest →
  objects s !! p_task p = Some t →
  resolve net (env s) t = Ok info →
  exact_sizes (default [] (layers (info_manifest info))) →
  let s' := (step now (Wake pid (Resolved net)) s).1 in
  totalBytes <$> getTask (p_taskId p) s'
  = Some (foldr (λ l acc, num_or0 (layer_size l) + acc) 0
                (default [] (layers (info_manifest info)))).
Proof.
  intros Hlive Hp Hpc Ht Hres _. destruct p as [taskId r pc]; simpl in *; subst pc.
  unfold step. rewrite Hlive, Hp. unfold continue; simpl. rewrite Ht, Hres.
  simpl. unfold getTask; simpl.
  rewrite lookup_insert_eq; simpl. rewrite lookup_alter_eq, Ht; simpl.
  by rewrite layers_total_sum, (resolve_layers _ _ _ _ Hres).
Qed.

Lemma total_bytes_is_layer_sum_witness :
  totalBytes <$> getTask "1000"
    (step 1001 (Wake 0 (Resolved Scenario.registryA))
       (run (firstn 1 Scenario.happy) (new_service Scenario.env0)).1).1
  = Some 3.
Proof.
  apply (total_bytes_is_layer_sum 1001 0
           {| p_taskId := "1000"; p_task := 0; p_pc := AwaitManifest |}
           Scenario.registryA
           {| info_manifest := Scenario.manifestA; info_config := Scenario.configA;
              info_layers := [Scenario.layerA] |}
           (mkTask "1000" "nginx" "latest" "dockerhub" Downloading 0 0 0 0
                   "downloads/tasks/1000" 1000 1000 None None None None)
           (run (firstn 1 Scenario.happy) (new_service Scenario.env0)).1
           eq_refl eq_refl eq_refl eq_refl eq_refl).
  split; [repeat constructor; simpl; lia | simpl; lia].
Defined.

(** ** C3: progress events after a pause *)

(** C3, at the failing input: the task is paused while its layer streams
    and the pause is answered 200; the aborted stream fails, the failure
    is retried after the delay, and the second attempt emits a progress
    event although no resume was requested. *)
Lemma progress_after_pause :
  let r := run Scenario.pause_then_retry (new_service Scenario.env0) in
  (code <$> r.2) = [200; 200]
  ∧ (status <$> (r.2 !! 1%nat ≫= data)) = Some Paused
  ∧ progress_events r.1 = [("1000", 200 # 3); ("1000", 200 # 3)]%Q
  ∧ pause_honoured ∅ Scenario.pause_then_retry (new_service Scenario.env0) = false.
Proof. vm_compute. repeat split; reflexivity. Qed.

(** The same happens without any abort when the pause arrives while the
    manifest is being resolved: no controller exists yet, and the call of
    [executeDownload] goes on. *)
Lemma progress_after_pause_while_resolving :
  let r := run Scenario.pause_while_resolving (new_service Scenario.env0) in
  (code <$> r.2) = [200; 200]
  ∧ progress_events r.1 = [("1000", 200 # 3)]%Q
  ∧ pause_honoured ∅ Scenario.pause_while_resolving (new_service Scenario.env0) = false.
Proof. vm_compute. repeat split; reflexivity. Qed.

(** A run without pause is silent in the sense of [pause_honoured]. *)
Lemma happy_run_honours_pause :
  pause_honoured ∅ Scenario.happy (new_service Scenario.env0) = true.
Proof. vm_compute. reflexivity. Qed.

(** ** C4: retry *)




(** ** C5: delete *)

(** C5, at the failing input: task "1000" is completed and task "2000" has
    failed.  Deleting "2000" is answered 200, "2000" is still in the store
    and "1000" is gone. *)
Lemma delete_removes_another_task :
  let s0 := (run Scenario.one_done_one_failed (new_service Scenario.env0)).1 in
  let r := route_delete "2000" s0 in
  status <$> getTask "1000" s0 = Some Completed
  ∧ status <$> getTask "2000" s0 = Some Error
  ∧ code r.2 = 200
  ∧ getTask "2000" r.1 = getTask "2000" s0
  ∧ getTask "1000" r.1 = None.
Proof. vm_compute. repeat split; reflexivity. Qed.

(** What the route does in general: a task that is downloading is kept
    and the request is answered 400; otherwise the store is swept of its
    completed and cancelled tasks, whichever task was named. *)
Lemma delete_downloading_rejected (taskId : string) (t : DownloadTask) (s : Service) :
  getTask taskId s = Some t → status t = Downloading →
  route_delete taskId s = (s, reply 400 None (Some "Cannot delete downloading task")).
Proof.
  intros Hget Hst. unfold route_delete. rewrite Hget.
  by rewrite bool_decide_eq_true_2.
Qed.

Lemma delete_sweeps_store (taskId : string) (t : DownloadTask) (s : Service) :
  getTask taskId s = Some t → status t ≠ Downloading →
  ∀ k r, activeTasks (route_delete taskId s).1 !! k = Some r
         ↔ activeTasks s !! k = Some r ∧ kept s r = true.
Proof.
  intros Hget Hst k r. unfold route_delete. rewrite Hget.
  rewrite bool_decide_eq_false_2 by done. simpl.
  rewrite map_lookup_filter_Some. simpl.
  by rewrite Is_true_true.
Qed.

(** ** C6: unknown sources *)

Lemma truthy_str_nonempty (x : string) : x ≠ "" → truthy_str x = true.
Proof. by destruct x. Qed.

Lemma str_or_nonempty (x d : string) : x ≠ "" → str_or (Some x) d = x.
Proof. by destruct x. Qed.

(** C6, counterexample: a task is requested from the unknown source "quay".
    The request is answered 200 with a task record, the task is in the
    store, and a retry is pending. *)
Lemma unknown_source_creates_task :
  let r := route_create 1000 (Ok ()) (Scenario.body "quay") (new_service Scenario.env0) in
  code r.2 = 200
  ∧ id <$> data r.2 = Some "1000"
  ∧ data r.2 = getTask "1000" r.1
  ∧ retryCount <$> getTask "1000" r.1 = Some (Some 1)
  ∧ procs r.1 = [{| p_taskId := "1000"; p_task := 0; p_pc := AwaitDelay |}].
Proof. vm_compute. repeat split; reflexivity. Qed.

(** C6, amended: a request to create a task from an unknown source, with
    its three fields present and its directory created, is answered 200
    with the record of a task that is in the store; the unknown source is found by the download
    started in the same call, which leaves the task in error with a
    message that names the source. *)
Theorem unknown_source_is_accepted (now : Z) (b : CreateBody)
    (image tg src : string) (s : Service) :
  body_imageName b = Some image → body_tag b = Some tg →
  body_source b = Some src →
  image ≠ "" → tg ≠ "" → src ≠ "" →
  src ≠ "dockerhub" → src ≠ "aliyun" →
  let r := route_create now (Ok ()) b s in
  code r.2 = 200
  ∧ data r.2 = getTask (pretty now) r.1
  ∧ ∃ t, data r.2 = Some t
         ∧ id t = pretty now ∧ imageName t = image ∧ tag t = tg ∧ source t = src
         ∧ status t = Error
         ∧ error t = Some ("暂不支持的镜像源: " +:+ src).
Proof.
  intros Hi Ht Hs Hine Htne Hsne Hdock Hali.
  unfold route_create. rewrite Hi, Ht, Hs.
  rewrite !str_or_nonempty by done.
  rewrite (truthy_str_nonempty image), (truthy_str_nonempty tg),
    (truthy_str_nonempty src) by done.
  simpl negb. simpl orb. cbv iota.
  unfold startDownload, spawn.
  set (t0 := mkTask (pretty now) image tg src Pending 0 0 0 0
                    (str_or (body_targetPath b) (taskDir (pretty now)))
                    now now None None None None).
  set (s1 := emit taskCreated (fresh s) _).
  assert (Hact : activeTasks s1 !! pretty now = Some (fresh s)).
  { subst s1. rewrite emit_activeTasks. simpl. apply lookup_insert_eq. }
  assert (Hobj : objects s1 !! fresh s = Some t0).
  { subst s1. rewrite emit_objects. simpl. apply lookup_insert_eq. }
  assert (Hsrc : is_dockerhub t0 || is_aliyun t0 = false).
  { unfold is_dockerhub, is_aliyun. simpl.
    rewrite !bool_decide_eq_false_2 by done. done. }
  rewrite (executeDownload_unsupported now _ _ _ _ Hact Hobj Hsrc). cbv zeta.
  set (s2 := updateTaskStatus now (pretty now) Downloading None s1).
  assert (Hact2 : activeTasks s2 !! pretty now = Some (fresh s)).
  { subst s2. by rewrite updateTaskStatus_activeTasks. }
  assert (Hobj2 : objects s2 !! fresh s = Some (status_update now Downloading None t0)).
  { subst s2. by rewrite updateTaskStatus_objects, Hact, lookup_alter_eq, Hobj. }
  destruct (on_catch_getTask now (pretty now) (fresh s) (unsupported_source t0)
              s2 _ Hact2 Hobj2) as (Hact3 & Hobj3 & _).
  simpl in Hobj3. simpl.
  split; [done|]. split.
  - unfold getTask; simpl. by rewrite Hact3.
  - rewrite Hobj3. eexists; split; [reflexivity|]. by repeat split.
Qed.

Lemma unknown_source_is_accepted_witness :
  let r := route_create 1000 (Ok ()) (Scenario.body "quay")
             (new_service Scenario.env0) in
  code r.2 = 200
  ∧ data r.2 = getTask (pretty 1000) r.1
  ∧ ∃ t, data r.2 = Some t
         ∧ id t = pretty 1000 ∧ imageName t = "nginx" ∧ tag t = "latest"
         ∧ source t = "quay"
         ∧ status t = Error
         ∧ error t = Some ("暂不支持的镜像源: " +:+ "quay").
Proof.
  apply (unknown_source_is_accepted 1000 (Scenario.body "quay")
           "nginx" "latest" "quay" (new_service Scenario.env0));
    first [reflexivity | discriminate].
Defined.

(** ** C7: failures of the manifest resolution *)

(** C7, counterexample: the manifest request is answered 404.  The task has
    consumed one attempt and waits for the retry delay; when it elapses the
    resolution is attempted again. *)
Lemma not_found_is_retried :
  let s := (run Scenario.not_found_once (new_service Scenario.env0)).1 in
  let s' := (step 6001 (Wake 0 Timer) s).1 in
  error <$> getTask "1000" s = Some (Some "Request failed with status code 404")
  ∧ retryCount <$> getTask "1000" s = Some (Some 1)
  ∧ p_pc <$> procs s !! 0%nat = Some AwaitDelay
  ∧ status <$> getTask "1000" s' = Some Downloading
  ∧ p_pc <$> procs s' !! 0%nat = Some AwaitManifest.
Proof. vm_compute. repeat split; reflexivity. Qed.

(** C7, amended: a failure of the manifest resolution, whatever its kind
    (a 404 included), marks the task in error and, while fewer than three
    attempts were consumed, consumes one more and leaves the call waiting
    for the retry delay; once three were consumed the call ends. *)
Theorem resolution_failure_is_retried (now : Z) (pid : nat) (p : Proc)
    (net : Registry) (e : JsError) (t : DownloadTask) (s : Service) :
  crashed s = false →
  procs s !! pid = Some p →
  p_pc p = AwaitManifest →
  objects s !! p_task p = Some t →
  resolve net (env s) t = Err e →
  let s' := (step now (Wake pid (Resolved net)) s).1 in
  let count := num_or0 (retryCount t) in
  (count < retryAttempts →
     p_pc <$> procs s' !! pid = Some AwaitDelay
     ∧ retryCount <$> objects s' !! p_task p = Some (Some (count + 1)))
  ∧ (retryAttempts ≤ count →
     p_pc <$> procs s' !! pid = Some Finished
     ∧ retryCount <$> objects s' !! p_task p = Some (retryCount t))
  ∧ (activeTasks s !! p_taskId p = Some (p_task p) →
     status <$> getTask (p_taskId p) s' = Some Error
     ∧ error <$> getTask (p_taskId p) s' = Some (Some (error_message e))).
Proof.
  intros Hlive Hp Hpc Ht Hres. destruct p as [taskId r pc]; simpl in *; subst pc.
  assert (Hlen : (pid < length (procs s))%nat) by (by eapply lookup_lt_Some).
  unfold step. rewrite Hlive, Hp. unfold continue; simpl. rewrite Ht, Hres.
  unfold on_catch.
  destruct (on_catch_object now taskId r e s t Ht) as (t' & Ht' & Hcount & Hst).
  rewrite Ht'. cbv beta iota. rewrite Hcount.
  split; [|split].
  - intros Hlt. apply Z.ltb_lt in Hlt. rewrite Hlt. simpl.
    rewrite list_lookup_insert_eq by (by rewrite updateTaskStatus_procs). simpl.
    split; [done|]. by rewrite lookup_alter_eq, Ht'.
  - intros Hge. apply Z.ltb_ge in Hge. rewrite Hge. simpl.
    rewrite list_lookup_insert_eq by (by rewrite updateTaskStatus_procs). simpl.
    split; [done|]. rewrite Ht'. simpl. by rewrite Hcount.
  - intros Hact. rewrite (Hst Hact) in Ht'.
    unfold getTask. destruct (_ <? _); simpl;
      rewrite updateTaskStatus_activeTasks, Hact; simpl.
    + by rewrite lookup_alter_eq, Ht'.
    + by rewrite Ht'.
Qed.

Lemma resolution_failure_is_retried_witness :
  let s := (run (firstn 1 Scenario.happy) (new_service Scenario.env0)).1 in
  let s' := (step 1001 (Wake 0 (Resolved Scenario.registry404)) s).1 in
  p_pc <$> procs s' !! 0%nat = Some AwaitDelay
  ∧ retryCount <$> objects s' !! 0%nat = Some (Some 1).
Proof.
  exact (proj1 (resolution_failure_is_retried 1001 0
           {| p_taskId := "1000"; p_task := 0; p_pc := AwaitManifest |}
           Scenario.registry404 (AxiosHttp 404)
           (mkTask "1000" "nginx" "latest" "dockerhub" Downloading 0 0 0 0
                   "downloads/tasks/1000" 1000 1000 None None None None)
           (run (firstn 1 Scenario.happy) (new_service Scenario.env0)).1
           eq_refl eq_refl eq_refl eq_refl eq_refl) eq_refl).
Defined.

(** When the retry delay elapses the download of a task of a supported
    source is attempted again from its start. *)
Lemma timer_restarts_download now pid p r t s :
  crashed s = false →
  procs s !! pid = Some p →
  p_pc p = AwaitDelay →
  activeTasks s !! p_taskId p = Some r →
  objects s !! r = Some t →
  is_dockerhub t || is_aliyun t = true →
  let s' := (step now (Wake pid Timer) s).1 in
  procs s' !! pid = Some {| p_taskId := p_taskId p; p_task := r; p_pc := AwaitManifest |}
  ∧ status <$> getTask (p_taskId p) s' = Some Downloading.
Proof.
  intros Hlive Hp Hpc Hact Ht Hsrc. destruct p as [taskId r0 pc]; simpl in *; subst pc.
  assert (Hlen : (pid < length (procs s))%nat) by (by eapply lookup_lt_Some).
  unfold step. rewrite Hlive, Hp. unfold continue; simpl.
  rewrite (executeDownload_supported now taskId r t) by done. simpl.
  split.
  - rewrite list_lookup_insert_eq; [done|]. by rewrite updateTaskStatus_procs.
  - unfold getTask; simpl.
    rewrite updateTaskStatus_activeTasks, updateTaskStatus_objects; simpl.
    rewrite Hact; simpl. by rewrite lookup_alter_eq, Ht.
Qed.

(** ** C8: the guards of pause and resume *)

(** C8, counterexample: pausing a completed task is answered 400. *)
Lemma pause_completed_rejected :
  let s := (run Scenario.happy (new_service Scenario.env0)).1 in
  status <$> getTask "1000" s = Some Completed
  ∧ (route_pause 3000 "1000" s).2
    = reply 400 None (Some "Task is not in downloading status").
Proof. vm_compute. split; reflexivity. Qed.

(** After a call of [pauseDownload] the task has no controller and is not
    downloading. *)
Lemma pauseDownload_settled now taskId s :
  taskControllers (pauseDownload now taskId s) !! taskId = None
  ∧ ∀ t, getTask taskId (pauseDownload now taskId s) = Some t →
         status t ≠ Downloading.
Proof.
  unfold pauseDownload.
  assert (Hctl : taskControllers (abort_controller taskId s) !! taskId = None).
  { unfold abort_controller. destruct (taskControllers s !! taskId) eqn:Hc; simpl;
      [apply lookup_delete_eq | done]. }
  set (s1 := abort_controller taskId s) in *. clearbody s1.
  destruct (activeTasks s1 !! taskId) as [r|] eqn:Hact.
  - destruct (objects s1 !! r) as [task|] eqn:Hobj.
    + case_bool_decide as Hst.
      * rewrite emit_taskControllers. simpl. split; [done|].
        intros t. unfold getTask. rewrite emit_activeTasks, emit_objects. simpl.
        rewrite lookup_insert_eq. simpl. rewrite lookup_alter_eq, Hobj. simpl.
        by intros [= <-].
      * split; [done|]. intros t. unfold getTask. rewrite Hact. simpl.
        rewrite Hobj. by intros [= <-].
    + split; [done|]. intros t. unfold getTask. rewrite Hact. simpl. by rewrite Hobj.
  - split; [done|]. intros t. unfold getTask. by rewrite Hact.
Qed.

Lemma pauseDownload_noop now taskId s :
  taskControllers s !! taskId = None →
  (∀ t, getTask taskId s = Some t → status t ≠ Downloading) →
  pauseDownload now taskId s = s.
Proof.
  intros Hctl Hst. unfold pauseDownload, abort_controller. rewrite Hctl.
  unfold getTask in Hst.
  destruct (activeTasks s !! taskId) as [r|]; simpl in Hst; [|done].
  destruct (objects s !! r) as [task|]; [|done].
  by rewrite bool_decide_eq_false_2 by (by apply Hst).
Qed.

(** A second pause changes nothing. *)
Lemma pauseDownload_idempotent now now' taskId s :
  pauseDownload now' taskId (pauseDownload now taskId s) = pauseDownload now taskId s.
Proof.
  destruct (pauseDownload_settled now taskId s) as [Hctl Hst].
  by apply pauseDownload_noop.
Qed.

(** A second cancel changes nothing: the first one removed the task. *)
Lemma cancelDownload_idempotent now now' taskId s :
  cancelDownload now' taskId (cancelDownload now taskId s) = cancelDownload now taskId s.
Proof.
  assert (Hctl : taskControllers (cancelDownload now taskId s) !! taskId = None
                 ∧ activeTasks (cancelDownload now taskId s) !! taskId = None).
  { unfold cancelDownload.
    assert (Hc : taskControllers (abort_controller taskId s) !! taskId = None).
    { unfold abort_controller. destruct (taskControllers s !! taskId) eqn:Hc; simpl;
        [apply lookup_delete_eq | done]. }
    set (s1 := abort_controller taskId s) in *. clearbody s1.
    destruct (activeTasks s1 !! taskId) as [r|] eqn:Hact; [|done].
    rewrite emit_taskControllers, emit_activeTasks. simpl.
    split; [done | apply lookup_delete_eq]. }
  destruct Hctl as [Hctl Hact].
  set (s1 := cancelDownload now taskId s) in *. clearbody s1.
  unfold cancelDownload, abort_controller. by rewrite Hctl, Hact.
Qed.

(** The download that [spawn] starts leaves the task downloading or in
    error. *)
Lemma spawn_status now taskId s t :
  getTask taskId s = Some t →
  ∃ t', getTask taskId (spawn now taskId s) = Some t'
        ∧ (status t' = Downloading ∨ status t' = Error).
Proof.
  unfold getTask at 1. intros Hget.
  destruct (activeTasks s !! taskId) as [r|] eqn:Hact; simpl in Hget; [|done].
  unfold spawn.
  destruct (is_dockerhub t || is_aliyun t) eqn:Hsrc.
  - rewrite (executeDownload_supported now taskId r t) by done.
    exists (status_update now Downloading None t). split; [|by left].
    unfold getTask; simpl.
    rewrite updateTaskStatus_activeTasks, updateTaskStatus_objects; simpl.
    rewrite Hact; simpl. by rewrite lookup_alter_eq, Hget.
  - rewrite (executeDownload_unsupported now taskId r t) by done. cbv zeta.
    set (s2 := updateTaskStatus now taskId Downloading None s).
    assert (Hact2 : activeTasks s2 !! taskId = Some r).
    { subst s2. by rewrite updateTaskStatus_activeTasks. }
    assert (Hobj2 : objects s2 !! r = Some (status_update now Downloading None t)).
    { subst s2. by rewrite updateTaskStatus_objects, Hact, lookup_alter_eq, Hget. }
    destruct (on_catch_getTask now taskId r (unsupported_source t)
                s2 _ Hact2 Hobj2) as (Hact3 & Hobj3 & _).
    eexists. split.
    { unfold getTask; simpl. rewrite Hact3. simpl. exact Hobj3. }
    right. by destruct (_ <? _).
Qed.

(** A second resume changes nothing: the first one left the task
    downloading or in error. *)
Lemma resumeDownload_idempotent now now' taskId s :
  resumeDownload now' taskId (resumeDownload now taskId s)
  = resumeDownload now taskId s.
Proof.
  unfold resumeDownload at 2 3.
  destruct (getTask taskId s) as [t|] eqn:Hget.
  - case_bool_decide as Hst.
    + destruct (spawn_status now taskId s t Hget) as (t' & Hget' & Hst').
      unfold resumeDownload. rewrite Hget'.
      rewrite bool_decide_eq_false_2; [done|]. intros Hp. rewrite Hp in Hst'.
      by destruct Hst'.
    + unfold resumeDownload. rewrite Hget. by rewrite bool_decide_eq_false_2.
  - unfold resumeDownload. by rewrite Hget.
Qed.

(** C8, amended: called directly on the service, [pauseDownload],
    [resumeDownload] and [cancelDownload] are idempotent and none reports
    an error: a pause of a task that is not downloading (and has no
    controller) and a resume of a task that is not paused do nothing.  The
    routes guard the verbs: over HTTP a pause is rejected with 400 unless
    the task is downloading, so pausing a completed task is an error, and
    a resume is rejected with 400 unless the task is paused; a rejected
    request changes nothing. *)
Theorem pause_resume_guards (now now' : Z) (taskId : string) (t : DownloadTask)
    (s : Service) :
  getTask taskId s = Some t →
  (status t ≠ Downloading →
     route_pause now taskId s
     = (s, reply 400 None (Some "Task is not in downloading status")))
  ∧ (status t ≠ Paused →
     route_resume now taskId s
     = (s, reply 400 None (Some "Task is not in paused status")))
  ∧ (status t ≠ Downloading → taskControllers s !! taskId = None →
     pauseDownload now taskId s = s)
  ∧ (status t ≠ Paused → resumeDownload now taskId s = s)
  ∧ pauseDownload now' taskId (pauseDownload now taskId s) = pauseDownload now taskId s
  ∧ resumeDownload now' taskId (resumeDownload now taskId s) = resumeDownload now taskId s
  ∧ cancelDownload now' taskId (cancelDownload now taskId s) = cancelDownload now taskId s.
Proof.
  intros Hget. split; [|split; [|split; [|split; [|split; [|split]]]]].
  - intros Hst. unfold route_pause. rewrite Hget.
    by rewrite bool_decide_eq_true_2.
  - intros Hst. unfold route_resume. rewrite Hget.
    by rewrite bool_decide_eq_true_2.
  - intros Hst Hctl. apply pauseDownload_noop; [done|].
    intros t'. rewrite Hget. by intros [= <-].
  - intros Hst. unfold resumeDownload. rewrite Hget.
    by rewrite bool_decide_eq_false_2.
  - apply pauseDownload_idempotent.
  - apply resumeDownload_idempotent.
  - apply cancelDownload_idempotent.
Qed.

Lemma pause_resume_guards_witness :
  let s := (run Scenario.happy (new_service Scenario.env0)).1 in
  route_pause 3000 "1000" s
  = (s, reply 400 None (Some "Task is not in downloading status"))
  ∧ route_resume 3000 "1000" s
    = (s, reply 400 None (Some "Task is not in paused status"))
  ∧ pauseDownload 3000 "1000" s = s
  ∧ resumeDownload 3000 "1000" s = s.
Proof.
  pose proof (pause_resume_guards 3000 3001 "1000"
                (mkTask "1000" "nginx" "latest" "dockerhub" Completed (100 # 3)
                        0 3 3 "downloads/tasks/1000" 1000 1008 None None
                        (Some 1) None)
                (run Scenario.happy (new_service Scenario.env0)).1 eq_refl)
    as (Hp & Hr & Hpd & Hrd & _).
  split; [apply Hp; discriminate|].
  split; [apply Hr; discriminate|].
  split; [apply Hpd; [discriminate | reflexivity] | apply Hrd; discriminate].
Defined.

(** ** C9: the platform selected in a manifest list *)

Lemma find_first {A} (f : A → bool) (pre post : list A) (m : A) :
  Forall (λ x, f x = false) pre → f m = true →
  List.find f (pre ++ m :: post) = Some m.
Proof.
  induction 1 as [|x pre Hx _ IH]; intros Hm; simpl.
  - by rewrite Hm.
  - rewrite Hx. by apply IH.
Qed.

Lemma find_none {A} (f : A → bool) (l : list A) :
  Forall (λ x, f x = false) l → List.find f l = None.
Proof.
  induction 1 as [|x l Hx _ IH]; simpl; [done|]. by rewrite Hx.
Qed.

(** C9, counterexample: for linux/amd64 and a list whose first amd64 entry
    is a Windows image, the document's order picks the Linux entry and the
    service picks the Windows one. *)
Lemma windows_entry_selected :
  select_platform_spec linux_amd64 Scenario.windows_first = Some "sha256:lin"
  ∧ select_digest Scenario.windows_first = Some "sha256:win"
  ∧ select_digest Scenario.windows_first
    ≠ select_platform_spec linux_amd64 Scenario.windows_first.
Proof. vm_compute. split; [reflexivity|]. split; [reflexivity|discriminate]. Qed.

(** C9, amended: in a manifest list the service takes the digest of the
    first entry whose architecture is amd64, whatever its operating system
    and whatever platform was asked for; when no entry is for amd64 it
    takes the digest of the first entry. *)
Theorem select_digest_first_amd64 (ms : list ManifestEntry) :
  (∀ pre m post,
     ms = pre ++ m :: post →
     Forall (λ x, is_amd64 x = false) pre →
     is_amd64 m = true →
     select_digest ms = entry_digest m)
  ∧ (Forall (λ x, is_amd64 x = false) ms →
     select_digest ms = head ms ≫= entry_digest)
  ∧ (∀ o d, is_amd64 {| platform := Some {| architecture := Some "amd64"; os := o |};
                        entry_digest := d |} = true).
Proof.
  split; [|split].
  - intros pre m post -> Hpre Hm.
    unfold select_digest, select_entry.
    by rewrite (find_first _ _ _ _ Hpre Hm).
  - intros Hnone. unfold select_digest, select_entry.
    by rewrite (find_none _ _ Hnone).
  - intros o d. reflexivity.
Qed.

Lemma select_digest_first_amd64_witness :
  select_digest Scenario.windows_first = Some "sha256:win".
Proof.
  exact (proj1 (select_digest_first_amd64 Scenario.windows_first)
               [] _ _ eq_refl (Forall_nil_2 _) eq_refl).
Defined.

(** ** C10: the progress value is at most 100 *)

Lemma bounded_progress_update now p size spd t :
  bounded (progress_update now p size spd t).
Proof. unfold bounded; simpl. apply Q.le_min_r. Qed.

Lemma pb_new e : progress_bounded (new_service e).
Proof. split; simpl; [apply map_Forall_empty | constructor]. Qed.

(** A step that changes neither the objects nor the events. *)
Lemma pb_frame s s' :
  objects s' = objects s → emitted s' = emitted s →
  progress_bounded s → progress_bounded s'.
Proof. intros Ho He [??]. split; by rewrite ?Ho, ?He. Qed.

Lemma pb_mutate r f s :
  (∀ t, bounded t → bounded (f t)) →
  progress_bounded s → progress_bounded (mutate r f s).
Proof.
  intros Hf [Ho He]. split; [|done]. simpl.
  intros k t. rewrite lookup_alter. case_decide as Hk.
  - subst k. destruct (objects s !! r) as [t0|] eqn:Ht0; simpl; [|done].
    intros [= <-]. apply Hf. by eapply Ho.
  - apply Ho.
Qed.

Lemma pb_emit n r s : progress_bounded s → progress_bounded (emit n r s).
Proof.
  intros [Ho He]. unfold emit. destruct (objects s !! r) as [t|] eqn:Ht; [|done].
  split; [done|]. simpl. apply Forall_app. split; [done|].
  repeat constructor. simpl. by eapply Ho.
Qed.

Lemma pb_updateTaskStatus now taskId st d s :
  progress_bounded s → progress_bounded (updateTaskStatus now taskId st d s).
Proof.
  intros H. unfold updateTaskStatus. case_match; [|done].
  assert (progress_bounded
            (emit taskUpdated n
               (with_activeTasks (<[taskId:=n]> (activeTasks (mutate n (status_update now st d) s)))
                  (mutate n (status_update now st d) s)))) as H'.
  { apply pb_emit. eapply pb_frame; [| |apply (pb_mutate n (status_update now st d) s)];
      [done|done| |done].
    intros t. unfold bounded. by destruct d. }
  destruct st; try done; by apply pb_emit.
Qed.

Lemma pb_updateTaskProgress now taskId p size spd s :
  progress_bounded s → progress_bounded (updateTaskProgress now taskId p size spd s).
Proof.
  intros H. unfold updateTaskProgress. case_match; [|done].
  apply pb_emit.
  eapply pb_frame; [| |apply (pb_mutate n (progress_update now p size spd) s)];
    [done|done| |done].
  intros t _. apply bounded_progress_update.
Qed.

Lemma pb_on_catch now taskId r e s :
  progress_bounded s → progress_bounded (on_catch now taskId r e s).1.
Proof.
  intros H. unfold on_catch.
  pose proof (pb_updateTaskStatus now taskId Error (Some (error_message e)) s H).
  repeat case_match; simpl; try done.
  by apply pb_mutate.
Qed.

Lemma pb_executeDownload now taskId s :
  progress_bounded s → progress_bounded (executeDownload now taskId s).1.
Proof.
  intros H. unfold executeDownload.
  pose proof (pb_updateTaskStatus now taskId Downloading None s H) as H1.
  repeat case_match; simpl; try done.
  match goal with
  | E : on_catch ?a ?b ?c ?d ?s0 = (?s1, _) |- progress_bounded ?s1 =>
      change s1 with (s1, p).1; rewrite <- E; by apply pb_on_catch
  end.
Qed.

Lemma pb_spawn now taskId s :
  progress_bounded s → progress_bounded (spawn now taskId s).
Proof.
  intros H. unfold spawn.
  pose proof (pb_executeDownload now taskId s H) as H1.
  destruct (executeDownload now taskId s) as [s1 [p|]]; simpl in *; [|done].
  by eapply pb_frame; [| |exact H1].
Qed.

Lemma pb_start_blob taskId task info layer rest s :
  progress_bounded s → progress_bounded (start_blob taskId task info layer rest s).1.
Proof. intros H. unfold start_blob; simpl. by eapply pb_frame; [| |exact H]. Qed.

Lemma pb_next_layer taskId r info ls s :
  progress_bounded s → progress_bounded (next_layer taskId r info ls s).1.
Proof.
  intros H. induction ls as [|l ls IH]; simpl; [done|].
  repeat case_match; simpl; done.
Qed.

Lemma pb_on_data now taskId layer outPath task chunk s :
  progress_bounded s → progress_bounded (on_data now taskId layer outPath task chunk s).
Proof.
  intros H. unfold on_data. case_match.
  - eapply pb_frame; [| |eapply pb_updateTaskProgress, H]; done.
  - by eapply pb_frame; [| |exact H].
Qed.

Lemma pb_continue now p c s :
  progress_bounded s → progress_bounded (continue now p c s).1.
Proof.
  intros H. unfold continue.
  assert (Hfail : ∀ e s0, progress_bounded s0 →
            progress_bounded (at_pc p (on_catch now (p_taskId p) (p_task p) e s0)).1).
  { intros e s0 H0. simpl. by apply pb_on_catch. }
  destruct (p_pc p), c; simpl; try done; repeat case_match; simpl; subst;
    try done;
    try (by apply Hfail);
    try (by apply pb_on_catch);
    try (by apply pb_next_layer);
    try (by apply pb_on_data);
    try (by apply pb_updateTaskStatus).
  - eapply pb_frame;
      [| |apply (pb_mutate (p_task p) (set_totalBytes (layers_total (info_layers a))) s
                   (λ t Ht, Ht) H)]; done.
  - apply pb_next_layer.
    eapply pb_frame; [| |apply (pb_mutate n (λ x, set_downloadedBytes (downloadedBytes x + downloaded) x) s)];
      done.
  - match goal with
    | E : executeDownload ?a ?b ?s0 = (?s1, _) |- progress_bounded ?s1 =>
        change s1 with (s1, Some p0).1; rewrite <- E; by apply pb_executeDownload
    end.
  - match goal with
    | E : executeDownload ?a ?b ?s0 = (?s1, _) |- progress_bounded ?s1 =>
        change s1 with (s1, @None Proc).1; rewrite <- E; by apply pb_executeDownload
    end.
Qed.

Lemma pb_startDownload now mkdir image tg src target s :
  progress_bounded s →
  progress_bounded (startDownload now mkdir image tg src target s).1.
Proof.
  intros [Ho He]. unfold startDownload. destruct mkdir; simpl; [|done].
  apply pb_spawn, pb_emit. split; [|done]. simpl.
  apply map_Forall_insert_2; [|done]. unfold bounded; simpl. done.
Qed.

Lemma pb_abort_controller taskId s :
  progress_bounded s → progress_bounded (abort_controller taskId s).
Proof. intros H. unfold abort_controller. by case_match. Qed.

Lemma pb_pauseDownload now taskId s :
  progress_bounded s → progress_bounded (pauseDownload now taskId s).
Proof.
  intros H%(pb_abort_controller taskId). unfold pauseDownload.
  repeat case_match; try done.
  apply pb_emit.
  apply (pb_frame (mutate n (λ t, set_updatedAt now (set_status Paused t))
                     (abort_controller taskId s))); [done|done|].
  apply pb_mutate; [|done]. by intros t.
Qed.

Lemma pb_resumeDownload now taskId s :
  progress_bounded s → progress_bounded (resumeDownload now taskId s).
Proof.
  intros H. unfold resumeDownload. repeat case_match; try done. by apply pb_spawn.
Qed.

Lemma pb_cancelDownload now taskId s :
  progress_bounded s → progress_bounded (cancelDownload now taskId s).
Proof.
  intros H%(pb_abort_controller taskId). unfold cancelDownload.
  case_match; [|done].
  apply pb_emit.
  apply (pb_frame (mutate n (λ t, set_updatedAt now (set_status Cancelled t))
                     (abort_controller taskId s))); [done|done|].
  apply pb_mutate; [|done]. by intros t.
Qed.

Lemma pb_retryDownload now taskId s :
  progress_bounded s → progress_bounded (retryDownload now taskId s).
Proof.
  intros H. unfold retryDownload. case_match; [|done].
  apply pb_spawn, pb_mutate; [|done]. intros t _. unfold bounded; simpl. done.
Qed.

Lemma pb_route now req s :
  progress_bounded s → progress_bounded (route now req s).1.
Proof.
  intros H. destruct req; simpl.
  - unfold route_create. case_match; [done|].
    pose proof (pb_startDownload now mkdir
                  (str_or (body_imageName b) "") (str_or (body_tag b) "")
                  (str_or (body_source b) "") (body_targetPath b) s H) as H1.
    by repeat case_match; simplify_eq/=.
  - unfold route_get. by case_match.
  - unfold route_pause. repeat case_match; simpl; try done. by apply pb_pauseDownload.
  - unfold route_resume. repeat case_match; simpl; try done. by apply pb_resumeDownload.
  - unfold route_cancel. repeat case_match; simpl; try done. by apply pb_cancelDownload.
  - unfold route_delete. repeat case_match; simpl; done.
Qed.

Lemma pb_step now i s :
  progress_bounded s → progress_bounded (step now i s).1.
Proof.
  intros H. unfold step. case_match; [done|]. destruct i as [req| taskId | pid c].
  - pose proof (pb_route now req s H). by destruct (route now req s).
  - by apply pb_retryDownload.
  - case_match; [|done].
    pose proof (pb_continue now p c s H). by destruct (continue now p c s).
Qed.

Lemma pb_run tr s :
  progress_bounded s → progress_bounded (run tr s).1.
Proof.
  revert s. induction tr as [|[now i] tr IH]; intros s H; simpl; [done|].
  pose proof (pb_step now i s H) as H1.
  destruct (step now i s) as [s1 resp]. specialize (IH s1 H1).
  by destruct (run tr s1).
Qed.

Lemma progress_events_bounded s :
  progress_bounded s → Forall (λ e, (e.2 <= 100)%Q) (progress_events s).
Proof.
  intros [_ He]. unfold progress_events.
  induction He as [|ev evs Hev _ IH]; simpl; [constructor|].
  case_bool_decide; [constructor|]; done.
Qed.

(** C10: in every run of the service from its start, every progress event
    that was emitted carries a progress of at most 100, and so does every
    task record, whatever bytes were counted. *)
Theorem progress_at_most_100 (e : Env) (tr : list (Z * Input)) :
  let s := (run tr (new_service e)).1 in
  Forall (λ ev, (ev.2 <= 100)%Q) (progress_events s)
  ∧ ∀ taskId t, getTask taskId s = Some t → (progress t <= 100)%Q.
Proof.
  intros s. assert (H : progress_bounded s) by apply pb_run, pb_new.
  split; [by apply progress_events_bounded|].
  intros taskId t. unfold getTask.
  destruct (activeTasks s !! taskId) as [r|]; simpl; [|done].
  intros Ht. by eapply (proj1 H).
Qed.

(** The clamp at work: the layer is announced with 3 bytes and its stream
    delivers 5 in one chunk. *)
Example progress_clamped :
  progress_events
    (run ((1000, Http (Create (Ok ()) (Scenario.body "dockerhub")))
          :: firstn 4 (Scenario.first_bytes 1000 0)
          ++ [(1005, Wake 0 (Chunk "abcde"))])
         (new_service Scenario.env0)).1
  = [("1000", 100%Q)].
Proof. vm_compute. reflexivity. Qed.

(** * Further properties *)

(** ** The shape of the reachable states *)

Lemma consistent_new e : consistent (new_service e).
Proof.
  split; [|split; [|split]]; simpl;
    [intros r t; by rewrite lookup_empty | intros k r; by rewrite lookup_empty
    | constructor | constructor].
Qed.

Lemma alter_keeps_id (f : DownloadTask → DownloadTask) r r0 (m : gmap nat DownloadTask) t k :
  (∀ t, id (f t) = id t) →
  m !! r0 = Some t → id t = k →
  ∃ t', alter f r m !! r0 = Some t' ∧ id t' = k.
Proof.
  intros Hid Ht Hk. rewrite lookup_alter. case_decide as Hr.
  - subst r0. rewrite Ht. simpl. eexists; split; [done|]. by rewrite Hid.
  - by exists t.
Qed.

(** A change of the components that [consistent] does not read. *)
Lemma sound_frame s l s' :
  objects s' = objects s → activeTasks s' = activeTasks s →
  procs s' = procs s → emitted s' = emitted s →
  (fresh s ≤ fresh s')%nat →
  sound l s → sound l s'.
Proof.
  intros Ho Ha Hp He Hf [(H1 & H2 & H3 & H4) Hl].
  assert (Hfit : ∀ p, proc_fits s p → proc_fits s' p).
  { intros p (t & Ht & Hid). exists t. by rewrite Ho. }
  split; [split; [|split; [|split]]|].
  - intros r t. rewrite Ho. intros Ht. destruct (H1 r t Ht). split; [done|lia].
  - intros k r. rewrite Ha, Ho. apply H2.
  - rewrite Hp. by eapply Forall_impl.
  - by rewrite He.
  - by eapply Forall_impl.
Qed.

Lemma sound_mutate l r f s :
  (∀ t, objects s !! r = Some t → made t → made (f t)) →
  (∀ t, id (f t) = id t) →
  sound l s → sound l (mutate r f s).
Proof.
  intros Hf Hid [(H1 & H2 & H3 & H4) Hl].
  assert (Hfit : ∀ p, proc_fits s p → proc_fits (mutate r f s) p).
  { intros p (t & Ht & Hidt). by eapply alter_keeps_id. }
  split; [split; [|split; [|split]]|]; simpl.
  - intros r0 t. rewrite lookup_alter. case_decide as Hr.
    + subst r0. destruct (objects s !! r) as [t0|] eqn:Ht0; simpl; [|done].
      intros [= <-]. destruct (H1 r t0 Ht0). split; [by apply Hf|done].
    + apply H1.
  - intros k r0 Hk. destruct (H2 k r0 Hk) as (t & Ht & Hidt).
    by eapply alter_keeps_id.
  - by eapply Forall_impl.
  - done.
  - by eapply Forall_impl.
Qed.

Lemma sound_emit l name r s :
  (∀ t, objects s !! r = Some t → event_fits {| ev_name := name; ev_task := t |}) →
  sound l s → sound l (emit name r s).
Proof.
  intros Hfit [(H1 & H2 & H3 & H4) Hl]. unfold emit.
  destruct (objects s !! r) as [t|] eqn:Ht; [|done].
  split; [split; [|split; [|split]]|]; simpl; try done.
  apply Forall_app. split; [done|]. repeat constructor; simpl.
  - by destruct (H1 r t Ht).
  - by apply Hfit.
Qed.

(** [this.activeTasks.set(taskId, task)] for an object that is the task. *)
Lemma sound_set l k r s :
  proc_fits s {| p_taskId := k; p_task := r; p_pc := Finished |} →
  sound l s → sound l (with_activeTasks (<[k := r]> (activeTasks s)) s).
Proof.
  intros Hr [(H1 & H2 & H3 & H4) Hl].
  split; [split; [|split; [|split]]|]; simpl; try done.
  intros k0 r0. rewrite lookup_insert. case_decide as Hk.
  - subst k0. by intros [= <-].
  - apply H2.
Qed.

(** A removal of entries of [activeTasks]. *)
Lemma sound_remove l m s :
  (∀ k r, m !! k = Some r → activeTasks s !! k = Some r) →
  sound l s → sound l (with_activeTasks m s).
Proof.
  intros Hm [(H1 & H2 & H3 & H4) Hl].
  split; [split; [|split; [|split]]|]; simpl; try done.
  intros k r Hk. apply H2. by apply Hm.
Qed.

(** The object of a key is the task of the key. *)
Lemma sound_key l k r pc s :
  sound l s → activeTasks s !! k = Some r →
  proc_fits s {| p_taskId := k; p_task := r; p_pc := pc |}.
Proof. intros [(_ & H2 & _) _] Hk. by apply H2. Qed.

(** Where a call stands does not matter. *)
Lemma sound_last l k r pc pc' s :
  sound (l ++ [{| p_taskId := k; p_task := r; p_pc := pc |}]) s →
  sound (l ++ [{| p_taskId := k; p_task := r; p_pc := pc' |}]) s.
Proof.
  intros [H Hl]. split; [done|]. apply Forall_app in Hl as [Hl Hp].
  apply Forall_app. split; [done|].
  inversion_clear Hp as [|?? Hp' _]. repeat constructor. exact Hp'.
Qed.

Lemma sound_updateTaskStatus l now taskId st d s :
  (st = Error → is_Some d) →
  sound l s → sound l (updateTaskStatus now taskId st d s).
Proof.
  intros Hd H. unfold updateTaskStatus.
  destruct (activeTasks s !! taskId) as [r|] eqn:Hact; [|done].
  assert (H1 : sound l (mutate r (status_update now st d) s)).
  { apply sound_mutate; [|by destruct d|done].
    intros t _ Ht. by constructor. }
  assert (Hobj : ∀ t, objects (mutate r (status_update now st d) s) !! r = Some t →
            status t = st ∧ (st = Error → is_Some (error t))).
  { intros t. simpl. rewrite lookup_alter_eq.
    destruct (objects s !! r) as [t0|]; simpl; [|done]. intros [= <-].
    split; [by destruct d|]. intros Hst. destruct (Hd Hst) as [msg ->]. by eexists. }
  assert (H2 : sound l (emit taskUpdated r
            (with_activeTasks (<[taskId:=r]> (activeTasks (mutate r (status_update now st d) s)))
               (mutate r (status_update now st d) s)))).
  { apply sound_emit; [done|]. apply sound_set; [|done].
    by apply (sound_key l taskId r Finished _ H1). }
  destruct st; try done; apply sound_emit; try done.
  - intros t. rewrite emit_objects. simpl. intros Ht. by apply Hobj.
  - intros t. rewrite emit_objects. simpl. intros Ht.
    destruct (Hobj t Ht) as [? ?]. split; [done|auto].
Qed.

Lemma sound_updateTaskProgress l now taskId p size s :
  sound l s → sound l (updateTaskProgress now taskId p size 0 s).
Proof.
  intros H. unfold updateTaskProgress.
  destruct (activeTasks s !! taskId) as [r|] eqn:Hact; [|done].
  assert (H1 : sound l (mutate r (progress_update now p size 0) s)).
  { apply sound_mutate; [|done|done]. intros t _ Ht. by constructor. }
  apply sound_emit.
  - intros t. simpl. rewrite lookup_alter_eq.
    destruct (objects s !! r) as [t0|]; simpl; [|done]. intros [= <-]. by eexists.
  - apply sound_set; [|done]. by apply (sound_key l taskId r Finished _ H1).
Qed.

Lemma sound_on_catch l now taskId r e s :
  sound l s → sound l (on_catch now taskId r e s).1.
Proof.
  intros H. unfold on_catch.
  assert (H1 : sound l (updateTaskStatus now taskId Error (Some (error_message e)) s)).
  { apply sound_updateTaskStatus; [by eexists|done]. }
  destruct (objects _ !! r) as [task|] eqn:Ht; [|done].
  destruct (Z.ltb_spec (num_or0 (retryCount task)) retryAttempts); simpl; [|done].
  apply sound_mutate; [|done|done].
  intros t Ht' Hm. rewrite Ht in Ht'. injection Ht' as <-. by constructor.
Qed.

Lemma sound_executeDownload l now taskId s :
  sound l s →
  sound (l ++ option_list (executeDownload now taskId s).2)
        (executeDownload now taskId s).1.
Proof.
  intros H. unfold executeDownload.
  destruct (activeTasks s !! taskId) as [r|] eqn:Hact; simpl;
    [|by rewrite app_nil_r].
  assert (H1 : sound (l ++ [{| p_taskId := taskId; p_task := r; p_pc := Finished |}])
                 (updateTaskStatus now taskId Downloading None s)).
  { apply sound_updateTaskStatus; [done|]. destruct H as [H Hl].
    split; [done|]. apply Forall_app. split; [done|]. repeat constructor.
    by eapply (sound_key l), Hact. }
  destruct (objects _ !! r) as [task|] eqn:Ht; simpl.
  - destruct (is_dockerhub task || is_aliyun task); simpl;
      [by eapply sound_last|].
    pose proof (sound_on_catch _ now taskId r (unsupported_source task) _ H1) as H2.
    destruct (on_catch now taskId r (unsupported_source task) _); simpl in *.
    by eapply sound_last.
  - rewrite app_nil_r. destruct H1 as [H1 Hl]. split; [done|].
    by apply Forall_app in Hl as [? _].
Qed.

Lemma sound_spawn l now taskId s :
  sound l s → sound l (spawn now taskId s).
Proof.
  intros H. unfold spawn.
  pose proof (sound_executeDownload l now taskId s H) as [(H1 & H2 & H3 & H4) Hl].
  destruct (executeDownload now taskId s) as [s1 [p|]]; simpl in *.
  - apply Forall_app in Hl as [Hl Hp].
    split; [split; [|split; [|split]]|]; simpl; try done.
    apply Forall_app. by split.
  - rewrite app_nil_r in Hl. by split.
Qed.

Lemma sound_start_blob l taskId task info layer rest s :
  sound l s → sound l (start_blob taskId task info layer rest s).1.
Proof.
  intros H. unfold start_blob; simpl.
  eapply sound_frame; [..|exact H]; simpl; try done. lia.
Qed.

Lemma sound_next_layer l taskId r info ls s :
  sound l s → sound l (next_layer taskId r info ls s).1.
Proof.
  intros H. induction ls as [|x ls IH]; cbn [next_layer]; [done|].
  repeat case_match; try done. by apply sound_start_blob.
Qed.

Lemma sound_on_data l now taskId layer outPath task chunk s :
  sound l s → sound l (on_data now taskId layer outPath task chunk s).
Proof.
  intros H. unfold on_data. case_match.
  - eapply sound_frame; [..|eapply sound_updateTaskProgress, H]; done.
  - by eapply sound_frame; [..|exact H].
Qed.

Lemma sound_last_fits l k r pc pc' s :
  sound (l ++ [{| p_taskId := k; p_task := r; p_pc := pc |}]) s →
  proc_fits s {| p_taskId := k; p_task := r; p_pc := pc' |}.
Proof. intros [_ Hl]. apply Forall_app in Hl as [_ Hp]. by inversion_clear Hp. Qed.

Lemma sound_continue l now p c s :
  sound (l ++ [p]) s →
  sound (l ++ [(continue now p c s).2]) (continue now p c s).1.
Proof.
  destruct p as [taskId r pc]. intros H. unfold continue.
  cbn [p_taskId p_task p_pc].
  assert (Hfit : proc_fits s {| p_taskId := taskId; p_task := r; p_pc := Finished |}).
  { destruct H as [_ Hl]. apply Forall_app in Hl as [_ Hp]. by inversion_clear Hp. }
  assert (Hgo : ∀ sp pc0,
            sound (l ++ [{| p_taskId := taskId; p_task := r; p_pc := pc0 |}]) sp.1 →
            sound (l ++ [(at_pc {| p_taskId := taskId; p_task := r; p_pc := pc |} sp).2])
                  (at_pc {| p_taskId := taskId; p_task := r; p_pc := pc |} sp).1).
  { intros sp pc0 H0. simpl. by eapply sound_last. }
  assert (Hfail : ∀ e s0,
            sound (l ++ [{| p_taskId := taskId; p_task := r; p_pc := pc |}]) s0 →
            sound (l ++ [(at_pc {| p_taskId := taskId; p_task := r; p_pc := pc |}
                            (on_catch now taskId r e s0)).2])
                  (at_pc {| p_taskId := taskId; p_task := r; p_pc := pc |}
                     (on_catch now taskId r e s0)).1).
  { intros e s0 H0. eapply Hgo. by apply sound_on_catch. }
  destruct pc, c; try done; repeat case_match; subst; try done;
    try (by apply Hfail);
    try (eapply Hgo; cbn [fst]).
  all: try (by apply sound_next_layer).
  all: try (by apply sound_start_blob).
  all: try (by apply sound_on_data).
  all: try (by apply sound_updateTaskStatus).
  all: try (by eapply sound_frame; [..|exact H]).
  all: try (by eapply sound_frame; [..|eapply sound_updateTaskStatus; [|exact H]]).
  - assert (H2 : sound (l ++ [{| p_taskId := taskId; p_task := r; p_pc := AwaitManifest |}])
                    (mutate r (set_totalBytes (layers_total (info_layers a))) s)).
    { apply sound_mutate; [|done|done]. intros t _ Ht. by constructor. }
    apply sound_set; [|exact H2]. by eapply sound_last_fits.
  - apply sound_next_layer.
    match goal with
    | |- sound _ (with_taskControllers _ (with_activeTasks _ ?s1)) =>
        assert (H2 : sound (l ++ [{| p_taskId := taskId; p_task := r;
                                     p_pc := Streaming info layer rest controller
                                               outPath downloaded task |}]) s1)
    end.
    { apply sound_mutate; [|done|done]. intros t _ Ht. by constructor. }
    eapply sound_frame; [..|apply sound_set; [|exact H2]]; try done.
    by eapply (sound_key _ taskId n Finished _ H2).
  - match goal with
    | E : executeDownload _ _ _ = _ |- _ =>
        pose proof (sound_executeDownload _ now taskId s H) as H2; rewrite E in H2
    end.
    simpl in *. destruct H2 as [H2 Hl]. split; [done|].
    rewrite <- app_assoc in Hl. apply Forall_app in Hl as [Hl Hp].
    apply Forall_app. split; [done|]. by inversion_clear Hp.
  - match goal with
    | E : executeDownload _ _ _ = _ |- _ =>
        pose proof (sound_executeDownload _ now taskId s H) as H2; rewrite E in H2
    end.
    simpl in H2. rewrite app_nil_r in H2. exact H2.
Qed.

Lemma sound_startDownload l now mkdir image tg src target s :
  sound l s → sound l (startDownload now mkdir image tg src target s).1.
Proof.
  intros [(H1 & H2 & H3 & H4) Hl]. unfold startDownload.
  destruct mkdir; simpl; [|done].
  assert (Hnew : objects s !! fresh s = None).
  { destruct (objects s !! fresh s) as [t|] eqn:Ht; [|done].
    destruct (H1 _ _ Ht). lia. }
  assert (Hfit : ∀ p, proc_fits s p →
            ∃ t, <[fresh s := mkTask (pretty now) image tg src Pending 0 0 0 0
                      (str_or target (taskDir (pretty now))) now now None None None None]>
                   (objects s) !! p_task p = Some t ∧ id t = p_taskId p).
  { intros p (t & Ht & Hid). exists t. split; [|done].
    rewrite lookup_insert_ne; [done|]. intros Heq. rewrite <- Heq in Ht. by rewrite Hnew in Ht. }
  apply sound_spawn, sound_emit.
  { intros t. simpl. rewrite lookup_insert_eq. by intros [= <-]. }
  split; [split; [|split; [|split]]|]; simpl.
  - intros r t. rewrite lookup_insert. case_decide as Hr.
    + subst r. intros [= <-]. split; [constructor|lia].
    + intros Ht. destruct (H1 r t Ht). split; [done|lia].
  - intros k r. rewrite lookup_insert. case_decide as Hk.
    + subst k. intros [= <-]. rewrite lookup_insert_eq. by eexists.
    + intros Hk'. destruct (H2 k r Hk') as (t & Ht & Hid).
      apply (Hfit {| p_taskId := k; p_task := r; p_pc := Finished |}). by exists t.
  - eapply Forall_impl; [exact H3|]. exact Hfit.
  - done.
  - eapply Forall_impl; [exact Hl|]. exact Hfit.
Qed.

Lemma sound_abort_controller l taskId s :
  sound l s → sound l (abort_controller taskId s).
Proof.
  intros H. unfold abort_controller. case_match; [|done].
  by eapply sound_frame; [..|exact H].
Qed.

Lemma sound_pauseDownload l now taskId s :
  sound l s → sound l (pauseDownload now taskId s).
Proof.
  intros H%(sound_abort_controller l taskId). unfold pauseDownload.
  destruct (activeTasks _ !! taskId) as [r|] eqn:Hact; [|done].
  destruct (objects _ !! r) as [task|] eqn:Ht; [|done].
  case_bool_decide; [|done].
  assert (H1 : sound l (mutate r (status_update now Paused None) (abort_controller taskId s))).
  { apply sound_mutate; [|done|done]. intros t _ Hm. by constructor. }
  apply sound_emit.
  - intros t. simpl. rewrite lookup_alter_eq, Ht. by intros [= <-].
  - apply (sound_set l taskId r _ (sound_key l taskId r Finished _ H1 Hact) H1).
Qed.

Lemma sound_resumeDownload l now taskId s :
  sound l s → sound l (resumeDownload now taskId s).
Proof.
  intros H. unfold resumeDownload. repeat case_match; try done. by apply sound_spawn.
Qed.

Lemma sound_cancelDownload l now taskId s :
  sound l s → sound l (cancelDownload now taskId s).
Proof.
  intros H%(sound_abort_controller l taskId). unfold cancelDownload.
  destruct (activeTasks _ !! taskId) as [r|] eqn:Hact; [|done].
  assert (H1 : sound l (mutate r (status_update now Cancelled None) (abort_controller taskId s))).
  { apply sound_mutate; [|done|done]. intros t _ Hm. by constructor. }
  apply sound_emit.
  - intros t. simpl. rewrite lookup_alter_eq.
    destruct (objects _ !! r); simpl; [|done]. by intros [= <-].
  - apply sound_remove; [|exact H1].
    intros k r0 Hk. by apply lookup_delete_Some in Hk as [_ ?].
Qed.

Lemma sound_retryDownload l now taskId s :
  sound l s → sound l (retryDownload now taskId s).
Proof.
  intros H. unfold retryDownload. case_match; [|done].
  apply sound_spawn, sound_mutate; [|done|done]. intros t _ Hm. by constructor.
Qed.

Lemma sound_cleanupCompletedTasks l s :
  sound l s → sound l (cleanupCompletedTasks s).
Proof.
  intros H. unfold cleanupCompletedTasks. apply sound_remove; [|done].
  intros k r Hk. by apply map_lookup_filter_Some in Hk as [? _].
Qed.

Lemma sound_route l now req s :
  sound l s → sound l (route now req s).1.
Proof.
  intros H. destruct req; simpl.
  - unfold route_create. case_match; [done|].
    pose proof (sound_startDownload l now mkdir
                  (str_or (body_imageName b) "") (str_or (body_tag b) "")
                  (str_or (body_source b) "") (body_targetPath b) s H) as H1.
    by repeat case_match; simplify_eq/=.
  - unfold route_get. by case_match.
  - unfold route_pause. repeat case_match; simpl; try done. by apply sound_pauseDownload.
  - unfold route_resume. repeat case_match; simpl; try done. by apply sound_resumeDownload.
  - unfold route_cancel. repeat case_match; simpl; try done. by apply sound_cancelDownload.
  - unfold route_delete. repeat case_match; simpl; try done.
    by apply sound_cleanupCompletedTasks.
Qed.

Lemma consistent_step now i s :
  consistent s → consistent (step now i s).1.
Proof.
  intros H. assert (H0 : sound [] s) by (split; [done|constructor]).
  unfold step. destruct (crashed s); [done|]. destruct i as [req| taskId | pid c].
  - pose proof (sound_route [] now req s H0) as [H1 _]. by destruct (route now req s).
  - by apply (sound_retryDownload [] now taskId s H0).
  - destruct (procs s !! pid) as [p|] eqn:Hp; [|done].
    assert (H1 : sound ([] ++ [p]) s).
    { split; [done|]. simpl. repeat constructor.
      destruct H as (_ & _ & H3 & _). by eapply Forall_lookup_1 in H3. }
    pose proof (sound_continue [] now p c s H1) as H2.
    destruct (continue now p c s) as [s1 p1]. simpl in *.
    destruct H2 as [(H2 & H3 & H4 & H5) Hl].
    split; [|split; [|split]]; simpl; try done.
    apply Forall_insert; [done|]. by inversion_clear Hl.
Qed.

Lemma consistent_run tr s :
  consistent s → consistent (run tr s).1.
Proof.
  revert s. induction tr as [|[now i] tr IH]; intros s H; simpl; [done|].
  pose proof (consistent_step now i s H) as H1.
  destruct (step now i s) as [s1 resp]. specialize (IH s1 H1).
  by destruct (run tr s1).
Qed.


(** What holds of every task that the service made. *)
Lemma made_facts t :
  made t →
  speed t = 0 ∧ checksum t = None
  ∧ 0 ≤ num_or0 (retryCount t) ≤ retryAttempts.
Proof.
  induction 1 as [| now st d t _ IH | now p size t _ IH | now t _ IH
                 | t _ IH Hlt | v t _ IH | d t _ IH];
    [|destruct IH as (? & ? & ? & ?)..].
  - by vm_compute.
  - by destruct d.
  - done.
  - by vm_compute.
  - simpl. do 2 (split; [done|]). lia.
  - done.
  - done.
Qed.

Lemma reachable_consistent e tr : consistent (run tr (new_service e)).1.
Proof. apply consistent_run, consistent_new. Qed.

(** X1: in every run of the service from its start, what is found under
    a task id is a task with this id; a key under which nothing is found
    is not in the store; and every running call of [executeDownload] holds
    a task whose id is the one the call was given. *)
Theorem task_found_under_its_id (e : Env) (tr : list (Z * Input)) (taskId : string) :
  let s := (run tr (new_service e)).1 in
  match getTask taskId s with
  | Some t => id t = taskId
  | None => activeTasks s !! taskId = None
  end
  ∧ Forall (λ p, id <$> objects s !! p_task p = Some (p_taskId p)) (procs s).
Proof.
  intros s. destruct (reachable_consistent e tr) as (H1 & H2 & H3 & _).
  fold s in H1, H2, H3. split.
  - unfold getTask. destruct (activeTasks s !! taskId) as [r|] eqn:Hact; simpl; [|done].
    destruct (H2 _ _ Hact) as (t & Ht & Hid). by rewrite Ht.
  - eapply Forall_impl; [exact H3|]. intros p (t & Ht & Hid). by rewrite Ht, <- Hid.
Qed.

(** X2: in every run of the service from its start, the retry count of
    every task object, and of every task carried by an event, lies between
    0 and [retryAttempts], whatever fails and however often
    [retryDownload] is called. *)
Theorem attempts_within_budget (e : Env) (tr : list (Z * Input)) :
  let s := (run tr (new_service e)).1 in
  map_Forall (λ _ t, 0 ≤ num_or0 (retryCount t) ≤ retryAttempts) (objects s)
  ∧ Forall (λ ev, 0 ≤ num_or0 (retryCount (ev_task ev)) ≤ retryAttempts) (emitted s).
Proof.
  intros s. destruct (reachable_consistent e tr) as (H1 & _ & _ & H4).
  fold s in H1, H4. split.
  - intros r t Ht. destruct (H1 _ _ Ht) as [Hm _]. by apply made_facts in Hm as (_ & _ & ?).
  - eapply Forall_impl; [exact H4|]. intros ev [Hm _].
    by apply made_facts in Hm as (_ & _ & ?).
Qed.

(** X3: in every run of the service from its start, a broadcast of a
    completion carries the empty checksum; a broadcast of progress carries
    the speed 0 and, as remaining time, the bytes that are left, or 0 when
    more bytes were counted than announced. *)
Theorem broadcasts_without_checksum_and_speed (e : Env) (tr : list (Z * Input)) :
  Forall (λ m, match m with
               | download_complete _ _ sum => sum = ""
               | download_progress _ _ spd remaining done total =>
                   spd = 0 ∧ remaining = Z.max 0 (total - done)
               | download_error _ _ => True
               end)
         (broadcasts (run tr (new_service e)).1).
Proof.
  destruct (reachable_consistent e tr) as (_ & _ & _ & H4).
  unfold broadcasts. induction H4 as [|ev evs [Hm _] _ IH]; simpl; [constructor|].
  apply made_facts in Hm as (Hs & Hc & _).
  unfold on_event. destruct (ev_name ev); simpl; try done; constructor; try done.
  - by rewrite Hc.
  - rewrite Hs. split; [done|]. by rewrite Z.div_1_r.
Qed.

(** X4: in every run of the service from its start, an event carries the
    task in the state that the name of the event announces: created tasks
    are pending, completed ones completed, failed ones in error with a
    message, paused ones paused and cancelled ones cancelled. *)
Theorem events_carry_their_status (e : Env) (tr : list (Z * Input)) :
  Forall (λ ev,
            match ev_name ev with
            | taskCreated => status (ev_task ev) = Pending
            | downloadComplete => status (ev_task ev) = Completed
            | downloadError =>
                status (ev_task ev) = Error ∧ is_Some (error (ev_task ev))
            | taskPaused => status (ev_task ev) = Paused
            | taskCancelled => status (ev_task ev) = Cancelled
            | taskUpdated | downloadProgress => True
            end)
         (emitted (run tr (new_service e)).1).
Proof.
  destruct (reachable_consistent e tr) as (_ & _ & _ & H4).
  eapply Forall_impl; [exact H4|]. intros ev [_ Hfit]. unfold event_fits in Hfit.
  by destruct (ev_name ev).
Qed.

(** ** The bytes of a layer *)

Lemma length_append (a b : string) :
  String.length (a +:+ b) = (String.length a + String.length b)%nat.
Proof.
  induction a as [|x a IH]; [done|].
  change (S (String.length (a +:+ b)) = S (String.length a + String.length b)).
  by rewrite IH.
Qed.

Section LayerBytes.

Variables (pid : nat) (taskId : string) (r : nat) (info : ManifestInfo)
          (layer : Layer) (rest : list Layer) (ctl : nat) (target : string).

Let streaming := streaming_layer pid taskId r info layer rest ctl target.

(** What a chunk writes to the task: the progress and [downloadedSize] are
    computed from the bytes of the layers before this one and the length
    of this chunk. *)
Lemma streaming_chunk_task now d content chunk s t :
  streaming d content s →
  objects s !! r = Some t →
  let len := Z.of_nat (String.length chunk) in
  let total := num_or (totalBytes t) (num_or0 (layer_size layer)) in
  let p := if total =? 0 then progress t
           else (inject_Z (downloadedBytes t + len) / inject_Z total * 100)%Q in
  objects (step now (Wake pid (Chunk chunk)) s).1 !! r
  = Some (progress_update now p (downloadedBytes t + len) 0 t).
Proof.
  intros (Hlive & Hp & Hctl & Hact & _ & Hfile) Ht len total p.
  unfold step. rewrite Hlive, Hp. unfold continue; simpl.
  rewrite bool_decide_eq_false_2 by done. simpl.
  unfold on_data; simpl. rewrite Ht. simpl.
  by rewrite updateTaskProgress_objects, Hact, lookup_alter_eq, Ht.
Qed.

Lemma streaming_chunk_frame now d content chunk s :
  streaming d content s →
  aborted (step now (Wake pid (Chunk chunk)) s).1 = aborted s
  ∧ fresh (step now (Wake pid (Chunk chunk)) s).1 = fresh s.
Proof.
  intros (Hlive & Hp & Hctl & Hact & (t & Ht & _) & Hfile).
  unfold step. rewrite Hlive, Hp. unfold continue; simpl.
  rewrite bool_decide_eq_false_2 by done. simpl.
  unfold on_data; simpl. rewrite Ht. simpl.
  unfold updateTaskProgress. rewrite Hact. simpl.
  by rewrite emit_aborted, emit_fresh.
Qed.

(** What the end of the stream writes to the task. *)
Lemma streaming_end_task now d content s t :
  streaming d content s →
  objects s !! r = Some t →
  let s' := (step now (Wake pid StreamEnd) s).1 in
  objects s' !! r = Some (set_downloadedBytes (downloadedBytes t + d) t)
  ∧ aborted s' = aborted s ∧ fresh s' = fresh s.
Proof.
  intros (Hlive & Hp & Hctl & Hact & (t0 & Ht0 & Htarget & Hsrc) & _) Ht.
  rewrite Ht in Ht0. injection Ht0 as <-.
  unfold step. rewrite Hlive, Hp. unfold continue; simpl.
  rewrite bool_decide_eq_false_2 by done. rewrite Hact. simpl.
  assert (Hnext : ∀ s0 x, objects s0 !! r = Some x → source x = "dockerhub" →
            next_layer taskId r info rest s0 = (s0, after_layer_pc info rest)).
  { intros s0 x H0 Hx. destruct rest as [|l rest']; simpl; [done|].
    rewrite H0. unfold is_dockerhub. by rewrite Hx. }
  erewrite Hnext; simpl.
  - by rewrite lookup_alter_eq, Ht.
  - by rewrite lookup_alter_eq, Ht.
  - done.
Qed.

(** The chunks of a stream: the call counts them all, the task's
    [downloadedBytes] and [totalBytes] stay as they are. *)
Lemma streaming_chunks_task d content chunks s t :
  streaming d content s →
  objects s !! r = Some t →
  let s' := (run ((λ c, (c.1, Wake pid (Chunk c.2))) <$> chunks) s).1 in
  streaming (d + Z.of_nat (String.length (concat_chunks (chunks.*2))))
            (content +:+ concat_chunks (chunks.*2)) s'
  ∧ aborted s' = aborted s ∧ fresh s' = fresh s
  ∧ ∃ t', objects s' !! r = Some t'
          ∧ downloadedBytes t' = downloadedBytes t
          ∧ same_image t t'.
Proof.
  revert d content s t. induction chunks as [|[now c] chunks IH]; intros d content s t H Ht.
  - simpl. rewrite append_empty_r, Z.add_0_r. split; [done|].
    split; [done|]. split; [done|]. by exists t.
  - simpl. pose proof (streaming_chunk pid taskId r info layer rest ctl target now _ _ c _ H) as H1.
    pose proof (streaming_chunk_task now _ _ c _ _ H Ht) as H2.
    pose proof (streaming_chunk_frame now _ _ c _ H) as [Ha Hf].
    destruct (step now (Wake pid (Chunk c)) s) as [s1 resp]. simpl in H1, H2, Ha, Hf.
    destruct (IH _ _ _ _ H1 H2) as (H3 & Ha' & Hf' & t' & Ht' & Hd & Hsame).
    destruct (run _ s1) as [s2 resps]. simpl in *.
    rewrite length_append, <- append_assoc, Nat2Z.inj_add, Z.add_assoc.
    split; [done|]. split; [congruence|]. split; [congruence|]. by exists t'.
Qed.


(** X6: the bytes of a layer are counted.  Take a Docker Hub task that is
    registered under its id and a call of [executeDownload] that has just
    opened the stream of one of its layers: the file of the layer is
    empty, nothing is counted yet and the request of the layer is not
    cancelled ([streaming_layer]).  When the chunks of the stream and then
    its clean end are handled one after the other, no request and no
    completion of another call coming between them, the task's
    [downloadedBytes] has grown by the number of bytes that the stream
    delivered, which is the length of the layer's file. *)
Theorem layer_bytes_counted (chunks : list (Z * string)) (t_end : Z)
    (s : Service) (t : DownloadTask) :
  streaming_layer pid taskId r info layer rest ctl target 0 "" s →
  objects s !! r = Some t →
  let tr := ((λ c, (c.1, Wake pid (Chunk c.2))) <$> chunks)
            ++ [(t_end, Wake pid StreamEnd)] in
  let s' := (run tr s).1 in
  ∃ t' content,
    getTask taskId s' = Some t'
    ∧ files s' !! layer_path target layer = Some content
    ∧ content = concat_chunks (chunks.*2)
    ∧ downloadedBytes t' = downloadedBytes t + Z.of_nat (String.length content).
Proof.
  intros H Ht tr s'. subst s' tr. rewrite run_app.
  destruct (streaming_chunks_task 0 "" chunks s t H Ht)
    as (H1 & _ & _ & t1 & Ht1 & Hd & _).
  set (s1 := (run _ s).1) in *.
  pose proof (streaming_end pid taskId r info layer rest ctl target t_end _ _ _ H1)
    as (_ & _ & Hact & _ & Hfile).
  pose proof (streaming_end_task t_end _ _ _ _ H1 Ht1) as (Hobj & _).
  simpl. destruct (step t_end (Wake pid StreamEnd) s1) as [s2 resp]. simpl in *.
  unfold getTask. rewrite Hact. simpl. rewrite Hobj.
  eexists _, (concat_chunks chunks.*2).
  split; [reflexivity|]. split; [exact Hfile|]. split; [done|].
  simpl. rewrite Hd. lia.
Qed.

End LayerBytes.

(** ** Cancel, resume and delete *)

Lemma abort_controller_activeTasks taskId s :
  activeTasks (abort_controller taskId s) = activeTasks s.
Proof. unfold abort_controller. by case_match. Qed.

Lemma abort_controller_objects taskId s :
  objects (abort_controller taskId s) = objects s.
Proof. unfold abort_controller. by case_match. Qed.

Lemma abort_controller_procs taskId s :
  procs (abort_controller taskId s) = procs s.
Proof. unfold abort_controller. by case_match. Qed.

Lemma abort_controller_emitted taskId s :
  emitted (abort_controller taskId s) = emitted s.
Proof. unfold abort_controller. by case_match. Qed.

(** X7: a cancel of a task that is not completed is answered 200 without
    a task: the task is marked cancelled, announced by [taskCancelled] and
    removed from the store, its controller, if it has one, is aborted; the
    running calls of [executeDownload] stay where they are. *)
Theorem cancel_forgets_task (now : Z) (taskId : string) (t : DownloadTask)
    (s : Service) :
  getTask taskId s = Some t →
  status t ≠ Completed →
  let s' := (route_cancel now taskId s).1 in
  (route_cancel now taskId s).2 = reply 200 None None
  ∧ getTask taskId s' = None
  ∧ emitted s'
    = emitted s ++ [{| ev_name := taskCancelled;
                       ev_task := status_update now Cancelled None t |}]
  ∧ (∀ c, taskControllers s !! taskId = Some c → c ∈ aborted s')
  ∧ procs s' = procs s.
Proof.
  intros Hget Hst. unfold route_cancel. rewrite Hget.
  rewrite bool_decide_eq_false_2 by done. cbv zeta. cbn [fst snd].
  unfold getTask in Hget.
  destruct (activeTasks s !! taskId) as [r|] eqn:Hact; simpl in Hget; [|done].
  unfold cancelDownload.
  rewrite abort_controller_activeTasks, Hact.
  assert (Hgone : getTask taskId
            (emit taskCancelled r
               (with_activeTasks
                  (delete taskId
                     (activeTasks
                        (mutate r (λ t0, set_updatedAt now (set_status Cancelled t0))
                           (abort_controller taskId s))))
                  (mutate r (λ t0, set_updatedAt now (set_status Cancelled t0))
                     (abort_controller taskId s)))) = None).
  { unfold getTask. rewrite emit_activeTasks. simpl. by rewrite lookup_delete_eq. }
  rewrite Hgone. split; [done|]. split; [done|].
  unfold emit. simpl. rewrite lookup_alter_eq, abort_controller_objects, Hget. simpl.
  rewrite abort_controller_emitted, abort_controller_procs.
  split; [done|]. split; [|done].
  intros c Hc. unfold abort_controller. rewrite Hc. simpl. set_solver.
Qed.

(** X8: a call that waits for the manifest writes the total into the task
    object that it holds, and puts this object back under the task id,
    whatever the store holds under the id by then: a task that was
    cancelled in the meantime is in the store again. *)
Theorem resolution_restores_task (now : Z) (pid : nat) (taskId : string)
    (r : nat) (net : Registry) (t : DownloadTask) (info : ManifestInfo)
    (s : Service) :
  crashed s = false →
  procs s !! pid = Some {| p_taskId := taskId; p_task := r; p_pc := AwaitManifest |} →
  objects s !! r = Some t →
  resolve net (env s) t = Ok info →
  let s' := (step now (Wake pid (Resolved net)) s).1 in
  getTask taskId s' = Some (set_totalBytes (layers_total (info_layers info)) t)
  ∧ procs s' !! pid
    = Some {| p_taskId := taskId; p_task := r; p_pc := AwaitMkdir info |}.
Proof.
  intros Hlive Hp Ht Hres.
  assert (Hlen : (pid < length (procs s))%nat) by (by eapply lookup_lt_Some).
  unfold step. rewrite Hlive, Hp. unfold continue. simpl. rewrite Ht, Hres. simpl.
  split.
  - unfold getTask. simpl. rewrite lookup_insert_eq. simpl.
    by rewrite lookup_alter_eq, Ht.
  - by rewrite list_lookup_insert_eq.
Qed.

(** X9: a resume of a paused task from a supported source is answered 200
    with the task downloading again, its byte counts and its error as they
    were.  It starts a new call of [executeDownload] at the manifest; the
    calls that were running stay where they are. *)
Theorem resume_starts_new_call (now : Z) (taskId : string) (r : nat)
    (t : DownloadTask) (s : Service) :
  activeTasks s !! taskId = Some r →
  objects s !! r = Some t →
  status t = Paused →
  is_dockerhub t || is_aliyun t = true →
  let s' := (route_resume now taskId s).1 in
  (route_resume now taskId s).2
  = reply 200 (Some (status_update now Downloading None t)) None
  ∧ procs s'
    = procs s ++ [{| p_taskId := taskId; p_task := r; p_pc := AwaitManifest |}].
Proof.
  intros Hact Ht Hst Hsrc.
  assert (Hget : getTask taskId s = Some t) by (unfold getTask; by rewrite Hact).
  unfold route_resume. rewrite Hget.
  rewrite bool_decide_eq_false_2 by (by intros []).
  cbv zeta. cbn [fst snd].
  unfold resumeDownload. rewrite Hget, bool_decide_eq_true_2 by done.
  unfold spawn. rewrite (executeDownload_supported now taskId r t) by done.
  split.
  - unfold getTask. simpl. rewrite updateTaskStatus_activeTasks, Hact. simpl.
    by rewrite updateTaskStatus_objects, Hact, lookup_alter_eq, Ht.
  - simpl. by rewrite updateTaskStatus_procs.
Qed.

(** X10: what a delete does to the task it names: a task that is
    downloading is kept and the request is answered 400; a completed or
    cancelled task is removed; a task in any other state, be it pending,
    paused or in error, is kept although the request is answered 200. *)
Theorem delete_of_named_task (taskId : string) (t : DownloadTask) (s : Service) :
  getTask taskId s = Some t →
  let s' := (route_delete taskId s).1 in
  code (route_delete taskId s).2 = (if bool_decide (status t = Downloading) then 400 else 200)
  ∧ getTask taskId s'
    = if bool_decide (status t = Completed) || bool_decide (status t = Cancelled)
      then None else Some t.
Proof.
  intros Hget. unfold route_delete. rewrite Hget.
  case_bool_decide as Hst; simpl.
  - split; [done|]. rewrite Hget, Hst. done.
  - split; [done|]. unfold getTask in *. simpl.
    destruct (activeTasks s !! taskId) as [r|] eqn:Hact; simpl in Hget; [|done].
    assert (Hkept : kept s r
                    = negb (bool_decide (status t = Completed)
                            || bool_decide (status t = Cancelled))).
    { unfold kept. by rewrite Hget. }
    destruct (bool_decide (status t = Completed) || bool_decide (status t = Cancelled)).
    + rewrite (proj2 (map_lookup_filter_None _ _ _)); [done|].
      right. intros r0 Hr0. rewrite Hact in Hr0. injection Hr0 as <-.
      simpl. rewrite Hkept. simpl. by intros [].
    + rewrite (map_lookup_filter_Some_2 _ _ taskId r); [done|done|].
      simpl. rewrite Hkept. simpl. done.
Qed.

(** The task and the call after the two writes at the end of a download. *)
Lemma writes_done (now : Z) (pid : nat) (taskId : string) (r : nat)
    (info : ManifestInfo) (t : DownloadTask) (s : Service) :
  crashed s = false →
  procs s !! pid = Some {| p_taskId := taskId; p_task := r; p_pc := AwaitWrite info |} →
  activeTasks s !! taskId = Some r →
  objects s !! r = Some t →
  let s' := (step now (Wake pid (WriteDone (Ok ()) (Ok ()))) s).1 in
  getTask taskId s' = Some (status_update now Completed None t)
  ∧ p_pc <$> procs s' !! pid = Some Finished.
Proof.
  intros Hlive Hp Hact Ht.
  assert (Hlen : (pid < length (procs s))%nat) by (by eapply lookup_lt_Some).
  unfold step. rewrite Hlive, Hp. unfold continue; simpl. rewrite Ht. simpl.
  unfold verifyFile. split.
  - unfold getTask; simpl. rewrite updateTaskStatus_activeTasks. simpl.
    rewrite Hact; simpl. rewrite updateTaskStatus_objects; simpl. rewrite Hact.
    by rewrite lookup_alter_eq, Ht.
  - rewrite list_lookup_insert_eq; [done|]. by rewrite updateTaskStatus_procs.
Qed.

(** X11: the end of a download.  When the two writes succeed,
    manifest.json and config.json hold the texts that
    [JSON.stringify(data, null, 2)] prints for the parsed manifest and for
    the parsed config of the call ([doc_json] and [info_config]: not the
    bodies of the registry's responses), the task is marked completed and
    announced by [taskUpdated] and [downloadComplete]; its progress and
    its byte counts stay as the last chunk left them. *)
Theorem completion_step (now : Z) (pid : nat) (taskId : string) (r : nat)
    (info : ManifestInfo) (t : DownloadTask) (s : Service) :
  crashed s = false →
  procs s !! pid = Some {| p_taskId := taskId; p_task := r; p_pc := AwaitWrite info |} →
  activeTasks s !! taskId = Some r →
  objects s !! r = Some t →
  let s' := (step now (Wake pid (WriteDone (Ok ()) (Ok ()))) s).1 in
  let t' := status_update now Completed None t in
  getTask taskId s' = Some t'
  ∧ progress t' = progress t
  ∧ files s' !! path_join (targetPath t) "config.json" = Some (info_config info)
  ∧ files s' !! path_join (targetPath t) "manifest.json"
    = Some (doc_json (info_manifest info))
  ∧ emitted s'
    = emitted s ++ [{| ev_name := taskUpdated; ev_task := t' |};
                    {| ev_name := downloadComplete; ev_task := t' |}]
  ∧ p_pc <$> procs s' !! pid = Some Finished.
Proof.
  intros Hlive Hp Hact Ht.
  destruct (writes_done now pid taskId r info t s Hlive Hp Hact Ht) as [Hget Hpc].
  assert (Hne : path_join (targetPath t) "config.json"
                ≠ path_join (targetPath t) "manifest.json").
  { unfold path_join. intros H%(inj (String.append (targetPath t))). discriminate. }
  split; [exact Hget|]. split; [done|]. split; [|split; [|split; [|exact Hpc]]].
  - unfold step. rewrite Hlive, Hp. unfold continue; simpl. rewrite Ht. simpl.
    unfold verifyFile. autorewrite with frame. simpl. by rewrite lookup_insert_eq.
  - unfold step. rewrite Hlive, Hp. unfold continue; simpl. rewrite Ht. simpl.
    unfold verifyFile. autorewrite with frame. simpl.
    rewrite lookup_insert_ne by done. by rewrite lookup_insert_eq.
  - unfold step. rewrite Hlive, Hp. unfold continue; simpl. rewrite Ht. simpl.
    unfold verifyFile, updateTaskStatus. simpl. rewrite Hact. unfold emit. simpl.
    rewrite lookup_alter_eq, Ht. simpl. rewrite lookup_alter_eq, Ht. simpl.
    by rewrite <- app_assoc.
Qed.

(** ** Creating tasks *)

(** An accepted request for a supported source, step by step. *)
Lemma create_supported now b s :
  supported_body b = true →
  let r := route_create now (Ok ()) b s in
  let t1 := status_update now Downloading None (new_task now b) in
  r.2 = reply 200 (Some t1) None
  ∧ activeTasks r.1 = <[pretty now := fresh s]> (activeTasks s)
  ∧ objects r.1 = <[fresh s := t1]> (objects s)
  ∧ procs r.1
    = procs s ++ [{| p_taskId := pretty now; p_task := fresh s; p_pc := AwaitManifest |}]
  ∧ emitted r.1
    = emitted s ++ [{| ev_name := taskCreated; ev_task := new_task now b |};
                    {| ev_name := taskUpdated; ev_task := t1 |}]
  ∧ fresh r.1 = S (fresh s)
  ∧ crashed r.1 = crashed s.
Proof.
  intros Hb. unfold supported_body in Hb.
  apply andb_true_iff in Hb as [Hb Hsrc]. apply andb_true_iff in Hb as [Hi Ht].
  assert (Hs : truthy_str (str_or (body_source b) "") = true).
  { apply orb_true_iff in Hsrc as [H%bool_decide_eq_true | H%bool_decide_eq_true];
      by rewrite H. }
  unfold route_create. rewrite Hi, Ht, Hs.
  simpl negb. simpl orb. cbv iota.
  unfold startDownload, spawn. fold (new_task now b).
  set (t0 := new_task now b).
  set (s1 := emit taskCreated (fresh s) _).
  assert (Hact : activeTasks s1 !! pretty now = Some (fresh s)).
  { subst s1. rewrite emit_activeTasks. simpl. apply lookup_insert_eq. }
  assert (Hobj : objects s1 !! fresh s = Some t0).
  { subst s1. rewrite emit_objects. simpl. apply lookup_insert_eq. }
  rewrite (executeDownload_supported now _ _ _ _ Hact Hobj Hsrc). cbv zeta.
  cbn [fst snd].
  assert (Hobjs : objects (updateTaskStatus now (pretty now) Downloading None s1)
                  = <[fresh s := status_update now Downloading None t0]> (objects s)).
  { rewrite updateTaskStatus_objects, Hact. subst s1. rewrite emit_objects. simpl.
    by rewrite alter_insert_eq. }
  split; [|split; [|split; [|split; [|split; [|split]]]]].
  - simpl. rewrite Hobjs. by rewrite lookup_insert_eq.
  - simpl. rewrite updateTaskStatus_activeTasks. subst s1.
    by rewrite emit_activeTasks.
  - exact Hobjs.
  - simpl. rewrite updateTaskStatus_procs. subst s1. by rewrite emit_procs.
  - simpl. unfold updateTaskStatus. rewrite Hact. unfold emit at 1. simpl.
    rewrite lookup_alter_eq, Hobj. simpl.
    subst s1. unfold emit. simpl. rewrite lookup_insert_eq. simpl.
    by rewrite <- app_assoc.
  - simpl. rewrite updateTaskStatus_fresh. subst s1. by rewrite emit_fresh.
  - simpl. rewrite updateTaskStatus_crashed. subst s1. by rewrite emit_crashed.
Qed.


Lemma run_cons now i tr s :
  (run ((now, i) :: tr) s).1 = (run tr (step now i s).1).1.
Proof.
  cbn [run]. destruct (step now i s) as [s1 resp]. cbn [fst].
  destruct (run tr s1); reflexivity.
Qed.

(** Requests in a row, each accepted for a supported source. *)
Lemma creates_all_running (reqs : list (Z * CreateBody)) (s : Service) :
  crashed s = false →
  Forall (λ nb, supported_body nb.2 = true) reqs →
  let s' := (run ((λ nb, (nb.1, Http (Create (Ok ()) nb.2))) <$> reqs) s).1 in
  crashed s' = false
  ∧ (fresh s ≤ fresh s')%nat
  ∧ (∀ r, (r < fresh s)%nat → objects s' !! r = objects s !! r)
  ∧ ∃ l, procs s' = procs s ++ l
         ∧ length l = length reqs
         ∧ Forall (λ p, p_pc p = AwaitManifest
                        ∧ status <$> objects s' !! p_task p = Some Downloading) l.
Proof.
  revert s. induction reqs as [|[now b] reqs IH]; intros s Hlive Hreqs.
  - simpl. split; [done|]. split; [done|]. split; [done|].
    exists []. by rewrite app_nil_r.
  - inversion_clear Hreqs as [|?? Hb Hrest]. simpl in Hb.
    rewrite fmap_cons. cbv zeta. cbn [fst snd]. rewrite run_cons.
    assert (Hstep : step now (Http (Create (Ok ()) b)) s
                    = ((route_create now (Ok ()) b s).1,
                       Some (route_create now (Ok ()) b s).2)).
    { unfold step. rewrite Hlive. cbn [route]. by destruct (route_create _ _ _ _). }
    rewrite Hstep. clear Hstep.
    destruct (create_supported now b s Hb) as (_ & _ & Ho & Hp & _ & Hf & Hc).
    destruct (route_create now (Ok ()) b s) as [s1 resp]. cbn [fst snd] in Ho, Hp, Hf, Hc |- *.
    rewrite Hlive in Hc.
    destruct (IH s1 Hc Hrest) as (Hlive' & Hle & Hsame & l & Hl & Hlen & Hall).
    set (s2 := (run _ s1).1) in *. clearbody s2.
    split; [done|]. split; [lia|]. split.
    { intros r Hr. rewrite Hsame by lia. rewrite Ho. by rewrite lookup_insert_ne by lia. }
    exists ({| p_taskId := pretty now; p_task := fresh s; p_pc := AwaitManifest |} :: l).
    split; [by rewrite Hl, Hp, <- app_assoc|]. split; [simpl; by rewrite Hlen|].
    constructor; [|done].
    simpl. split; [done|]. rewrite Hsame by lia. by rewrite Ho, lookup_insert_eq.
Qed.

(** X13: nothing limits the downloads that run at once.  After any
    number of accepted requests in a row, for supported sources, as many
    calls of [executeDownload] wait for their manifests and each of their
    tasks is marked downloading: [maxConcurrentDownloads] is not read. *)
Theorem downloads_not_limited (e : Env) (reqs : list (Z * CreateBody)) :
  Forall (λ nb, supported_body nb.2 = true) reqs →
  let s := (run ((λ nb, (nb.1, Http (Create (Ok ()) nb.2))) <$> reqs)
                (new_service e)).1 in
  length (procs s) = length reqs
  ∧ Forall (λ p, p_pc p = AwaitManifest
                 ∧ status <$> objects s !! p_task p = Some Downloading) (procs s).
Proof.
  intros Hreqs s.
  destruct (creates_all_running reqs (new_service e) eq_refl Hreqs)
    as (_ & _ & _ & l & Hl & Hlen & Hall).
  fold s in Hl, Hall. simpl in Hl. rewrite Hl. by split.
Qed.

(** ** A chunk for a task that is gone *)

(** X14: a blob request answered while the task is not in the store, by
    a controller that was not aborted, leaves the stream without a task;
    its first chunk then raises an exception that nothing catches.  The
    process is gone: no later request is answered and nothing changes any
    more. *)
Theorem chunk_without_task_ends_service (t1 t2 : Z) (pid : nat) (taskId : string)
    (r : nat) (info : ManifestInfo) (layer : Layer) (rest : list Layer)
    (ctl : nat) (outPath chunk : string) (s : Service) :
  crashed s = false →
  procs s !! pid
  = Some {| p_taskId := taskId; p_task := r;
            p_pc := AwaitBlob info layer rest ctl outPath |} →
  ctl ∉ aborted s →
  activeTasks s !! taskId = None →
  let s' := (run [(t1, Wake pid (BlobResponse (Ok ())));
                  (t2, Wake pid (Chunk chunk))] s).1 in
  crashed s' = true
  ∧ ∀ tr, run tr s' = (s', []).
Proof.
  intros Hlive Hp Hctl Hact.
  assert (Hlen : (pid < length (procs s))%nat) by (by eapply lookup_lt_Some).
  assert (Hdead : ∀ s0, crashed s0 = true → ∀ tr, run tr s0 = (s0, [])).
  { intros s0 H0 tr. induction tr as [|[now i] tr IH]; simpl; [done|].
    unfold step. rewrite H0. by rewrite IH. }
  assert (H1 : (step t1 (Wake pid (BlobResponse (Ok ()))) s).1
               = with_procs
                   (<[pid := {| p_taskId := taskId; p_task := r;
                                p_pc := Streaming info layer rest ctl outPath 0 None |}]>
                      (procs s))
                   (with_files (<[outPath := ""]> (files s)) s)).
  { unfold step. rewrite Hlive, Hp. unfold continue. simpl.
    rewrite bool_decide_eq_false_2 by done. by rewrite Hact. }
  intros s'. subst s'. rewrite !run_cons, H1. cbn [run fst].
  set (s1 := with_procs _ _).
  assert (H2 : crashed (step t2 (Wake pid (Chunk chunk)) s1).1 = true).
  { unfold step. subst s1. simpl. rewrite Hlive.
    rewrite list_lookup_insert_eq by done.
    unfold continue. simpl. by rewrite bool_decide_eq_false_2 by done. }
  split; [done|]. by apply Hdead.
Qed.

(** ** The repository names and the sizes of the image service *)

Lemma includes_char_library name : includes_char "/" ("library/" +:+ name) = true.
Proof. done. Qed.

(** X15: [normalizeDockerRepo] yields a name with a namespace and leaves
    such a name as it is, so normalising twice is normalising once; the
    image service's function of the same name agrees with it on every
    name but the empty one, which it leaves empty. *)
Theorem normalizeDockerRepo_idempotent (name : string) :
  includes_char "/" (normalizeDockerRepo name) = true
  ∧ normalizeDockerRepo (normalizeDockerRepo name) = normalizeDockerRepo name
  ∧ normalizeRepoName name
    = (if bool_decide (name = "") then "" else normalizeDockerRepo name).
Proof.
  assert (H : includes_char "/" (normalizeDockerRepo name) = true).
  { unfold normalizeDockerRepo. destruct (includes_char "/" name) eqn:Hn; [done|].
    apply includes_char_library. }
  split; [done|]. split.
  - unfold normalizeDockerRepo at 1. by rewrite H.
  - unfold normalizeRepoName, normalizeDockerRepo. by destruct name.
Qed.

(** X16: the size that the image service reports for a Docker Hub image
    is the total that a download of the same image and tag stores in its
    task, when the registry gives a token and the download's resolution
    succeeds: both read the layers of the same manifest. *)
Theorem size_is_download_total (net : Registry) (e : Env) (t : DownloadTask)
    (tok : string) (info : ManifestInfo) :
  source t = "dockerhub" →
  imageName t ≠ "" →
  token_endpoint net ("repository:" +:+ normalizeDockerRepo (imageName t) +:+ ":pull")
  = Ok (Some tok) →
  tok ≠ "" →
  resolve net e t = Ok info →
  getDockerHubImageSize net (imageName t) (tag t) = layers_total (info_layers info).
Proof.
  intros Hsrc Hname Htok Htokne Hres.
  unfold resolve, is_dockerhub in Hres. rewrite bool_decide_eq_true_2 in Hres by done.
  unfold getDockerToken in Hres. rewrite Htok in Hres.
  unfold getDockerHubImageSize.
  assert (Hrepo : normalizeRepoName (imageName t) = normalizeDockerRepo (imageName t)).
  { unfold normalizeRepoName. by destruct (imageName t). }
  rewrite Hrepo, Htok.
  unfold mbind, Result_bind, mret, Result_ret in *.
  rewrite str_or_nonempty in * by done. rewrite truthy_str_nonempty by done.
  cbn [negb]. cbv iota.
  unfold getDockerManifestInfo, manifest_info, mbind, Result_bind, mret, Result_ret in Hres.
  destruct (manifest_endpoint net docker_host _ (tag t) _ accept_list) as [listResp|]
    eqn:Hlist; [|done].
  assert (Hsame : ∀ reference,
            reference
            = str_or match manifests listResp with
                     | Some ms => select_digest ms
                     | None => None
                     end (tag t) →
            match manifest_endpoint net docker_host (normalizeDockerRepo (imageName t))
                    reference (Some (Bearer tok)) accept_v2 with
            | Ok manifestResp => Ok (layers_total (default [] (layers manifestResp)))
            | Err e0 => Err e0
            end = Ok (layers_total (info_layers info))).
  { intros reference ->.
    destruct (manifest_endpoint net docker_host _ (str_or _ (tag t)) _ accept_v2)
      as [manifestResp|]; [|done].
    repeat case_match; simplify_eq; done. }
  assert (Hgoal : ∀ x : Result Z, x = Ok (layers_total (info_layers info)) →
            match x with Ok n => n | Err _ => 0 end = layers_total (info_layers info)).
  { by intros x ->. }
  apply Hgoal.
  destruct (manifests listResp) as [[|m ms]|] eqn:Hms; try (by apply Hsame).
  destruct (select_digest (m :: ms)) as [digest|] eqn:Hd; [|by apply Hsame].
  destruct (truthy_str digest) eqn:Htr; apply Hsame; unfold str_or; by rewrite Htr.
Qed.

(** ** The routes of /api/images *)

Lemma lower_size_segment (segment : string) :
  lower segment = "size" →
  truthy_str segment && negb (includes_char "/" segment) = true.
Proof.
  assert (Hc : ∀ c x, lower_char c = x → x ≠ "/"%char → Ascii.eqb c "/" = false).
  { intros c x Hl Hx. destruct (Ascii.eqb_spec c "/") as [->|]; [|done].
    by rewrite <- Hl in Hx. }
  destruct segment as [|a [|b [|c [|d [|? ?]]]]]; try discriminate.
  intros [= Ha Hb Hc' Hd]. simpl.
  by rewrite (Hc a _ Ha), (Hc b _ Hb), (Hc c _ Hc'), (Hc d _ Hd).
Qed.

(** X17: the route /size of the images router is registered after
    /:name, which matches every path that /size matches: no request
    reaches the handler of /size, and GET /api/images/size is answered by
    the handler of the image details, for an image named "size". *)
Theorem size_route_never_reached (segment : string) :
  dispatch images_routes segment ≠ Some SizeHandler
  ∧ dispatch images_routes "size" = Some DetailsHandler.
Proof.
  split; [|done].
  unfold dispatch, images_routes. cbn [List.find path_matches fst snd].
  destruct (bool_decide (lower segment = lower "search")); [done|].
  destruct (bool_decide (lower segment = lower "popular")); [done|].
  destruct (truthy_str segment && negb (includes_char "/" segment)) eqn:Hp; [done|].
  case_bool_decide as Hs; [|done].
  by rewrite (lower_size_segment _ Hs) in Hp.
Qed.

(** ** The broadcasts *)

Lemma received_emit_to k targets m :
  received k (emit_to targets m)
  = (λ _, m) <$> filter (λ x, socket_id x = k) targets.
Proof.
  unfold received, emit_to.
  induction targets as [|x targets IH]; [done|].
  rewrite fmap_cons, !filter_cons.
  destruct (decide (socket_id x = k)) as [Heq|Hne].
  - rewrite !decide_True by done. rewrite !fmap_cons. by rewrite IH.
  - by rewrite !decide_False by done.
Qed.

(** X18: every broadcast of a download event is emitted twice, to the
    room of the task and to all: a connected socket that joined the room
    receives the message two times, every other connected socket
    once. *)
Theorem room_members_receive_twice (io : list Socket) (k : Socket)
    (m : WebSocketEvent) :
  NoDup (socket_id <$> io) →
  k ∈ io →
  received (socket_id k) (broadcast io m)
  = if bool_decide ("download:" +:+ message_task m ∈ rooms k) then [m; m] else [m].
Proof.
  intros Hnd Hk. unfold broadcast, received.
  rewrite filter_app, fmap_app. fold (received (socket_id k) (emit_to io m)).
  fold (received (socket_id k)
          (emit_to (filter (λ x, "download:" +:+ message_task m ∈ rooms x) io) m)).
  rewrite !received_emit_to.
  assert (Hnone : ∀ l, socket_id k ∉ socket_id <$> l →
            filter (λ x, socket_id x = socket_id k) l = []).
  { intros l Hl. induction l as [|x l IH]; [done|].
    rewrite fmap_cons in Hl. apply not_elem_of_cons in Hl as [Hx Hl].
    rewrite filter_cons, decide_False by done. by apply IH. }
  assert (Hone : ∀ l, NoDup (socket_id <$> l) → k ∈ l →
            filter (λ x, socket_id x = socket_id k) l = [k]).
  { intros l. induction l as [|x l IH]; intros Hl Hin.
    - by apply elem_of_nil in Hin.
    - rewrite fmap_cons in Hl. apply NoDup_cons in Hl as [Hx Hl].
      rewrite filter_cons. apply elem_of_cons in Hin as [<- | Hin].
      + rewrite decide_True by done. f_equal. by apply Hnone.
      + rewrite decide_False; [by apply IH|].
        intros Heq. apply Hx. rewrite Heq. by apply list_elem_of_fmap_2. }
  rewrite (Hone io) by done.
  rewrite list_filter_filter.
  rewrite (list_filter_iff _ (λ x, "download:" +:+ message_task m ∈ rooms x
                                   ∧ socket_id x = socket_id k)) by (intros x; tauto).
  rewrite <- list_filter_filter, (Hone io) by done.
  rewrite filter_cons, filter_nil.
  destruct (decide ("download:" +:+ message_task m ∈ rooms k)) as [Hroom|Hroom].
  - by rewrite bool_decide_eq_true_2.
  - by rewrite bool_decide_eq_false_2.
Qed.

(** ** A whole download *)

Section Download.

Variables (pid : nat) (taskId : string) (r : nat) (info : ManifestInfo)
          (net : Registry).

(** The token and the response of the blob request open the stream of the
    layer, under a new controller. *)
Lemma layer_start t1 t2 layer rest tok s t :
  at_layers pid taskId r info (layer :: rest) s →
  objects s !! r = Some t →
  source t = "dockerhub" →
  getDockerToken net (normalizeDockerRepo (imageName t)) = Ok tok →
  let s' := (run [(t1, Wake pid (TokenDone net));
                  (t2, Wake pid (BlobResponse (Ok ())))] s).1 in
  streaming_layer pid taskId r info layer rest (fresh s) (targetPath t) 0 "" s'
  ∧ objects s' = objects s
  ∧ aborted s' = aborted s
  ∧ fresh s' = S (fresh s).
Proof.
  intros (Hlive & Hp & Hact & Hold) Ht Hsrc Htok.
  assert (Hlen : (pid < length (procs s))%nat) by (by eapply lookup_lt_Some).
  assert (Hnew : fresh s ∉ aborted s).
  { intros Hin. apply Hold in Hin. lia. }
  assert (H1 : (step t1 (Wake pid (TokenDone net)) s).1
               = with_procs
                   (<[pid := {| p_taskId := taskId; p_task := r;
                                p_pc := AwaitBlob info layer rest (fresh s)
                                          (layer_path (targetPath t) layer) |}]>
                      (procs s))
                   (with_taskControllers (<[taskId := fresh s]> (taskControllers s))
                      (with_fresh (S (fresh s)) s))).
  { unfold step. rewrite Hlive, Hp. unfold continue. simpl. by rewrite Ht, Htok. }
  intros s'. subst s'. rewrite !run_cons, H1. cbn [run fst].
  unfold step. simpl. rewrite Hlive. rewrite list_lookup_insert_eq by done.
  unfold continue. simpl. rewrite bool_decide_eq_false_2 by done. simpl.
  split; [|done]. unfold streaming_layer. simpl.
  rewrite list_lookup_insert_eq by (by rewrite length_insert).
  rewrite Hact, lookup_insert_eq.
  split; [done|]. split; [done|]. split; [done|]. split; [done|].
  split; [|done]. by exists t.
Qed.

(** One layer, from its token to the end of its stream. *)
Lemma layer_done x layer rest tok s t :
  at_layers pid taskId r info (layer :: rest) s →
  objects s !! r = Some t →
  source t = "dockerhub" →
  getDockerToken net (normalizeDockerRepo (imageName t)) = Ok tok →
  let s' := (run (layer_trace pid net x) s).1 in
  at_layers pid taskId r info rest s'
  ∧ ∃ t', objects s' !! r = Some t'
          ∧ downloadedBytes t' = downloadedBytes t + stream_bytes x
          ∧ same_image t t'.
Proof.
  intros Hat Ht Hsrc Htok.
  pose proof (layer_start (at_token x) (at_response x) layer rest tok s t
                Hat Ht Hsrc Htok) as (H1 & Ho1 & Ha1 & Hf1).
  destruct Hat as (_ & _ & _ & Hold).
  unfold layer_trace.
  change ([(at_token x, Wake pid (TokenDone net));
           (at_response x, Wake pid (BlobResponse (Ok ())))]
          ++ ((λ c, (c.1, Wake pid (Chunk c.2))) <$> stream_chunks x)
          ++ [(at_end x, Wake pid StreamEnd)])
    with ([(at_token x, Wake pid (TokenDone net));
           (at_response x, Wake pid (BlobResponse (Ok ())))]
          ++ (((λ c, (c.1, Wake pid (Chunk c.2))) <$> stream_chunks x)
              ++ [(at_end x, Wake pid StreamEnd)])).
  cbv zeta. rewrite run_app. cbv zeta in H1, Ho1, Ha1, Hf1.
  set (s1 := (run [_; _] s).1) in *.
  assert (Ht1 : objects s1 !! r = Some t) by (by rewrite Ho1).
  rewrite run_app.
  destruct (streaming_chunks_task pid taskId r info layer rest (fresh s) (targetPath t)
              0 "" (stream_chunks x) s1 t H1 Ht1)
    as (H2 & Ha2 & Hf2 & t2 & Ht2 & Hd2 & Hsame).
  cbv zeta in H2, Ha2, Hf2, Ht2.
  set (s2 := (run _ s1).1) in *.
  pose proof (streaming_end pid taskId r info layer rest (fresh s) (targetPath t)
                (at_end x) _ _ _ H2) as (Hlive3 & Hp3 & Hact3 & _ & _).
  pose proof (streaming_end_task pid taskId r info layer rest (fresh s) (targetPath t)
                (at_end x) _ _ _ _ H2 Ht2) as (Hobj3 & Ha3 & Hf3).
  cbv zeta in Hobj3, Ha3, Hf3.
  rewrite run_cons. cbn [run fst].
  set (s3 := (step (at_end x) (Wake pid StreamEnd) s2).1) in *.
  split.
  - split; [done|]. split; [done|]. split; [done|].
    intros c. rewrite Ha3, Ha2, Ha1, Hf3, Hf2, Hf1. intros Hc%Hold. lia.
  - eexists. split; [exact Hobj3|]. split; [|exact Hsame].
    simpl. rewrite Hd2. unfold stream_bytes. lia.
Qed.

(** The layers in turn. *)
Lemma layers_done streams ls tok s t :
  length streams = length ls →
  at_layers pid taskId r info ls s →
  objects s !! r = Some t →
  source t = "dockerhub" →
  getDockerToken net (normalizeDockerRepo (imageName t)) = Ok tok →
  let s' := (run (streams ≫= layer_trace pid net) s).1 in
  at_layers pid taskId r info [] s'
  ∧ ∃ t', objects s' !! r = Some t'
          ∧ downloadedBytes t'
            = downloadedBytes t + foldr (λ x acc, stream_bytes x + acc) 0 streams
          ∧ same_image t t'.
Proof.
  revert ls s t. induction streams as [|x streams IH]; intros [|layer rest] s t Hlen;
    try discriminate; intros Hat Ht Hsrc Htok.
  - simpl. split; [done|]. exists t. split; [done|]. split; [lia|]. by repeat split.
  - injection Hlen as Hlen. cbv zeta. rewrite bind_cons, run_app.
    destruct (layer_done x layer rest tok s t Hat Ht Hsrc Htok)
      as (Hat1 & t1 & Ht1 & Hd1 & Hsame1).
    cbv zeta in Hat1, Ht1.
    set (s1 := (run (layer_trace pid net x) s).1) in *.
    destruct Hsame1 as (Hid & Himg & Htag & Hs & Htp & Htb).
    destruct (IH rest s1 t1 Hlen Hat1 Ht1) as (Hat2 & t2 & Ht2 & Hd2 & Hsame2).
    { by rewrite Hs. }
    { by rewrite Himg. }
    split; [done|]. exists t2. split; [done|]. split.
    + simpl. rewrite Hd2, Hd1. lia.
    + destruct Hsame2 as (? & ? & ? & ? & ? & ?). repeat split; congruence.
Qed.

(** X19: a download of a Docker Hub image in which nothing fails and
    nothing interferes.  The call stands at the creation of the blobs
    directory, its task is registered under its id, and the cancelled
    controllers are all older than the ones the call will register.  The
    run is made of the completions of this call alone, in their order
    ([download_trace]): the directory is created; for each layer in turn
    the token is issued, the blob request is answered, the stream delivers
    its chunks and ends cleanly; the two writes succeed.  No request of a
    client (a pause, a cancel, a resume that starts a second call) and no
    completion of another call comes between them.  Then, whatever the
    layers of the manifest and however their streams are cut into chunks,
    the call ends and leaves the task completed; the task has counted the
    bytes of all the streams, and its total is still the one it had. *)
Theorem download_completes (at_mkdir at_write : Z) (streams : list LayerStream)
    (tok : string) (s : Service) (t : DownloadTask) :
  crashed s = false →
  procs s !! pid
  = Some {| p_taskId := taskId; p_task := r; p_pc := AwaitMkdir info |} →
  activeTasks s !! taskId = Some r →
  objects s !! r = Some t →
  source t = "dockerhub" →
  (∀ c, c ∈ aborted s → (c < fresh s)%nat) →
  getDockerToken net (normalizeDockerRepo (imageName t)) = Ok tok →
  length streams = length (info_layers info) →
  let s' := (run (download_trace pid net at_mkdir streams at_write) s).1 in
  ∃ t', getTask taskId s' = Some t'
        ∧ status t' = Completed
        ∧ downloadedBytes t'
          = downloadedBytes t + foldr (λ x acc, stream_bytes x + acc) 0 streams
        ∧ totalBytes t' = totalBytes t
        ∧ p_pc <$> procs s' !! pid = Some Finished.
Proof.
  intros Hlive Hp Hact Ht Hsrc Hold Htok Hlen.
  assert (Hplen : (pid < length (procs s))%nat) by (by eapply lookup_lt_Some).
  unfold download_trace. cbv zeta. rewrite run_cons.
  assert (H1 : at_layers pid taskId r info (info_layers info)
                 (step at_mkdir (Wake pid (MkdirDone (Ok ()))) s).1
               ∧ objects (step at_mkdir (Wake pid (MkdirDone (Ok ()))) s).1 = objects s).
  { unfold step. rewrite Hlive, Hp. unfold continue. simpl.
    assert (Hnext : next_layer taskId r info (info_layers info) s
                    = (s, after_layer_pc info (info_layers info))).
    { destruct (info_layers info) as [|l rest']; simpl; [done|].
      rewrite Ht. unfold is_dockerhub. by rewrite Hsrc. }
    rewrite Hnext. unfold at_layers. simpl.
    rewrite list_lookup_insert_eq by done. done. }
  destruct H1 as [H1 Ho1].
  set (s1 := (step at_mkdir _ s).1) in *.
  rewrite run_app.
  destruct (layers_done streams (info_layers info) tok s1 t Hlen H1)
    as (H2 & t2 & Ht2 & Hd2 & Hsame); [by rewrite Ho1|done|done|].
  cbv zeta in H2, Ht2.
  set (s2 := (run _ s1).1) in *.
  destruct H2 as (Hlive2 & Hp2 & Hact2 & _). simpl in Hp2.
  rewrite run_cons. cbn [run fst].
  destruct (writes_done at_write pid taskId r info t2 s2 Hlive2 Hp2 Hact2 Ht2)
    as (Hget & Hpc).
  eexists. split; [exact Hget|]. split; [done|]. split; [exact Hd2|].
  split; [|exact Hpc]. by destruct Hsame as (_ & _ & _ & _ & _ & ?).
Qed.

End Download.

(** ** The files of the layers *)

Lemma safe_digest_inj (x y : string) :
  includes_char "/" x = false → includes_char "_" x = false →
  includes_char "/" y = false → includes_char "_" y = false →
  safe_digest x = safe_digest y → x = y.
Proof.
  revert y. induction x as [|a x IH]; intros [|b y]; simpl; try done.
  destruct (Ascii.eqb_spec a "/") as [->|Ha]; [done|].
  destruct (Ascii.eqb_spec a "_") as [->|Ha']; [done|].
  destruct (Ascii.eqb_spec b "/") as [->|Hb]; [done|].
  destruct (Ascii.eqb_spec b "_") as [->|Hb']; [done|].
  intros Hx1 Hx2 Hy1 Hy2 [= Hab Hxy].
  f_equal; [|by apply IH].
  destruct (Ascii.eqb_spec a ":") as [->|Ha2], (Ascii.eqb_spec b ":") as [->|Hb2];
    simpl in Hab; congruence.
Qed.

(** A plain digest holds neither a slash nor an underscore. *)
Lemma plain_digest_chars (d : string) :
  all_chars digest_char d = true →
  includes_char "/" d = false ∧ includes_char "_" d = false.
Proof.
  induction d as [|c d IH]; simpl; [done|].
  intros [Hc Hd]%andb_prop. destruct (IH Hd) as [-> ->].
  destruct (Ascii.eqb_spec c "/") as [->|_]; [done|].
  destruct (Ascii.eqb_spec c "_") as [->|_]; done.
Qed.

(** The safe form of a plain digest is a plain segment: it is not empty,
    holds no separator and no dot, so [path.join] has nothing to
    normalise in it. *)
Lemma safe_digest_plain (d : string) :
  plain_digest d = true →
  safe_digest d ≠ "" ∧ includes_char "/" (safe_digest d) = false
  ∧ includes_char "." (safe_digest d) = false.
Proof.
  unfold plain_digest. intros [Hd Hall]%andb_prop. split.
  - destruct d; [done|]. simpl. discriminate.
  - clear Hd. induction d as [|c d IH]; simpl; [done|].
    simpl in Hall. apply andb_prop in Hall as [Hc Hall].
    destruct (IH Hall) as [-> ->].
    destruct (Ascii.eqb_spec c ":") as [->|_]; [done|].
    destruct (Ascii.eqb_spec c "/") as [->|_]; [done|]. simpl.
    destruct (Ascii.eqb_spec c "/") as [->|_]; [done|].
    destruct (Ascii.eqb_spec c ".") as [->|_]; done.
Qed.

(** X20: two layers of a task whose digests differ are written to
    different paths, when both digests are written as the registries
    write them: not empty and made of letters, digits and colons
    ([plain_digest]).  Replacing the colons by underscores is injective
    on such digests, and their safe forms are plain segments, which
    [path.join] appends to the directory of the blobs as they are. *)
Theorem layer_files_distinct (target : string) (l1 l2 : Layer) :
  plain_digest (layer_digest l1) = true →
  plain_digest (layer_digest l2) = true →
  layer_digest l1 ≠ layer_digest l2 →
  layer_path target l1 ≠ layer_path target l2.
Proof.
  unfold plain_digest.
  intros [_ [H1 H2]%plain_digest_chars]%andb_prop
         [_ [H3 H4]%plain_digest_chars]%andb_prop Hne.
  unfold layer_path, path_join.
  intros H%(inj (String.append (target +:+ "/" +:+ "blobs")))%(inj (String.append "/")).
  by apply Hne, safe_digest_inj.
Qed.

(** ** The properties at work *)


Lemma layer_bytes_counted_witness :
  ∃ t' content,
    getTask "1000"
      (run ([(1005, Wake 0 (Chunk "ab")); (1006, Wake 0 (Chunk "c"))]
            ++ [(1007, Wake 0 StreamEnd)]) Cases.in_stream).1 = Some t'
    ∧ files (run ([(1005, Wake 0 (Chunk "ab")); (1006, Wake 0 (Chunk "c"))]
                  ++ [(1007, Wake 0 StreamEnd)]) Cases.in_stream).1
        !! Scenario.blobA = Some content
    ∧ content = "abc"
    ∧ downloadedBytes t' = 0 + Z.of_nat (String.length content).
Proof.
  apply (layer_bytes_counted 0 "1000" 0 Cases.infoA Scenario.layerA [] 1
           "downloads/tasks/1000" [(1005, "ab"); (1006, "c")] 1007 Cases.in_stream
           (Cases.task Downloading 3 1000)); [|reflexivity].
  split; [reflexivity|]. split; [reflexivity|].
  split; [apply (proj1 (bool_decide_eq_false _)); vm_compute; reflexivity|].
  split; [reflexivity|].
  split; [|reflexivity].
  eexists. repeat split; reflexivity.
Defined.

Lemma cancel_forgets_task_witness :
  (route_cancel 1006 "1000" Cases.in_stream).2 = reply 200 None None
  ∧ getTask "1000" (route_cancel 1006 "1000" Cases.in_stream).1 = None
  ∧ (1%nat ∈ aborted (route_cancel 1006 "1000" Cases.in_stream).1).
Proof.
  destruct (cancel_forgets_task 1006 "1000" (Cases.task Downloading 3 1000)
              Cases.in_stream eq_refl) as (H1 & H2 & _ & H4 & _); [discriminate|].
  split; [exact H1|]. split; [exact H2|]. apply H4. reflexivity.
Defined.

Lemma resolution_restores_task_witness :
  getTask "1000" Cases.cancelled_early = None
  ∧ getTask "1000" (step 1002 (Wake 0 (Resolved Scenario.registryA)) Cases.cancelled_early).1
    = Some (set_totalBytes 3 (Cases.task Cancelled 0 1001)).
Proof.
  split; [reflexivity|].
  apply (resolution_restores_task 1002 0 "1000" 0 Scenario.registryA
           (Cases.task Cancelled 0 1001) Cases.infoA Cases.cancelled_early);
    reflexivity.
Defined.

Lemma resume_starts_new_call_witness :
  (route_resume 1002 "1000" Cases.paused_early).2
  = reply 200 (Some (Cases.task Downloading 0 1002)) None
  ∧ procs (route_resume 1002 "1000" Cases.paused_early).1
    = [ {| p_taskId := "1000"; p_task := 0; p_pc := AwaitManifest |};
        {| p_taskId := "1000"; p_task := 0; p_pc := AwaitManifest |} ].
Proof.
  apply (resume_starts_new_call 1002 "1000" 0 (Cases.task Paused 0 1001)
           Cases.paused_early); reflexivity.
Defined.

Lemma delete_of_named_task_witness :
  code (route_delete "1000" Cases.paused_early).2 = 200
  ∧ getTask "1000" (route_delete "1000" Cases.paused_early).1
    = Some (Cases.task Paused 0 1001).
Proof.
  apply (delete_of_named_task "1000" (Cases.task Paused 0 1001) Cases.paused_early).
  reflexivity.
Defined.

Lemma completion_step_witness :
  (∃ t, getTask "1000" (step 1008 (Wake 0 (WriteDone (Ok ()) (Ok ()))) Cases.before_writes).1
        = Some t
        ∧ status t = Completed ∧ progress t = (100 # 3)%Q)
  ∧ files (step 1008 (Wake 0 (WriteDone (Ok ()) (Ok ()))) Cases.before_writes).1
      !! "downloads/tasks/1000/config.json" = Some Scenario.configA
  ∧ files (step 1008 (Wake 0 (WriteDone (Ok ()) (Ok ()))) Cases.before_writes).1
      !! "downloads/tasks/1000/manifest.json" = Some Scenario.manifestA_json.
Proof.
  destruct (completion_step 1008 0 "1000" 0 Cases.infoA
              (mkTask "1000" "nginx" "latest" "dockerhub" Downloading (100 # 3)
                      0 3 3 "downloads/tasks/1000" 1000 1006 None None
                      (Some 1) None)
              Cases.before_writes eq_refl eq_refl eq_refl eq_refl)
    as (H1 & H2 & H3 & H4 & _).
  split; [|split; [exact H3|exact H4]].
  eexists. split; [exact H1|]. split; reflexivity.
Defined.


Lemma downloads_not_limited_witness :
  length (procs (run ((λ nb, (nb.1, Http (Create (Ok ()) nb.2)))
                      <$> [ (1000, Scenario.body "dockerhub");
                            (1001, Scenario.body "dockerhub");
                            (1002, Scenario.body "aliyun");
                            (1003, Scenario.body "dockerhub") ])
                     (new_service Scenario.env0)).1) = 4%nat.
Proof.
  apply (downloads_not_limited Scenario.env0
           [ (1000, Scenario.body "dockerhub"); (1001, Scenario.body "dockerhub");
             (1002, Scenario.body "aliyun"); (1003, Scenario.body "dockerhub") ]).
  repeat constructor.
Defined.

Lemma chunk_without_task_ends_service_witness :
  crashed (run [(1005, Wake 0 (BlobResponse (Ok ()))); (1006, Wake 0 (Chunk "ab"))]
               Cases.cancelled_before_blob).1 = true.
Proof.
  apply (chunk_without_task_ends_service 1005 1006 0 "1000" 0 Cases.infoA
           Scenario.layerA [] 1 Scenario.blobA "ab" Cases.cancelled_before_blob);
    try reflexivity.
  apply (proj1 (bool_decide_eq_false _)); vm_compute; reflexivity.
Defined.

Lemma size_is_download_total_witness :
  getDockerHubImageSize Scenario.registryA "nginx" "latest" = 3.
Proof.
  apply (size_is_download_total Scenario.registryA Scenario.env0
           (Cases.task Downloading 0 1000) "tok" Cases.infoA);
    first [reflexivity | discriminate].
Defined.

Lemma room_members_receive_twice_witness :
  received 1 (broadcast Cases.clients (download_complete "1000" "downloads/tasks/1000" ""))
  = [ download_complete "1000" "downloads/tasks/1000" "";
      download_complete "1000" "downloads/tasks/1000" "" ].
Proof.
  etrans;
    [apply (room_members_receive_twice Cases.clients
              {| socket_id := 1; rooms := {["download:1000"]} |}
              (download_complete "1000" "downloads/tasks/1000" ""))
    | reflexivity].
  - apply (proj1 (bool_decide_spec _)). vm_compute. exact I.
  - apply elem_of_cons. by left.
Defined.

Lemma download_completes_witness :
  ∃ t', getTask "1000"
          (run (download_trace 0 Scenario.registryA 1002
                  [ {| at_token := 1003; at_response := 1004;
                       stream_chunks := [(1005, "ab"); (1006, "c")];
                       at_end := 1007 |} ] 1008)
               Cases.after_resolution).1 = Some t'
        ∧ status t' = Completed
        ∧ downloadedBytes t' = 0 + (3 + 0)
        ∧ totalBytes t' = 3
        ∧ p_pc <$> procs (run (download_trace 0 Scenario.registryA 1002
                                 [ {| at_token := 1003; at_response := 1004;
                                      stream_chunks := [(1005, "ab"); (1006, "c")];
                                      at_end := 1007 |} ] 1008)
                              Cases.after_resolution).1 !! 0%nat = Some Finished.
Proof.
  apply (download_completes 0 "1000" 0 Cases.infoA Scenario.registryA 1002 1008
           [ {| at_token := 1003; at_response := 1004;
                stream_chunks := [(1005, "ab"); (1006, "c")]; at_end := 1007 |} ]
           "tok" Cases.after_resolution (Cases.task Downloading 3 1000));
    try reflexivity.
  intros c Hc. exfalso. revert Hc.
  change (aborted Cases.after_resolution) with (∅ : gset nat). apply not_elem_of_empty.
Defined.

Lemma layer_files_distinct_witness :
  layer_path "downloads/tasks/1000" Scenario.layerA
  ≠ layer_path "downloads/tasks/1000"
      {| layer_digest := "sha256:ab"; layer_size := None |}.
Proof.
  apply (layer_files_distinct "downloads/tasks/1000" Scenario.layerA
           {| layer_digest := "sha256:ab"; layer_size := None |});
    first [reflexivity | discriminate].
Defined.

(** ** The image search *)

Lemma insert_sorted_perm {A} (cmp : A → A → Z) x l :
  insert_sorted cmp x l ≡ₚ x :: l.
Proof.
  induction l as [|y l IH]; simpl; [done|].
  destruct (cmp x y <? 0); [done|]. rewrite IH. apply Permutation_swap.
Qed.

Lemma insertion_sort_perm {A} (cmp : A → A → Z) (l : list A) :
  insertion_sort cmp l ≡ₚ l.
Proof.
  induction l as [|x l IH]; simpl; [done|].
  by rewrite insert_sorted_perm, IH.
Qed.

Lemma js_slice_subseteq {A} (start final : Z) (l : list A) :
  js_slice start final l ⊆ l.
Proof.
  unfold js_slice. etrans; [apply subseteq_take | apply subseteq_drop].
Qed.

Lemma js_slice_length {A} (start size : Z) (l : list A) :
  0 ≤ size → Z.of_nat (length (js_slice start (start + size) l)) ≤ size.
Proof.
  intros Hsize. unfold js_slice. cbv zeta. rewrite length_take, length_drop.
  etrans; [apply Nat2Z.inj_le, Nat.le_min_l|].
  destruct (Z.ltb_spec start 0), (Z.ltb_spec (start + size) 0); lia.
Qed.

Lemma js_slice_beyond {A} (start final : Z) (l : list A) :
  Z.of_nat (length l) ≤ start → js_slice start final l = [].
Proof.
  intros Hlen. unfold js_slice. cbv zeta.
  destruct (Z.ltb_spec start 0); [lia|].
  rewrite (Z.min_r start) by lia. rewrite Nat2Z.id, drop_all. by rewrite take_nil.
Qed.

Lemma js_slice_first {A} (size : Z) (x : A) (l : list A) :
  1 ≤ size → head (js_slice 0 size (x :: l)) = Some x.
Proof.
  intros Hsize. unfold js_slice. cbv zeta.
  change (0 <? 0) with false. cbv iota.
  destruct (Z.ltb_spec size 0); [lia|].
  rewrite (Z.min_l 0) by lia. change (Z.to_nat 0) with 0%nat. rewrite drop_0.
  destruct (Z.to_nat _) eqn:Hn; [|done].
  rewrite length_cons in Hn. lia.
Qed.

Lemma Forall_filter_bool {A} (P : A → Prop) (f : A → bool) l :
  Forall P l → Forall P (List.filter f l).
Proof.
  induction 1 as [|x l Hx _ IH]; simpl; [constructor|].
  destruct (f x); [by constructor|done].
Qed.

Lemma length_filter_bool {A} (f : A → bool) (l : list A) :
  (length (List.filter f l) ≤ length l)%nat.
Proof. induction l as [|x l IH]; simpl; [done|]. destruct (f x); simpl; lia. Qed.

Lemma filter_bool_none {A} (f : A → bool) (l : list A) :
  Forall (λ x, f x = false) l → List.filter f l = [].
Proof. induction 1 as [|x l Hx _ IH]; simpl; [done|]. by rewrite Hx. Qed.

Lemma Forall_first_of_each (P : ImageInfo → Prop) seen l :
  Forall P l → Forall P (first_of_each seen l).
Proof.
  intros H. revert seen. induction H as [|x l Hx _ IH]; intros seen; simpl; [constructor|].
  case_bool_decide; [done|]. by constructor.
Qed.

Lemma length_first_of_each seen l :
  (length (first_of_each seen l) ≤ length l)%nat.
Proof.
  revert seen. induction l as [|x l IH]; intros seen; simpl; [done|].
  case_bool_decide; simpl.
  - specialize (IH seen). lia.
  - specialize (IH ({[img_source x +:+ ":" +:+ img_name x]} ∪ seen)). lia.
Qed.

Section ImageSearchFacts.

Variable toLowerCase : string → string.
Variable localeCompare : string → string → Z.
Variable array_sort : (ImageInfo → ImageInfo → Z) → list ImageInfo → list ImageInfo.
Variable formatBytes : Z → string.
Variable now : string.
Variable hub : Hub.
Variable net : Registry.

Hypothesis sort_permutes : ∀ cmp l, array_sort cmp l ≡ₚ l.

Let from_hub := searchDockerHub toLowerCase formatBytes now hub net.
Let from_quay := searchQuay toLowerCase now hub.
Let results := filtered_results toLowerCase localeCompare array_sort formatBytes now hub net.
Let search := searchImages toLowerCase localeCompare array_sort formatBytes now hub net.
Let details := route_details toLowerCase localeCompare array_sort formatBytes now hub net.

Lemma with_size_plain img : plain img → plain (with_size formatBytes net img).
Proof. unfold with_size. by destruct (0 <? _). Qed.

Lemma searchDockerHub_plain query page pageSize :
  Forall plain (from_hub query page pageSize).
Proof.
  subst from_hub. unfold searchDockerHub, mbind, Result_bind, mret, Result_ret.
  assert (Hsized : ∀ n l, Forall plain l →
            Forall plain ((with_size formatBytes net <$> take n l) ++ drop n l)).
  { intros n l Hl. apply Forall_app. split; [|by apply Forall_drop].
    apply Forall_fmap. eapply Forall_impl; [by apply Forall_take|].
    apply with_size_plain. }
  destruct (content_search hub query page pageSize) as [contentRes|]; [|constructor].
  case_bool_decide as Hempty.
  - destruct (v2_search hub query page pageSize) as [response|]; [|constructor].
    apply Hsized, Forall_filter_bool, Forall_fmap, Forall_true. by intros x.
  - apply Hsized, Forall_filter_bool, Forall_fmap, Forall_true. by intros x.
Qed.

Lemma searchQuay_plain query : Forall plain (from_quay query).
Proof.
  subst from_quay. unfold searchQuay.
  destruct (quay_search hub query) as [repos|]; [|constructor].
  apply Forall_filter_bool, Forall_fmap, Forall_true. by intros x.
Qed.

(** The results of the sources, as the search filters and sorts them. *)
Lemma results_through (P : ImageInfo → Prop) query source architecture tag page pageSize :
  Forall P (from_hub query page pageSize) →
  Forall P (from_quay query) →
  Forall P (results query source architecture tag page pageSize).
Proof.
  intros Hhub Hquay. subst results. unfold filtered_results.
  set (allResults := _ ≫= _).
  assert (Hall : Forall P allResults).
  { subst allResults. apply Forall_bind.
    apply Forall_true. intros src. simpl.
    repeat case_bool_decide; [exact Hhub | exact Hquay | constructor]. }
  assert (Hsorted : Forall P (array_sort (by_relevance toLowerCase localeCompare
                                            (toLowerCase query))
                                (first_of_each ∅ (List.filter
                                   (λ img, includes (toLowerCase query)
                                                    (toLowerCase (img_name img)))
                                   allResults)))).
  { rewrite sort_permutes. by apply Forall_first_of_each, Forall_filter_bool. }
  repeat case_match; repeat apply Forall_filter_bool; done.
Qed.

Lemma results_plain query source architecture tag page pageSize :
  Forall plain (results query source architecture tag page pageSize).
Proof. apply results_through; [apply searchDockerHub_plain | apply searchQuay_plain]. Qed.

(** The filters of the request, applied to the sorted results. *)
Lemma results_filters query source architecture tag page pageSize :
  results query source architecture tag page pageSize
  = let base := results query source None None page pageSize in
    let byArchitecture :=
      if truthy_str (str_or architecture "")
      then List.filter (λ img, negb (truthy_str (img_architecture img))
                               || bool_decide (img_architecture img = str_or architecture ""))
                       base
      else base in
    if truthy_str (str_or tag "") && negb (bool_decide (str_or tag "" = "latest"))
    then List.filter (λ img, bool_decide (img_tag img = str_or tag "")) byArchitecture
    else byArchitecture.
Proof. reflexivity. Qed.

(** What a search returns: images with the empty tag, and at its head
    maybe what [fallbackMap] holds for the query. *)
Lemma search_entries query source architecture tag page pageSize e :
  e ∈ images (search query source architecture tag page pageSize) →
  (∃ img, e = Image img ∧ plain img
          ∧ img ∈ results query source architecture tag page pageSize)
  ∨ fallbackMap now (toLowerCase query) = Some e.
Proof.
  subst search. unfold searchImages. cbn [images].
  intros He%js_slice_subseteq.
  assert (Hres : ∀ e, e ∈ Image <$> results query source architecture tag page pageSize →
            ∃ img, e = Image img ∧ plain img
                   ∧ img ∈ results query source architecture tag page pageSize).
  { intros e0 (img & -> & Hin)%list_elem_of_fmap. exists img. split; [done|]. split; [|done].
    pose proof (results_plain query source architecture tag page pageSize) as Hp.
    by eapply Forall_forall in Hp. }
  subst results.
  destruct (length _ <? 3)%nat; [|by left; apply Hres].
  destruct (fallbackMap now (toLowerCase query)) as [entry|]; [|by left; apply Hres].
  destruct (existsb _ _); [by left; apply Hres|].
  apply elem_of_cons in He as [-> | He]; [by right | by left; apply Hres].
Qed.

(** X21: the details of an image are found only when the request gives
    the empty tag.  Every image of a search has the empty tag, so the
    lookup by name and tag finds nothing for any other tag, the default
    "latest" included: GET /api/images/:name is answered 404 unless it is
    called with [?tag=]. *)
Theorem details_need_empty_tag (name : string) (tag source : option string) :
  tag ≠ Some "" → details name tag source = 404.
Proof.
  intros Htag. subst details. unfold route_details, getImageDetails.
  destruct (List.find _ _) as [e|] eqn:Hfind; [|done].
  apply find_some in Hfind as [Hin Hpred]. apply list_elem_of_In in Hin.
  apply andb_true_iff in Hpred as [_ Ht%bool_decide_eq_true].
  assert (Hne : default "latest" tag ≠ "").
  { destruct tag as [t|]; simpl; [intros ->; by apply Htag | discriminate]. }
  apply search_entries in Hin as [(img & -> & [Himg _] & _) | Hfb].
  - simpl in Ht. congruence.
  - unfold fallbackMap in Hfb. repeat case_bool_decide; simplify_eq; simpl in Ht;
      congruence.
Qed.

(** X22: a request for a tag other than "latest", or for an architecture
    other than amd64, drops every result of the sources: what is returned
    is at most the entry of [fallbackMap] for the query. *)
Theorem filters_leave_fallback (query : string) (source architecture tag : option string)
    (page pageSize : Z) :
  (∃ t, tag = Some t ∧ t ≠ "" ∧ t ≠ "latest")
  ∨ (∃ a, architecture = Some a ∧ a ≠ "" ∧ a ≠ "amd64") →
  results query source architecture tag page pageSize = []
  ∧ images (search query source architecture tag page pageSize)
    ⊆ option_list (fallbackMap now (toLowerCase query))
  ∧ (total (search query source architecture tag page pageSize) ≤ 1)%nat.
Proof.
  intros Hreq.
  assert (Hnone : results query source architecture tag page pageSize = []).
  { rewrite results_filters. cbv zeta.
    pose proof (results_plain query source None None page pageSize) as Hbase.
    set (base := results query source None None page pageSize) in *.
    destruct Hreq as [(t & -> & Hne & Hlatest) | (a & -> & Hne & Hamd)].
    - rewrite (str_or_nonempty t), (truthy_str_nonempty t) by done.
      rewrite (bool_decide_eq_false_2 (t = "latest")) by done. simpl andb. cbv iota.
      apply filter_bool_none.
      assert (Hby : Forall plain
                (if truthy_str (str_or architecture "")
                 then List.filter (λ img, negb (truthy_str (img_architecture img))
                                          || bool_decide (img_architecture img
                                                          = str_or architecture ""))
                                  base
                 else base)).
      { destruct (truthy_str (str_or architecture ""));
          [apply Forall_filter_bool | ]; exact Hbase. }
      eapply Forall_impl; [exact Hby|]. intros img [Ht _]. simpl.
      apply bool_decide_eq_false_2. congruence.
    - rewrite (str_or_nonempty a), (truthy_str_nonempty a) by done.
      assert (Hempty : List.filter (λ img, negb (truthy_str (img_architecture img))
                                           || bool_decide (img_architecture img = a)) base
                       = []).
      { apply filter_bool_none. eapply Forall_impl; [exact Hbase|]. intros img [_ Ha].
        simpl. rewrite Ha. simpl. apply bool_decide_eq_false_2. congruence. }
      rewrite Hempty. by destruct (_ && _). }
  subst search results. unfold searchImages. cbn [images total]. rewrite Hnone. simpl.
  destruct (fallbackMap now (toLowerCase query)) as [entry|]; simpl.
  - split; [done|]. split; [apply js_slice_subseteq | done].
  - split; [done|]. split; [apply js_slice_subseteq | lia].
Qed.

Lemma searchDockerHub_length query page pageSize :
  honours_page_size hub → 0 ≤ pageSize →
  Z.of_nat (length (from_hub query page pageSize)) ≤ pageSize.
Proof.
  intros [Hcontent Hv2] Hsize. subst from_hub.
  unfold searchDockerHub, mbind, Result_bind, mret, Result_ret.
  assert (Hsized : ∀ n (l : list ImageInfo),
            length ((with_size formatBytes net <$> take n l) ++ drop n l) = length l).
  { intros n l. by rewrite length_app, length_fmap, <- length_app, take_drop. }
  assert (Hmapped : ∀ (f : RawItem → ImageInfo) items,
            Z.of_nat (length items) ≤ pageSize →
            Z.of_nat (length (List.filter (name_matches toLowerCase query) (f <$> items)))
            ≤ pageSize).
  { intros f items Hitems.
    pose proof (length_filter_bool (name_matches toLowerCase query) (f <$> items)) as Hle.
    rewrite length_fmap in Hle. lia. }
  destruct (content_search hub query page pageSize) as [contentRes|] eqn:Hc; [|simpl; lia].
  destruct (Hcontent _ _ _ _ Hsize Hc) as [H1 H2].
  case_bool_decide as Hempty.
  - destruct (v2_search hub query page pageSize) as [response|] eqn:Hv; [|simpl; lia].
    rewrite Hsized. apply Hmapped. by eapply Hv2.
  - rewrite Hsized. apply Hmapped.
    destruct contentRes as [[summaries|] [found|]]; simpl in *; lia.
Qed.

(** X23: the page of a request is applied twice, by the search endpoint
    and by the slice of [searchImages].  When Docker Hub is the only
    source searched and its endpoints answer with at most [page_size]
    items, every page after the first is empty. *)
Theorem later_pages_empty (query : string) (architecture tag : option string)
    (page pageSize : Z) :
  honours_page_size hub →
  2 ≤ page → 3 ≤ pageSize →
  images (search query (Some "dockerhub") architecture tag page pageSize) = [].
Proof.
  intros Hhub Hpage Hsize.
  pose proof (searchDockerHub_length query page pageSize Hhub ltac:(lia)) as Hlen.
  assert (Hres : Z.of_nat (length (results query (Some "dockerhub") architecture tag
                                     page pageSize)) ≤ pageSize).
  { rewrite results_filters. cbv zeta.
    assert (Hbase : Z.of_nat (length (results query (Some "dockerhub") None None
                                        page pageSize)) ≤ pageSize).
    { subst results. unfold filtered_results. simpl.
      rewrite sort_permutes.
      etrans; [apply Nat2Z.inj_le, length_first_of_each|].
      etrans; [apply Nat2Z.inj_le, length_filter_bool|].
      by rewrite app_nil_r. }
    set (base := results query (Some "dockerhub") None None page pageSize) in *.
    pose proof (length_filter_bool
                  (λ img, negb (truthy_str (img_architecture img))
                          || bool_decide (img_architecture img = str_or architecture ""))
                  base) as Ha.
    destruct (truthy_str (str_or architecture ""));
      destruct (_ && _);
      repeat (etrans; [apply Nat2Z.inj_le, length_filter_bool|]); lia. }
  subst search results. unfold searchImages. cbn [images].
  apply js_slice_beyond.
  set (l := filtered_results _ _ _ _ _ _ _ _ _ _ _ _ _) in *.
  assert (Hl : length (Image <$> l) = length l) by apply length_fmap.
  destruct (Nat.ltb_spec (length (Image <$> l)) 3) as [Hlt|Hge].
  - destruct (fallbackMap now (toLowerCase query)) as [entry|];
      [destruct (existsb _ _)|]; simpl; nia.
  - nia.
Qed.

(** X24: a page holds at most [pageSize] entries, all of them among the
    results that [total] counts. *)
Theorem page_within_size (query : string) (source architecture tag : option string)
    (page pageSize : Z) :
  0 ≤ pageSize →
  let found := search query source architecture tag page pageSize in
  Z.of_nat (length (images found)) ≤ pageSize
  ∧ (length (images found) ≤ total found)%nat.
Proof.
  intros Hsize found. subst found search. unfold searchImages. cbn [images total].
  set (l := if (_ <? 3)%nat then _ else _).
  split; [by apply js_slice_length|].
  unfold js_slice. cbv zeta. rewrite length_take, length_drop. lia.
Qed.

(** X25: the lookup [fallbackMap[lc]] also finds what every object
    inherits.  A query that reads "constructor" in lower case, with fewer
    than three results of which none is named "Object", gets as the first
    entry of its first page the constructor of objects, which is no
    image. *)
Theorem inherited_entry_returned (query : string) (source architecture tag : option string)
    (pageSize : Z) :
  toLowerCase query = "constructor" →
  (length (results query source architecture tag 1 pageSize) < 3)%nat →
  Forall (λ img, img_name img ≠ "Object")
         (results query source architecture tag 1 pageSize) →
  1 ≤ pageSize →
  head (images (search query source architecture tag 1 pageSize))
  = Some (Inherited (Some "Object")).
Proof.
  intros Hlc Hfew Hnames Hsize. subst search results.
  unfold searchImages. cbn [images]. rewrite Hlc.
  set (l := filtered_results _ _ _ _ _ _ _ _ _ _ _ _ _) in *.
  rewrite length_fmap. rewrite (proj2 (Nat.ltb_lt _ _) Hfew).
  change (fallbackMap now "constructor") with (Some (Inherited (Some "Object"))).
  cbv iota.
  assert (Hnone : existsb (λ r, bool_decide (entry_name r
                                             = entry_name (Inherited (Some "Object"))))
                          (Image <$> l) = false).
  { clear Hfew. induction Hnames as [|img l' Himg _ IH]; [done|].
    rewrite fmap_cons. cbn [existsb]. rewrite IH.
    rewrite bool_decide_eq_false_2; [done|]. simpl. congruence. }
  rewrite Hnone. change ((1 - 1) * pageSize) with 0. by apply js_slice_first.
Qed.

End ImageSearchFacts.

Lemma details_need_empty_tag_witness :
  Searches.details Searches.hubQ "alpine" None None = 404
  ∧ Searches.details Searches.hubQ "alpine" (Some "") None = 200.
Proof.
  split; [|reflexivity].
  apply (details_need_empty_tag lower compare_bytes insertion_sort Searches.format
           "2024-01-01T00:00:00.000Z" Searches.hubQ Scenario.registryA
           (@insertion_sort_perm ImageInfo) "alpine" None None).
  discriminate.
Defined.

Lemma filters_leave_fallback_witness :
  images (Searches.search Searches.hubA "nginx" None None (Some "1.25") 1 20)
  ⊆ option_list (fallbackMap "2024-01-01T00:00:00.000Z" (lower "nginx")).
Proof.
  apply (filters_leave_fallback lower compare_bytes insertion_sort Searches.format
           "2024-01-01T00:00:00.000Z" Searches.hubA Scenario.registryA
           (@insertion_sort_perm ImageInfo) "nginx" None None (Some "1.25") 1 20).
  left. exists "1.25". split; [reflexivity|]. split; discriminate.
Defined.

Lemma later_pages_empty_witness :
  images (Searches.search Searches.hubA "nginx" (Some "dockerhub") None None 2 20) = [].
Proof.
  apply (later_pages_empty lower compare_bytes insertion_sort Searches.format
           "2024-01-01T00:00:00.000Z" Searches.hubA Scenario.registryA
           (@insertion_sort_perm ImageInfo) "nginx" None None 2 20); [|lia|lia].
  split.
  - intros q p n r Hn [= <-]. simpl. rewrite length_take. simpl. lia.
  - intros q p n r Hn [= <-]. simpl. lia.
Defined.

Lemma page_within_size_witness :
  Z.of_nat (length (images (Searches.search Searches.hubA "nginx" None None None 1 1))) ≤ 1.
Proof.
  apply (page_within_size lower compare_bytes insertion_sort Searches.format
           "2024-01-01T00:00:00.000Z" Searches.hubA Scenario.registryA
           "nginx" None None None 1 1).
  lia.
Defined.

Lemma inherited_entry_returned_witness :
  head (images (Searches.search Searches.hub0 "Constructor" None None None 1 20))
  = Some (Inherited (Some "Object")).
Proof.
  apply (inherited_entry_returned lower compare_bytes insertion_sort Searches.format
           "2024-01-01T00:00:00.000Z" Searches.hub0 Scenario.registryA
           "Constructor" None None None 20);
    [reflexivity | vm_compute; lia | constructor | lia].
Defined.

(** ** Pause, and what follows an abort *)

(** X26: a pause of a downloading task is answered 200 with the task
    marked paused, its other fields unchanged; the task stays in the
    store, [taskPaused] is emitted once, the controller of the task, if it
    has one, is aborted and unregistered, and the running calls of
    [executeDownload] stay where they are. *)
Theorem pause_marks_and_aborts (now : Z) (taskId : string) (t : DownloadTask)
    (s : Service) :
  getTask taskId s = Some t →
  status t = Downloading →
  let s' := (route_pause now taskId s).1 in
  let t' := status_update now Paused None t in
  (route_pause now taskId s).2 = reply 200 (Some t') None
  ∧ getTask taskId s' = Some t'
  ∧ emitted s' = emitted s ++ [{| ev_name := taskPaused; ev_task := t' |}]
  ∧ taskControllers s' !! taskId = None
  ∧ (∀ c, taskControllers s !! taskId = Some c → c ∈ aborted s')
  ∧ procs s' = procs s.
Proof.
  intros Hget Hst. unfold route_pause. rewrite Hget.
  rewrite bool_decide_eq_false_2 by (by intros []).
  cbv zeta. cbn [fst snd].
  destruct (pauseDownload_settled now taskId s) as [Hctl _].
  unfold getTask in Hget.
  destruct (activeTasks s !! taskId) as [r|] eqn:Hact; simpl in Hget; [|done].
  assert (Hpause : pauseDownload now taskId s
                   = emit taskPaused r
                       (with_activeTasks
                          (<[taskId := r]>
                             (activeTasks
                                (mutate r (λ x, set_updatedAt now (set_status Paused x))
                                   (abort_controller taskId s))))
                          (mutate r (λ x, set_updatedAt now (set_status Paused x))
                             (abort_controller taskId s)))).
  { unfold pauseDownload.
    rewrite abort_controller_activeTasks, Hact, abort_controller_objects, Hget.
    by rewrite bool_decide_eq_true_2. }
  rewrite Hpause in Hctl |- *.
  assert (Hget' : getTask taskId
                    (emit taskPaused r
                       (with_activeTasks
                          (<[taskId := r]>
                             (activeTasks
                                (mutate r (λ x, set_updatedAt now (set_status Paused x))
                                   (abort_controller taskId s))))
                          (mutate r (λ x, set_updatedAt now (set_status Paused x))
                             (abort_controller taskId s))))
                  = Some (status_update now Paused None t)).
  { unfold getTask. rewrite emit_activeTasks, emit_objects. simpl.
    rewrite lookup_insert_eq. simpl.
    by rewrite lookup_alter_eq, abort_controller_objects, Hget. }
  rewrite Hget'. split; [done|]. split; [done|].
  split; [|split; [exact Hctl|split]].
  - unfold emit. simpl. rewrite lookup_alter_eq, abort_controller_objects, Hget. simpl.
    by rewrite abort_controller_emitted.
  - intros c Hc. rewrite emit_aborted. simpl.
    unfold abort_controller. rewrite Hc. simpl. set_solver.
  - rewrite emit_procs. simpl. by rewrite abort_controller_procs.
Qed.

(** X27: an abort is handled as a failure of the download.  When the
    response of a blob request arrives and the controller of the request
    was aborted, by a pause or a cancel, the call takes the [catch] block
    whatever the response is: a task that is still in the store is marked
    in error with the message "canceled", its paused state is lost, and
    while attempts remain one is consumed and the download will start again
    after the retry delay. *)
Theorem abort_is_a_failure (now : Z) (pid : nat) (taskId : string) (r : nat)
    (info : ManifestInfo) (layer : Layer) (rest : list Layer) (ctl : nat)
    (outPath : string) (resp : Result unit) (t : DownloadTask) (s : Service) :
  crashed s = false →
  procs s !! pid
  = Some {| p_taskId := taskId; p_task := r;
            p_pc := AwaitBlob info layer rest ctl outPath |} →
  ctl ∈ aborted s →
  activeTasks s !! taskId = Some r →
  objects s !! r = Some t →
  let s' := (step now (Wake pid (BlobResponse resp)) s).1 in
  let count := num_or0 (retryCount t) in
  let t' := status_update now Error (Some "canceled") t in
  getTask taskId s'
  = Some (if count <? retryAttempts then set_retryCount (Some (count + 1)) t' else t')
  ∧ p_pc <$> procs s' !! pid
    = Some (if count <? retryAttempts then AwaitDelay else Finished)
  ∧ files s' = files s.
Proof.
  intros Hlive Hp Hctl Hact Ht.
  assert (Hlen : (pid < length (procs s))%nat) by (by eapply lookup_lt_Some).
  destruct (on_catch_getTask now taskId r AxiosCanceled s t Hact Ht)
    as (Hact' & Hobj' & Hpc').
  unfold step. rewrite Hlive, Hp. unfold continue. simpl.
  rewrite bool_decide_eq_true_2 by done. simpl.
  split; [|split].
  - unfold getTask. simpl. rewrite Hact'. simpl. exact Hobj'.
  - rewrite list_lookup_insert_eq; [by rewrite Hpc'|].
    unfold on_catch. repeat case_match; simpl; by autorewrite with frame.
  - unfold on_catch. repeat case_match; simpl; by autorewrite with frame.
Qed.

Lemma pause_marks_and_aborts_witness :
  (route_pause 1006 "1000" Cases.in_stream).2
  = reply 200 (Some (Cases.task Paused 3 1006)) None
  ∧ (1%nat ∈ aborted (route_pause 1006 "1000" Cases.in_stream).1).
Proof.
  destruct (pause_marks_and_aborts 1006 "1000" (Cases.task Downloading 3 1000)
              Cases.in_stream eq_refl eq_refl) as (H1 & _ & _ & _ & H5 & _).
  split; [exact H1|]. apply H5. reflexivity.
Defined.

Lemma abort_is_a_failure_witness :
  status <$> getTask "1000"
               (step 1006 (Wake 0 (BlobResponse (Ok ()))) Cases.paused_before_response).1
  = Some Error
  ∧ p_pc <$> procs (step 1006 (Wake 0 (BlobResponse (Ok ()))) Cases.paused_before_response).1
             !! 0%nat
    = Some AwaitDelay.
Proof.
  destruct (abort_is_a_failure 1006 0 "1000" 0 Cases.infoA Scenario.layerA [] 1
              Scenario.blobA (Ok ()) (Cases.task Paused 3 1005)
              Cases.paused_before_response eq_refl eq_refl) as (H1 & H2 & _);
    [apply (proj1 (bool_decide_spec _)); vm_compute; exact I | reflexivity | reflexivity |].
  split; [by rewrite H1 | exact H2].
Defined.
